(** * The framework-manager workflow: a shallow embedding

    The repository routes a user query to up to three remote framework
    agents (ElizaOS, Tron, Goose), records one outcome per agent and
    merges the successful answers with a second language-model call.

    Everything outside the repository (the HTTP server behind
    [requests.post], the constructor of the chat model, the two
    language-model chains, CPython's rendering of exceptions and
    containers, the iteration order of a [set]) is gathered
    in one record, [World]; every definition below is a function of it and
    every theorem holds for all worlds. *)

From Stdlib Require Import ZArith Lia.
From stdpp Require Import base option list strings relations.

Local Open Scope string_scope.

(** ** Python values and exceptions *)

(** The values [json.loads] can produce, which are also the values the
    code stores without validation.  JSON numbers are kept as integers. *)
#[warnings="-register-all"]
Inductive pyval :=
| PNone
| PBool (b : bool)
| PInt (n : Z)
| PStr (s : string)
| PList (l : list pyval)
| PDict (kv : list (string * pyval)).

Inductive exn :=
| KeyError (key : string)
| TypeError (offender : pyval)
| RequestException (msg : string)
| HTTPError (code : Z)
| JSONDecodeError (msg : string)
| ValidationError (input : pyval)
| StopIteration
| ChainException (msg : string)
| ModelError (msg : string)
| GraphRecursionError.

Inductive result (A : Type) :=
| Ok (a : A)
| Raise (e : exn).
Arguments Ok {A} a.
Arguments Raise {A} e.

#[global] Instance result_ret : MRet result := fun _ a => Ok a.
#[global] Instance result_bind : MBind result := fun _ _ f m =>
  match m with
  | Ok a => f a
  | Raise e => Raise e
  end.

Definition returned {A} (r : result A) : Prop := exists a, r = Ok a.

(** [d[key]] for a string key: only a dict can be subscripted by a string;
    the first binding of a key is the dict's entry. *)
Fixpoint dict_get (key : string) (kv : list (string * pyval)) : option pyval :=
  match kv with
  | [] => None
  | (k, v) :: rest => if String.eqb k key then Some v else dict_get key rest
  end.

Definition subscript (v : pyval) (key : string) : result pyval :=
  match v with
  | PDict kv =>
      match dict_get key kv with
      | Some x => Ok x
      | None => Raise (KeyError key)
      end
  | _ => Raise (TypeError v)
  end.

(** Truth value of an object, as [if v:] tests it. *)
Definition truthy (v : pyval) : bool :=
  match v with
  | PNone => false
  | PBool b => b
  | PInt n => negb (n =? 0)%Z
  | PStr s => negb (String.eqb s "")
  | PList l => match l with [] => false | _ => true end
  | PDict kv => match kv with [] => false | _ => true end
  end.

(** [for x in v]: a list yields its items, a dict its keys, a string its
    characters; the rest is not iterable. *)
Fixpoint chars (s : string) : list pyval :=
  match s with
  | EmptyString => []
  | String c rest => PStr (String c EmptyString) :: chars rest
  end.

Definition py_iter (v : pyval) : result (list pyval) :=
  match v with
  | PList l => Ok l
  | PDict kv => Ok (map (fun p => PStr (fst p)) kv)
  | PStr s => Ok (chars s)
  | _ => Raise (TypeError v)
  end.

(** Equality of hashable values: [True == 1] and [False == 0]. *)
Definition py_eqb (a b : pyval) : bool :=
  match a, b with
  | PNone, PNone => true
  | PBool x, PBool y => Bool.eqb x y
  | PBool x, PInt n | PInt n, PBool x => (n =? (if x then 1 else 0))%Z
  | PInt n, PInt m => (n =? m)%Z
  | PStr s, PStr t => String.eqb s t
  | _, _ => false
  end.

Definition hashable (v : pyval) : bool :=
  match v with
  | PList _ | PDict _ => false
  | _ => true
  end.

(** A [set] is kept as the list of its elements in insertion order. *)
Definition pyset := list pyval.

Definition set_mem (x : pyval) (s : pyset) : bool := existsb (py_eqb x) s.

Definition set_add (x : pyval) (s : pyset) : result pyset :=
  if hashable x then Ok (if set_mem x s then s else (s ++ [x])%list)
  else Raise (TypeError x).

Definition nl : string := String (Ascii.ascii_of_nat 10) EmptyString.

Definition upper_char (c : Ascii.ascii) : Ascii.ascii :=
  let n := Ascii.nat_of_ascii c in
  if (97 <=? n)%nat && (n <=? 122)%nat then Ascii.ascii_of_nat (n - 32) else c.

Fixpoint upper (s : string) : string :=
  match s with
  | EmptyString => EmptyString
  | String c rest => String (upper_char c) (upper rest)
  end.

(** [sep.join(parts)] *)
Fixpoint join (sep : string) (parts : list string) : string :=
  match parts with
  | [] => ""
  | [p] => p
  | p :: rest => p ++ sep ++ join sep rest
  end.

(** ** models.py *)

Inductive AgentType := ELIZAOS | TRON | GOOSE.

Definition AgentType_value (a : AgentType) : string :=
  match a with
  | ELIZAOS => "elizaos"
  | TRON => "tron"
  | GOOSE => "goose"
  end.

#[global] Instance AgentType_eq_dec : EqDecision AgentType.
Proof. solve_decision. Defined.

Inductive TaskStatus := PENDING | IN_PROGRESS | COMPLETED | FAILED.

Definition TaskStatus_value (s : TaskStatus) : string :=
  match s with
  | PENDING => "pending"
  | IN_PROGRESS => "in_progress"
  | COMPLETED => "completed"
  | FAILED => "failed"
  end.

#[global] Instance TaskStatus_eq_dec : EqDecision TaskStatus.
Proof. solve_decision. Defined.

(** [response] and [error] are declared [Optional[str]]; assignment to a
    field is not validated, so they hold whatever is assigned. *)
Record AgentTask := {
  agent_type : AgentType;
  query : string;
  status : TaskStatus;
  response : pyval;
  error : pyval
}.

(** Members of a [str]-mixin enum compare and hash like their values. *)
Definition enum_member (a : AgentType) : pyval := PStr (AgentType_value a).

(** Validation of the [agent_type] field by the model's constructor. *)
Definition validate_agent_type (v : pyval) : result AgentType :=
  match v with
  | PStr s =>
      if String.eqb s "elizaos" then Ok ELIZAOS
      else if String.eqb s "tron" then Ok TRON
      else if String.eqb s "goose" then Ok GOOSE
      else Raise (ValidationError v)
  | _ => Raise (ValidationError v)
  end.

(** [AgentTask(agent_type=..., query=...)] *)
Definition new_AgentTask (a : pyval) (q : string) : result AgentTask :=
  t ← validate_agent_type a;
  Ok {| agent_type := t; query := q; status := PENDING;
        response := PNone; error := PNone |}.

Inductive message :=
| HumanMessage (content : string)
| AIMessage (content : string).

Record ManagerState := {
  original_query : string;
  tasks : list AgentTask;
  required_agents : pyset;
  current_agent : option AgentType;
  messages : list message;
  final_output : string
}.

(** ** The outside world *)

(** A call that leaves the process, with the arguments the code passes. *)
Inductive call :=
| SelectorInvoke (q : string)
| HttpPost (endpoint : string) (payload_query : string)
| AggregatorInvoke (q : string) (agent_responses : string).

(** Calls made so far, most recent first. *)
Definition history := list call.

Record Response := {
  status_code : Z;
  json : result pyval
}.

(** Replies may depend on the whole history, the current call at its head,
    so the same request can be answered differently at different times.
    [chat_deepseek model h] is [ChatDeepSeek(model=model)] evaluated after
    the calls [h]: the constructor makes no call, and it raises when the
    client cannot be set up (for instance without an API key). *)
Record World := {
  requests_post : history -> result Response;
  chat_deepseek : string -> history -> result unit;
  selector_invoke : history -> result pyval;
  aggregator_invoke : history -> result string;
  py_str_exn : exn -> string;
  py_repr : pyval -> string;
  set_order : pyset -> list pyval;
  set_order_perm : forall s, set_order s ≡ₚ s;
  encode_message : message -> pyval
}.

(** [Response.raise_for_status()] of the HTTP client: an error is raised
    for the 4xx and 5xx codes. *)
Definition raise_for_status (r : Response) : result unit :=
  if ((400 <=? status_code r) && (status_code r <? 600))%Z
  then Raise (HTTPError (status_code r))
  else Ok tt.

(** [format(v, "")], as an f-string field does. *)
Definition py_format (W : World) (v : pyval) : string :=
  match v with
  | PStr s => s
  | PNone => "None"
  | PBool true => "True"
  | PBool false => "False"
  | _ => py_repr W v
  end.

(** ** agents.py *)

Definition ELIZAOS_API_ENDPOINT := "http://localhost:8000/elizaOS-eliza".
Definition TRON_API_ENDPOINT := "http://localhost:8000/elizaOS-eliza".
Definition GOOSE_API_ENDPOINT := "http://localhost:8000/block-goose".

Definition ELIZAOS_API_KEY := "your-elizaos-api-key-here".
Definition TRON_API_KEY := "your-tron-api-key-here".
Definition GOOSE_API_KEY := "your-goose-api-key-here".

Record BaseAgent := {
  api_endpoint : string;
  api_key : string
}.

Definition ElizaOSAgent := {| api_endpoint := ELIZAOS_API_ENDPOINT; api_key := ELIZAOS_API_KEY |}.
Definition TronAgent := {| api_endpoint := TRON_API_ENDPOINT; api_key := TRON_API_KEY |}.
Definition GooseAgent := {| api_endpoint := GOOSE_API_ENDPOINT; api_key := GOOSE_API_KEY |}.

Definition success_dict (r : pyval) : pyval :=
  PDict [("success", PBool true); ("result", r)].

Definition failure_dict (msg : string) : pyval :=
  PDict [("success", PBool false); ("error", PStr msg)].

Module BaseAgent.

(** The body of the [try]. *)
Definition attempt (W : World) (h : history) : result pyval :=
  response ← requests_post W h;
  _ ← raise_for_status response;
  body ← json response;
  r ← subscript body "result";
  Ok (success_dict r).

Definition process (W : World) (self : BaseAgent) (q : string) (h : history)
  : pyval * history :=
  let h' := HttpPost (api_endpoint self) q :: h in
  (match attempt W h' with
   | Ok d => d
   | Raise e => failure_dict (py_str_exn W e)
   end, h').

End BaseAgent.

(** ** main.py: the manager *)

Module FrameworkManagerAgent.

Definition framework_agents (a : AgentType) : BaseAgent :=
  match a with
  | ELIZAOS => ElizaOSAgent
  | TRON => TronAgent
  | GOOSE => GooseAgent
  end.

(** [{agent['agent_type'] for agent in agents_list if agent['needed']}],
    accumulated from left to right; the first exception aborts it. *)
Fixpoint needed_agents (agents_list : list pyval) (acc : pyset) : result pyset :=
  match agents_list with
  | [] => Ok acc
  | agent :: rest =>
      needed ← subscript agent "needed";
      if truthy needed then
        a ← subscript agent "agent_type";
        acc' ← set_add a acc;
        needed_agents rest acc'
      else needed_agents rest acc
  end.

(** The body of the [try] of [determine_required_agents]. *)
Definition selection (W : World) (h : history) : result pyset :=
  res ← selector_invoke W h;
  agents ← subscript res "agents";
  agents_list ← py_iter agents;
  needed_agents agents_list [].

(** [set(AgentType)] *)
Definition all_agents : pyset :=
  [enum_member ELIZAOS; enum_member TRON; enum_member GOOSE].

(** The parser, the chat model and the chain are built before the [try]:
    of these only [ChatDeepSeek(model="deepseek-chat")] depends on anything
    but the program text, and its exception escapes the function before
    any call is made. *)
Definition determine_required_agents (W : World) (q : string) (h : history)
  : result pyset * history :=
  match chat_deepseek W "deepseek-chat" h with
  | Raise e => (Raise e, h)
  | Ok _ =>
      let h' := SelectorInvoke q :: h in
      (Ok match selection W h' with
          | Ok required => required
          | Raise _ => all_agents
          end, h')
  end.

Definition process_with_agent (W : World) (a : AgentType) (q : string) (h : history)
  : pyval * history :=
  BaseAgent.process W (framework_agents a) q h.

Definition is_completed (t : AgentTask) : bool := bool_decide (status t = COMPLETED).

(** One entry of the prompt text:
    [f"{task.agent_type.upper()} AGENT:\n{task.response}"]. *)
Definition response_entry (W : World) (t : AgentTask) : string :=
  upper (AgentType_value (agent_type t)) ++ " AGENT:" ++ nl ++ py_format W (response t).

Definition agent_responses (W : World) (completed_tasks : list AgentTask) : string :=
  join (nl ++ nl) (map (response_entry W) (List.filter is_completed completed_tasks)).

Definition aggregate_responses (W : World) (q : string)
    (completed_tasks : list AgentTask) (h : history) : result string * history :=
  let h' := AggregatorInvoke q (agent_responses W completed_tasks) :: h in
  (aggregator_invoke W h', h').

End FrameworkManagerAgent.

(** ** main.py: the graph nodes *)

(** What a node returns: a dict holding some of the keys of the state. *)
Record StateUpdate := {
  upd_original_query : option string;
  upd_tasks : option (list AgentTask);
  upd_required_agents : option pyset;
  upd_current_agent : option (option AgentType);
  upd_messages : option (list message);
  upd_final_output : option string
}.

(** [{**state}] *)
Definition spread (s : ManagerState) : StateUpdate :=
  {| upd_original_query := Some (original_query s);
     upd_tasks := Some (tasks s);
     upd_required_agents := Some (required_agents s);
     upd_current_agent := Some (current_agent s);
     upd_messages := Some (messages s);
     upd_final_output := Some (final_output s) |}.

Definition with_tasks (ts : list AgentTask) (u : StateUpdate) : StateUpdate :=
  {| upd_original_query := upd_original_query u;
     upd_tasks := Some ts;
     upd_required_agents := upd_required_agents u;
     upd_current_agent := upd_current_agent u;
     upd_messages := upd_messages u;
     upd_final_output := upd_final_output u |}.

Definition with_required_agents (r : pyset) (u : StateUpdate) : StateUpdate :=
  {| upd_original_query := upd_original_query u;
     upd_tasks := upd_tasks u;
     upd_required_agents := Some r;
     upd_current_agent := upd_current_agent u;
     upd_messages := upd_messages u;
     upd_final_output := upd_final_output u |}.

Definition with_current_agent (a : option AgentType) (u : StateUpdate) : StateUpdate :=
  {| upd_original_query := upd_original_query u;
     upd_tasks := upd_tasks u;
     upd_required_agents := upd_required_agents u;
     upd_current_agent := Some a;
     upd_messages := upd_messages u;
     upd_final_output := upd_final_output u |}.

(** How the graph merges a returned dict into its state: the two keys
    annotated with [operator.add] are added to the old value, the other
    keys are overwritten, absent keys are kept. *)
Definition apply_update (s : ManagerState) (u : StateUpdate) : ManagerState :=
  {| original_query := default (original_query s) (upd_original_query u);
     tasks := default (tasks s) (upd_tasks u);
     required_agents := default (required_agents s) (upd_required_agents u);
     current_agent := default (current_agent s) (upd_current_agent u);
     messages := (messages s ++ default [] (upd_messages u))%list;
     final_output := final_output s ++ default "" (upd_final_output u) |}.

Definition is_pending (t : AgentTask) : bool := bool_decide (status t = PENDING).

(** [current_task.response = r; current_task.status = COMPLETED] *)
Definition mark_completed (t : AgentTask) (r : pyval) : AgentTask :=
  {| agent_type := agent_type t; query := query t; status := COMPLETED;
     response := r; error := error t |}.

(** [current_task.error = e; current_task.status = FAILED] *)
Definition mark_failed (t : AgentTask) (e : pyval) : AgentTask :=
  {| agent_type := agent_type t; query := query t; status := FAILED;
     response := response t; error := e |}.

Fixpoint mapM {A B} (f : A -> result B) (l : list A) : result (list B) :=
  match l with
  | [] => Ok []
  | x :: rest => y ← f x; ys ← mapM f rest; Ok (y :: ys)
  end.

Definition NO_ANSWER : string :=
  "Unable to provide a response as all specialized agents encountered errors.".

Module Node.

Definition initialize (W : World) (state : ManagerState) (h : history)
  : result StateUpdate * history :=
  let '(r, h') :=
    FrameworkManagerAgent.determine_required_agents W (original_query state) h in
  (required ← r;
   new_tasks ← mapM (fun a => new_AgentTask a (original_query state))
                    (set_order W required);
   Ok (with_current_agent None
         (with_required_agents required (with_tasks new_tasks (spread state)))),
   h').

Definition select_next_agent (state : ManagerState) : StateUpdate :=
  match List.find is_pending (tasks state) with
  | Some task => with_current_agent (Some (agent_type task)) (spread state)
  | None => with_current_agent None (spread state)
  end.

(** The task object is updated in place and then put at every position
    of the list that holds its agent type. *)
Definition process_with_agent (W : World) (state : ManagerState) (h : history)
  : result StateUpdate * history :=
  match current_agent state with
  | None => (Ok (spread state), h)
  | Some a =>
      match List.find (fun task => bool_decide (agent_type task = a)) (tasks state) with
      | None => (Raise StopIteration, h)
      | Some current_task =>
          let '(res, h') :=
            FrameworkManagerAgent.process_with_agent W
              (agent_type current_task) (query current_task) h in
          (ok ← subscript res "success";
           done_task ←
             (if truthy ok
              then r ← subscript res "result"; Ok (mark_completed current_task r)
              else e ← subscript res "error"; Ok (mark_failed current_task e));
           let updated_tasks :=
             map (fun task =>
                    if bool_decide (agent_type task ≠ agent_type current_task)
                    then task else done_task) (tasks state) in
           Ok (with_tasks updated_tasks (spread state)),
           h')
      end
  end.

Definition should_continue (state : ManagerState) : string :=
  if bool_decide (current_agent state = None)
     && forallb (fun task => negb (is_pending task)) (tasks state)
  then "finish" else "continue".

Definition finalize (W : World) (state : ManagerState) (h : history)
  : result StateUpdate * history :=
  let completed_tasks := List.filter FrameworkManagerAgent.is_completed (tasks state) in
  let '(out, h') :=
    match completed_tasks with
    | [] => (Ok NO_ANSWER, h)
    | _ => FrameworkManagerAgent.aggregate_responses W
             (original_query state) completed_tasks h
    end in
  (output ← out;
   Ok {| upd_original_query := None;
         upd_tasks := None;
         upd_required_agents := None;
         upd_current_agent := None;
         upd_messages :=
           Some [AIMessage ("Query processed. Here's the answer:" ++ nl ++ nl ++ output)];
         upd_final_output := Some output |},
   h').

End Node.

(** ** main.py: the graph *)

Inductive node := Initialize | SelectNextAgent | ProcessWithAgent | Finalize | END.

(** The mapping given to [add_conditional_edges]. *)
Definition conditional_edges (label : string) : option node :=
  if String.eqb label "continue" then Some ProcessWithAgent
  else if String.eqb label "finish" then Some Finalize
  else None.

Record config := {
  at_node : node;
  state_of : ManagerState;
  calls : history
}.

(** One superstep: the node at hand runs, its dict is merged into the
    state, and the outgoing edge (for [select_next_agent], the branch
    chosen by [should_continue] on the merged state) gives the next node. *)
Definition graph_step (W : World) (c : config) : result config :=
  let s := state_of c in
  match at_node c with
  | Initialize =>
      let '(r, h) := Node.initialize W s (calls c) in
      u ← r;
      Ok {| at_node := SelectNextAgent; state_of := apply_update s u; calls := h |}
  | SelectNextAgent =>
      let s' := apply_update s (Node.select_next_agent s) in
      match conditional_edges (Node.should_continue s') with
      | Some n => Ok {| at_node := n; state_of := s'; calls := calls c |}
      | None => Raise (KeyError (Node.should_continue s'))
      end
  | ProcessWithAgent =>
      let '(r, h) := Node.process_with_agent W s (calls c) in
      u ← r;
      Ok {| at_node := SelectNextAgent; state_of := apply_update s u; calls := h |}
  | Finalize =>
      let '(r, h) := Node.finalize W s (calls c) in
      u ← r;
      Ok {| at_node := END; state_of := apply_update s u; calls := h |}
  | END => Ok c
  end.

(** The graph library stops a run after this many supersteps. *)
Definition recursion_limit : nat := 25.

Fixpoint run (W : World) (fuel : nat) (c : config) : result config :=
  match at_node c with
  | END => Ok c
  | _ =>
      match fuel with
      | O => Raise GraphRecursionError
      | S fuel' => c' ← graph_step W c; run W fuel' c'
      end
  end.

Definition initial_state (q : string) : ManagerState :=
  {| original_query := q;
     messages := [HumanMessage q];
     tasks := [];
     required_agents := [];
     current_agent := None;
     final_output := "" |}.

Definition start (q : string) (h : history) : config :=
  {| at_node := Initialize; state_of := initial_state q; calls := h |}.

Definition run_framework_manager (W : World) (q : string) (h : history) : result config :=
  run W recursion_limit (start q h).

(** [query_manager_agent(query, deepseek_llm)]: the chat model is built
    first, then the workflow runs. *)
Definition query_manager_agent (W : World) (q deepseek_llm : string) (h : history)
  : result config :=
  _ ← chat_deepseek W deepseek_llm h;
  run_framework_manager W q h.

(** ** api.py *)

Definition encode_task (t : AgentTask) : pyval :=
  PDict [("agent_type", PStr (AgentType_value (agent_type t)));
         ("query", PStr (query t));
         ("status", PStr (TaskStatus_value (status t)));
         ("response", response t);
         ("error", error t)].

(** The JSON rendering of the dict returned by the graph. *)
Definition encode_state (W : World) (s : ManagerState) : pyval :=
  PDict [("original_query", PStr (original_query s));
         ("tasks", PList (map encode_task (tasks s)));
         ("required_agents", PList (set_order W (required_agents s)));
         ("current_agent",
            match current_agent s with
            | Some a => PStr (AgentType_value a)
            | None => PNone
            end);
         ("messages", PList (map (encode_message W) (messages s)));
         ("final_output", PStr (final_output s))].

(** [POST /query]: the body returned for a request carrying [q], or the
    exception that escapes the handler.  The handler leaves the model
    name to its default. *)
Definition get_items (W : World) (q : string) (h : history) : result pyval :=
  c ← query_manager_agent W q "deepseek-reasoner" h;
  Ok (PDict [("result", encode_state W (state_of c))]).

(** ** Sample worlds

    Concrete worlds on which the definitions run; the theorems below are
    instantiated on them. *)

Module Sample.

Definition str_exn (e : exn) : string :=
  match e with
  | KeyError k => "'" ++ k ++ "'"
  | TypeError _ => "object is not subscriptable"
  | RequestException m => m
  | HTTPError _ => "Error for url"
  | JSONDecodeError m => m
  | ValidationError _ => "validation error for AgentTask"
  | StopIteration => ""
  | ChainException m => m
  | ModelError m => m
  | GraphRecursionError => "Recursion limit reached"
  end.

Definition encode (m : message) : pyval :=
  match m with
  | HumanMessage c => PDict [("content", PStr c); ("type", PStr "human")]
  | AIMessage c => PDict [("content", PStr c); ("type", PStr "ai")]
  end.

Definition world (post : history -> result Response)
    (sel : history -> result pyval) (agg : history -> result string) : World :=
  {| requests_post := post;
     chat_deepseek := fun _ _ => Ok tt;
     selector_invoke := sel;
     aggregator_invoke := agg;
     py_str_exn := str_exn;
     py_repr := fun _ => "<object>";
     set_order := fun s => s;
     set_order_perm := fun s => reflexivity s;
     encode_message := encode |}.

Definition verdict (a : string) (needed : bool) : pyval :=
  PDict [("agent_type", PStr a); ("needed", PBool needed); ("reason", PStr "because")].

Definition answer (status : Z) (text : string) : result Response :=
  Ok {| status_code := status; json := Ok (PDict [("result", PStr text)]) |}.

(** The Goose endpoint is down, the other one answers. *)
Definition post (h : history) : result Response :=
  match h with
  | HttpPost ep q :: _ =>
      if String.eqb ep GOOSE_API_ENDPOINT
      then Ok {| status_code := 503; json := Raise (JSONDecodeError "Expecting value") |}
      else answer 200 ("use pattern matching for " ++ q)
  | _ => Raise (RequestException "unreachable")
  end.

Definition sel (h : history) : result pyval :=
  Ok (PDict [("agents", PList [verdict "elizaos" true; verdict "tron" false;
                               verdict "goose" true])]).

Definition agg (h : history) : result string :=
  match h with
  | AggregatorInvoke q text :: _ => Ok ("In short: " ++ text)
  | _ => Raise (ChainException "no prompt")
  end.

Definition W : World := world post sel agg.

(** Every endpoint answers 300 (Multiple Choices) with a JSON body. *)
Definition W300 : World := world (fun _ => answer 300 "see the choices") sel agg.

(** The selection chain fails; every endpoint refuses the connection. *)
Definition Wdown : World :=
  world (fun _ => Raise (RequestException "Connection refused"))
        (fun _ => Raise (ChainException "Invalid json output")) agg.

(** The selection chain finds no agent needed. *)
Definition Wnone : World :=
  world post (fun _ => Ok (PDict [("agents", PList [verdict "elizaos" false])])) agg.

(** A state about to be finalized: one answer, one failure. *)
Definition settled : ManagerState :=
  {| original_query := "q";
     tasks := [{| agent_type := TRON; query := "q"; status := FAILED;
                  response := PNone; error := PStr "Error for url" |};
               {| agent_type := GOOSE; query := "q"; status := COMPLETED;
                  response := PStr "shard the work"; error := PNone |}];
     required_agents := [PStr "tron"; PStr "goose"];
     current_agent := None;
     messages := [HumanMessage "q"];
     final_output := "" |}.

(** A state about to be finalized: two answers around a failure. *)
Definition answered : ManagerState :=
  {| original_query := "q";
     tasks := [{| agent_type := ELIZAOS; query := "q"; status := COMPLETED;
                  response := PStr "match patterns"; error := PNone |};
               {| agent_type := TRON; query := "q"; status := FAILED;
                  response := PNone; error := PStr "Error for url" |};
               {| agent_type := GOOSE; query := "q"; status := COMPLETED;
                  response := PStr "shard the work"; error := PNone |}];
     required_agents := [PStr "elizaos"; PStr "tron"; PStr "goose"];
     current_agent := None;
     messages := [HumanMessage "q"];
     final_output := "" |}.

(** The selection chain answers with a given verdict list. *)
Definition selecting (verdicts : list pyval) : World :=
  world post (fun _ => Ok (PDict [("agents", PList verdicts)])) agg.

(** Verdict lists off the schema: an agent name in the wrong case; an
    item without [needed]; items that are not needed and hold no usable
    [agent_type]. *)
Definition miscased : list pyval := [verdict "ElizaOS" true].
Definition malformed : list pyval :=
  [verdict "goose" true; PDict [("agent_type", PStr "tron")]].
Definition unneeded : list pyval :=
  [PDict [("needed", PBool false)];
   PDict [("needed", PInt 0); ("agent_type", PList [])]].

(** The world of [W] without an API key: no chat model can be built. *)
Definition Wnokey : World :=
  {| requests_post := post;
     chat_deepseek := fun _ _ => Raise (ModelError "DEEPSEEK_API_KEY must be set");
     selector_invoke := sel;
     aggregator_invoke := agg;
     py_str_exn := str_exn;
     py_repr := fun _ => "<object>";
     set_order := fun s => s;
     set_order_perm := fun s => reflexivity s;
     encode_message := encode |}.

End Sample.

(** ** main.py: the simulated replies *)

(** [simulate_api_response]: the dict of the three texts is built and the
    agent's text is returned as a success. *)
Definition simulate_api_response (a : AgentType) (q : string) : pyval :=
  success_dict
    (PStr match a with
          | ELIZAOS =>
              "ElizaOS analysis: Based on the query '" ++ q
              ++ "', I recommend using the ElizaOS filesystem API with pattern matching to solve this efficiently."
          | TRON =>
              "Tron framework response: For '" ++ q
              ++ "', you should implement a grid-based approach using Tron's lightweight memory management features."
          | GOOSE =>
              "Goose framework solution: '" ++ q
              ++ "' can be addressed with Goose's distributed processing model using the following pattern..."
          end).

(** ** documentation.py *)

Module Documentation.

(** What leaves the process: an HTTP request, a call of [os.makedirs]
    (which creates the named directory and the parents it lacks), and the
    writing of a file (opened for writing, written, closed).  An effect is
    recorded when it is attempted, whether or not it succeeds.  Printing
    is left out. *)
Inductive effect :=
| Get (url : string) (payload : option pyval)
| MakeDirs (path : string)
| WriteFile (path : string) (text : string).

Inductive os_error :=
| FileExistsError (path : string)
| OSError (msg : string).

(** The server and the file system, asked with the effects so far, the
    current one first. *)
Record Env := {
  requests_get : list effect -> result Response;
  os_makedirs : list effect -> option os_error;
  write_file : list effect -> option os_error
}.

Inductive failure :=
| PyError (e : exn)
| OsError (e : os_error).

Inductive outcome :=
| Returned
| Raised (e : failure).

Record DocumentationAgent := {
  repo_name : string;
  endpoint : string;
  structure : pyval
}.

(** The body of the [try] of [get_structure]. *)
Definition structure_attempt (D : Env) (h : list effect) : result pyval :=
  response ← requests_get D h;
  _ ← raise_for_status response;
  body ← json response;
  r ← subscript body "result";
  subscript r "headings".

(** On an exception the function prints it and falls off its end. *)
Definition get_structure (D : Env) (endpoint : string) (h : list effect)
  : pyval * list effect :=
  let h' := Get (endpoint ++ "/docs-structure") None :: h in
  (match structure_attempt D h' with
   | Ok headings => headings
   | Raise _ => PNone
   end, h').

(** [DocumentationAgent(repo_name, endpoint)] *)
Definition init (D : Env) (repo_name endpoint : string) (h : list effect)
  : DocumentationAgent * list effect :=
  let '(headings, h') := get_structure D endpoint h in
  ({| repo_name := repo_name; endpoint := endpoint; structure := headings |}, h').

Definition content_attempt (D : Env) (h : list effect) : result pyval :=
  response ← requests_get D h;
  _ ← raise_for_status response;
  body ← json response;
  subscript body "result".

Definition _fetch_content (D : Env) (self : DocumentationAgent)
    (heading subheading : pyval) (h : list effect) : pyval * list effect :=
  let payload := PDict [("heading", heading); ("subheading", subheading)] in
  let h' := Get (endpoint self ++ "/docs-content") (Some payload) :: h in
  (match content_attempt D h' with
   | Ok content => content
   | Raise _ => PNone
   end, h').

(** The three writes to the file of a subheading. *)
Definition page (W : World) (title subheading response : pyval) : string :=
  ("---" ++ nl ++ "id: " ++ py_format W title ++ "." ++ py_format W subheading ++ nl
   ++ "title: " ++ py_format W subheading ++ nl ++ "---" ++ nl)
  ++ ("# " ++ py_format W subheading ++ nl)
  ++ (py_format W response ++ nl).

Definition page_path (W : World) (title subheading : pyval) : string :=
  "docs/" ++ py_format W title ++ "/" ++ py_format W subheading ++ ".md".

(** The inner loop of [get_content]. *)
Fixpoint write_subheadings (W : World) (D : Env) (self : DocumentationAgent)
    (title : pyval) (subheadings : list pyval) (h : list effect)
  : outcome * list effect :=
  match subheadings with
  | [] => (Returned, h)
  | subheading :: rest =>
      let '(response, h1) := _fetch_content D self title subheading h in
      let h2 := WriteFile (page_path W title subheading)
                          (page W title subheading response) :: h1 in
      match write_file D h2 with
      | Some e => (Raised (OsError e), h2)
      | None => write_subheadings W D self title rest h2
      end
  end.

(** The outer loop of [get_content]. *)
Fixpoint write_headings (W : World) (D : Env) (self : DocumentationAgent)
    (headings : list pyval) (h : list effect) : outcome * list effect :=
  match headings with
  | [] => (Returned, h)
  | heading :: rest =>
      match subscript heading "title" with
      | Raise e => (Raised (PyError e), h)
      | Ok title =>
          let h1 := MakeDirs ("docs/" ++ py_format W title) :: h in
          match os_makedirs D h1 with
          | Some e => (Raised (OsError e), h1)
          | None =>
              match subscript heading "subheadings" ≫= py_iter with
              | Raise e => (Raised (PyError e), h1)
              | Ok subheadings =>
                  match write_subheadings W D self title subheadings h1 with
                  | (Returned, h2) => write_headings W D self rest h2
                  | (Raised e, h2) => (Raised e, h2)
                  end
              end
          end
      end
  end.

Definition get_content (W : World) (D : Env) (self : DocumentationAgent)
    (h : list effect) : outcome * list effect :=
  if truthy (structure self) then
    match py_iter (structure self) with
    | Ok headings => write_headings W D self headings h
    | Raise e => (Raised (PyError e), h)
    end
  else (Returned, h).

Definition is_get (e : effect) : bool :=
  match e with Get _ _ => true | _ => false end.
Definition is_makedirs (e : effect) : bool :=
  match e with MakeDirs _ => true | _ => false end.
Definition is_write (e : effect) : bool :=
  match e with WriteFile _ _ => true | _ => false end.

(** A documentation server that knows one heading with two pages, the
    second of which it cannot serve; and a file system that accepts
    everything. *)
Definition sample_structure : pyval :=
  PList [PDict [("title", PStr "Guide");
                ("subheadings", PList [PStr "Install"; PStr "Usage"])]].

Definition sample_env : Env :=
  {| requests_get := fun h =>
       match h with
       | Get _ None :: _ =>
           Ok {| status_code := 200;
                 json := Ok (PDict [("result", PDict [("headings", sample_structure)])]) |}
       | Get _ (Some (PDict [_; (_, PStr "Install")])) :: _ =>
           Ok {| status_code := 200; json := Ok (PDict [("result", PStr "Run pip.")]) |}
       | _ => Ok {| status_code := 404; json := Raise (JSONDecodeError "Expecting value") |}
       end;
     os_makedirs := fun _ => None;
     write_file := fun _ => None |}.

(** The same server with a [docs/Guide] directory already there. *)
Definition sample_env_existing : Env :=
  {| requests_get := requests_get sample_env;
     os_makedirs := fun h =>
       match h with
       | MakeDirs path :: _ => Some (FileExistsError path)
       | _ => None
       end;
     write_file := fun _ => None |}.

(** A server that is down. *)
Definition sample_env_down : Env :=
  {| requests_get := fun _ => Raise (RequestException "Connection refused");
     os_makedirs := fun _ => None;
     write_file := fun _ => None |}.

End Documentation.

(** ** process_files.py and setup_docs.py *)

Module Docs.

(** What the scripts take from the standard library and from the file
    system, kept as given: [Path(file).stem], [str.title()],
    [os.path.relpath], [json.dumps(_, indent=2)], the document ids the
    two scripts build with [os.path] for a file of a directory, the
    replacement of [os.path.sep], and the order produced by [sorted].

    A file is the string of its bytes.  The scripts open files in text
    mode with the UTF-8 encoding: [read_text bytes] is what [f.read()]
    returns for a file holding [bytes] (the bytes decoded, every line
    ending translated to a line feed), and [write_text text] is the bytes
    [f.write(text)] puts out (line feeds translated to the platform's
    line ending, the text encoded); [None] when opening the file,
    reading or writing it, or the codec raises. *)
Record PyLib := {
  read_text : string -> option string;
  write_text : string -> option string;
  path_stem : string -> string;
  str_title : string -> string;
  relpath : string -> string -> string;
  json_dump : pyval -> string;
  doc_id : string -> string -> string -> string;
  join_id : string -> string -> string;
  replace_sep : string -> string -> string;
  sorted : list string -> list string;
  sorted_perm : forall l, sorted l ≡ₚ l
}.

Definition hyphen : Ascii.ascii := Ascii.ascii_of_nat 45.
Definition space : Ascii.ascii := Ascii.ascii_of_nat 32.

(** [s.replace(old, new)] for one-character strings. *)
Fixpoint replace_char (old new : Ascii.ascii) (s : string) : string :=
  match s with
  | EmptyString => EmptyString
  | String c rest =>
      String (if Ascii.eqb c old then new else c) (replace_char old new rest)
  end.

Definition startswith (prefix s : string) : bool := String.prefix prefix s.

Definition endswith (suffix s : string) : bool :=
  (String.length suffix <=? String.length s)%nat
  && String.eqb (String.substring (String.length s - String.length suffix)
                                  (String.length suffix) s) suffix.

(** The front matter both scripts give to the file named [file]. *)
Definition front_matter (L : PyLib) (file : string) : string :=
  "---" ++ nl ++ "id: " ++ path_stem L file ++ nl
  ++ "title: " ++ str_title L (replace_char hyphen space (path_stem L file)) ++ nl
  ++ "---" ++ nl ++ nl.

(** The value of [content] once the front matter has been added where
    it was missing (process_files.py, lines 36-43). *)
Definition with_front_matter (L : PyLib) (file content : string) : string :=
  if startswith "---" content then content else front_matter L file ++ content.

(** process_files.py, lines 32-47: the source file is read and the text
    is written to a destination opened with mode ["w"].  The result is
    the bytes of the destination; [None] when the step raises, which
    stops the script. *)
Definition process_file (L : PyLib) (file src : string) : option string :=
  match read_text L src with
  | None => None
  | Some content => write_text L (with_front_matter L file content)
  end.

(** Writing [new] at the start of a file that holds [old] and is not
    truncated: the bytes of [old] beyond the length of [new] stay. *)
Definition overwrite (new old : string) : string :=
  new ++ String.substring (String.length new) (String.length old - String.length new) old.

(** setup_docs.py, lines 82-86: the file is opened with mode ["r+"] and
    read; when the text does not start with [---], the position is set
    back to 0 and the text with its front matter is written over the old
    bytes.  The result is the bytes the file holds afterwards; [None]
    when the step raises, which makes [process_documentation] return
    [False]. *)
Definition setup_process_file (L : PyLib) (file old : string) : option string :=
  match read_text L old with
  | None => None
  | Some content =>
      if startswith "---" content then Some old
      else match write_text L (front_matter L file ++ content) with
           | None => None
           | Some new => Some (overwrite new old)
           end
  end.

(** A file listed in a sidebar: a Markdown file whose name does not start
    with an underscore. *)
Definition listed (file : string) : bool :=
  endswith ".md" file && negb (startswith "_" file).

(** One step of [os.walk]: a directory, its subdirectories, its files. *)
Definition walked := (string * list string * list string)%type.

(** *** process_files.py: [generate_sidebar] *)

(** [sidebar[category] = items] on a dict kept in insertion order. *)
Fixpoint dict_set (key : string) (v : list string) (d : list (string * list string))
  : list (string * list string) :=
  match d with
  | [] => [(key, v)]
  | (k, w) :: rest =>
      if String.eqb k key then (k, v) :: rest else (k, w) :: dict_set key v rest
  end.

Fixpoint dict_lookup (key : string) (d : list (string * list string))
  : option (list string) :=
  match d with
  | [] => None
  | (k, w) :: rest => if String.eqb k key then Some w else dict_lookup key rest
  end.

Definition category (L : PyLib) (docs_dir root : string) : string :=
  if String.eqb root docs_dir then "Documentation"
  else str_title L (replace_sep L (relpath L root docs_dir) " / ").

Definition items (L : PyLib) (docs_dir : string) (w : walked) : list string :=
  map (doc_id L docs_dir w.1.1) (List.filter listed w.2).

(** The loop over [os.walk(docs_dir)]. *)
Fixpoint collect (L : PyLib) (docs_dir : string) (walk : list walked)
    (sidebar : list (string * list string)) : list (string * list string) :=
  match walk with
  | [] => sidebar
  | w :: rest =>
      match items L docs_dir w with
      | [] => collect L docs_dir rest sidebar
      | its => collect L docs_dir rest (dict_set (category L docs_dir w.1.1) its sidebar)
      end
  end.

Definition quote : string := String (Ascii.ascii_of_nat 34) EmptyString.

Definition quoted (s : string) : string := quote ++ s ++ quote.

(** The text written to the sidebar file. *)
Definition sidebar_text (sidebar : list (string * list string)) : string :=
  "module.exports = {" ++ nl ++ "  docsSidebar: {" ++ nl
  ++ String.concat ""
       (map (fun entry =>
               "    " ++ quoted entry.1 ++ ": [" ++ nl
               ++ String.concat ""
                    (map (fun item => "      " ++ quoted item ++ "," ++ nl) entry.2)
               ++ "    ]," ++ nl) sidebar)
  ++ "  }," ++ nl ++ "};" ++ nl.

Definition generate_sidebar (L : PyLib) (docs_dir : string) (walk : list walked) : string :=
  sidebar_text (collect L docs_dir walk []).

(** *** setup_docs.py: [generate_sidebar] *)

Inductive sidebar_exn :=
| PyExn (e : exn)
| AttributeError (v : pyval)
| WriteError (msg : string).

Definition entry (label : string) (its : list string) : pyval :=
  PDict [("type", PStr "category"); ("label", PStr label);
         ("items", PList (map PStr its))].

Fixpoint pydict_set (key : string) (v : pyval) (kv : list (string * pyval))
  : list (string * pyval) :=
  match kv with
  | [] => [(key, v)]
  | (k, w) :: rest =>
      if String.eqb k key then (k, v) :: rest else (k, w) :: pydict_set key v rest
  end.

(** [sidebar["tutorialSideBar"].append(e)] *)
Definition append_entry (sidebar : list (string * pyval)) (e : pyval)
  : list (string * pyval) + sidebar_exn :=
  match subscript (PDict sidebar) "tutorialSideBar" with
  | Raise err => inr (PyExn err)
  | Ok (PList l) => inl (pydict_set "tutorialSideBar" (PList (l ++ [e])) sidebar)
  | Ok v => inr (AttributeError v)
  end.

Definition setup_category (L : PyLib) (current_dir : string) : string :=
  if String.eqb current_dir "." then "Getting Started"
  else str_title L (replace_char hyphen space current_dir).

Definition setup_items (L : PyLib) (docs_dir : string) (w : walked) : list string :=
  map (join_id L (relpath L w.1.1 docs_dir)) (List.filter listed (sorted L w.2)).

Fixpoint setup_collect (L : PyLib) (docs_dir : string) (walk : list walked)
    (sidebar : list (string * pyval)) : list (string * pyval) + sidebar_exn :=
  match walk with
  | [] => inl sidebar
  | w :: rest =>
      match setup_items L docs_dir w with
      | [] => setup_collect L docs_dir rest sidebar
      | its =>
          match append_entry sidebar
                  (entry (setup_category L (relpath L w.1.1 docs_dir)) its) with
          | inl sidebar' => setup_collect L docs_dir rest sidebar'
          | inr err => inr err
          end
      end
  end.

(** The function returns [True] or [False]; the second component is the
    text written to [sidebars.js], if the file was written.  [write]
    tells whether writing that text fails. *)
Definition setup_generate_sidebar (L : PyLib) (docs_dir : string) (walk : list walked)
    (write : string -> option string) : bool * option string :=
  match setup_collect L docs_dir walk [("docsSidebar", PList [])] with
  | inr _ => (false, None)
  | inl sidebar =>
      let text := "module.exports = " ++ json_dump L (PDict sidebar) ++ ";" ++ nl in
      match write text with
      | Some _ => (false, None)
      | None => (true, Some text)
      end
  end.

(** Title case for ASCII letters: the first letter of every run of
    letters in upper case, the others in lower case. *)
Definition lower_char (c : Ascii.ascii) : Ascii.ascii :=
  let n := Ascii.nat_of_ascii c in
  if (65 <=? n)%nat && (n <=? 90)%nat then Ascii.ascii_of_nat (n + 32) else c.

Fixpoint title_from (in_word : bool) (s : string) : string :=
  match s with
  | EmptyString => EmptyString
  | String c rest =>
      let n := Ascii.nat_of_ascii c in
      if ((97 <=? n)%nat && (n <=? 122)%nat) || ((65 <=? n)%nat && (n <=? 90)%nat)
      then String (if in_word then lower_char c else upper_char c) (title_from true rest)
      else String c (title_from false rest)
  end.

(** Universal newlines: a carriage return, with the line feed that may
    follow it, is read as a line feed. *)
Fixpoint universal_newlines (s : string) : string :=
  match s with
  | EmptyString => EmptyString
  | String c rest =>
      if Ascii.eqb c (Ascii.ascii_of_nat 13) then
        match rest with
        | String c' rest' =>
            if Ascii.eqb c' (Ascii.ascii_of_nat 10)
            then String c' (universal_newlines rest')
            else String (Ascii.ascii_of_nat 10) (universal_newlines rest)
        | EmptyString => String (Ascii.ascii_of_nat 10) EmptyString
        end
      else String c (universal_newlines rest)
  end.

Fixpoint repeat_string (n : nat) (s : string) : string :=
  match n with
  | O => EmptyString
  | S n' => s ++ repeat_string n' s
  end.

(** A library for the examples, for ASCII texts on a platform whose line
    ending is the line feed, ASCII names that end in [.md] and
    directories below [docs_dir]. *)
Definition sample_lib : PyLib :=
  {| read_text := fun bytes => Some (universal_newlines bytes);
     write_text := fun text => Some text;
     path_stem := fun file => String.substring 0 (String.length file - 3) file;
     str_title := title_from false;
     relpath := fun path start =>
       String.substring (S (String.length start))
                        (String.length path - S (String.length start)) path;
     json_dump := fun _ => "{}";
     doc_id := fun docs_dir root file =>
       String.substring 0 (String.length file - 3) file;
     join_id := fun current_dir file =>
       String.substring 0 (String.length file - 3) file;
     replace_sep := fun s _ => s;
     sorted := fun l => l;
     sorted_perm := fun l => reflexivity l |}.

End Docs.

(** ** Vocabulary of the statements *)

(** The dict returned by [process] has one of two shapes. *)
Inductive reply_shape : pyval -> Prop :=
| shape_success r : reply_shape (success_dict r)
| shape_failure msg : reply_shape (failure_dict msg).

(** The task that stands at every position holding its agent type once
    [current_task] has been dispatched and [res] came back. *)
Definition replace_by (current_task done_task : AgentTask) (ts : list AgentTask) :=
  map (fun task => if bool_decide (agent_type task ≠ agent_type current_task)
                   then task else done_task) ts.

Definition dispatched (W : World) (t : AgentTask) (h : history) : pyval * history :=
  FrameworkManagerAgent.process_with_agent W (agent_type t) (query t) h.

(** What the node makes of the current task, by the shape of the reply. *)
Definition done_task (t : AgentTask) (res : pyval) : AgentTask :=
  match subscript res "success" with
  | Ok ok =>
      if truthy ok
      then match subscript res "result" with Ok r => mark_completed t r | _ => t end
      else match subscript res "error" with Ok e => mark_failed t e | _ => t end
  | _ => t
  end.

(** A task that has left PENDING for good. *)
Definition terminal (t : AgentTask) : Prop :=
  status t = COMPLETED \/ status t = FAILED.

Definition pending_count (s : ManagerState) : nat :=
  length (List.filter is_pending (tasks s)).

(** The request that dispatches a task. *)
Definition request_of (t : AgentTask) : call :=
  HttpPost (api_endpoint (FrameworkManagerAgent.framework_agents (agent_type t)))
           (query t).

(** Executions of the graph: a step is one superstep that does not raise;
    a run starts at the entry point with the state built by
    [run_framework_manager]. *)
Definition step (W : World) (c c' : config) : Prop := graph_step W c = Ok c'.

Definition reachable (W : World) (q : string) (h0 : history) (c : config) : Prop :=
  rtc (step W) (start q h0) c.

(** What holds of each task record of a run on query [q] after the calls [h]. *)
Definition task_ok (q : string) (h : history) (t : AgentTask) : Prop :=
  query t = q /\
  match status t with
  | PENDING => response t = PNone /\ error t = PNone
  | IN_PROGRESS => False
  | COMPLETED => error t = PNone /\ request_of t ∈ h
  | FAILED => response t = PNone /\ (exists msg, error t = PStr msg) /\ request_of t ∈ h
  end.

Record Inv (q : string) (c : config) : Prop := {
  inv_query : original_query (state_of c) = q;
  inv_nodup : NoDup (map agent_type (tasks (state_of c)));
  inv_tasks : Forall (task_ok q (calls c)) (tasks (state_of c));
  inv_output : at_node c ≠ END -> final_output (state_of c) = "";
  inv_entry : at_node c = Initialize -> tasks (state_of c) = [];
  inv_current :
    at_node c = ProcessWithAgent ->
    exists t, List.find is_pending (tasks (state_of c)) = Some t /\
              current_agent (state_of c) = Some (agent_type t);
  inv_attempted :
    at_node c = Finalize \/ at_node c = END ->
    Forall (fun t => status t ≠ PENDING) (tasks (state_of c))
}.

(** The verdict item selects the value [a]: its [needed] entry is true
    and [a] is its [agent_type] entry. *)
Definition selects (item a : pyval) : Prop :=
  exists n, subscript item "needed" = Ok n /\ truthy n = true /\
            subscript item "agent_type" = Ok a.

(** A verdict that follows the schema [RequiredAgent]. *)
Definition verdict_dict (v : AgentType * bool * string) : pyval :=
  PDict [("agent_type", enum_member v.1.1); ("needed", PBool v.1.2);
         ("reason", PStr v.2)].

(** A set built by [set_add] has no element twice and only hashable ones. *)
Definition set_wf (s : pyset) : Prop :=
  NoDup s /\ Forall (fun x => hashable x = true) s.

(** The configuration [n] supersteps after [c], stopping early where a
    superstep raises. *)
Fixpoint steps_from (W : World) (n : nat) (c : config) : config :=
  match n with
  | O => c
  | S n' =>
      match graph_step W c with
      | Ok c' => steps_from W n' c'
      | Raise _ => c
      end
  end.

(** Two tasks that agree on what a COMPLETED task contributes to the
    prompt: agent type, status and, when COMPLETED, response. *)
Definition same_completed (t t' : AgentTask) : Prop :=
  agent_type t = agent_type t' /\ status t = status t' /\
  (status t = COMPLETED -> response t = response t').

(** The verdict item counts as needed: its [needed] entry is there and
    is true. *)
Definition is_needed (item : pyval) : bool :=
  match subscript item "needed" with
  | Ok n => truthy n
  | Raise _ => false
  end.

(** The value is the name of an agent type, so the task model accepts it. *)
Definition agent_name (v : pyval) : Prop := exists a, v = enum_member a.

(** The aggregation call of a finished run, if it made one. *)
Definition aggregation_calls (W : World) (c : config) : list call :=
  match at_node c with
  | END =>
      match List.filter FrameworkManagerAgent.is_completed (tasks (state_of c)) with
      | [] => []
      | cs => [AggregatorInvoke (original_query (state_of c))
                 (FrameworkManagerAgent.agent_responses W cs)]
      end
  | _ => []
  end.

(** The binary logarithm of the number of copies of the human message held
    at a node once [k] tasks are settled: every node but [finalize]
    returns the messages it was given, which the graph adds to them. *)
Definition doublings (n : node) (k : nat) : nat :=
  match n with
  | Initialize => 0
  | SelectNextAgent => 1 + 2 * k
  | ProcessWithAgent | Finalize | END => 2 + 2 * k
  end.

(** The message [finalize] appends. *)
Definition closing_message (c : config) : list message :=
  match at_node c with
  | END => [AIMessage ("Query processed. Here's the answer:" ++ nl ++ nl
                       ++ final_output (state_of c))]
  | _ => []
  end.

(** How far a run on query [q], started after the calls [h0], has got:
    the settled tasks come first, their requests were sent in that order
    after the selection call, and nothing else was sent. *)
Record Progress (W : World) (q : string) (h0 : history) (c : config) : Prop := {
  pr_entry : at_node c = Initialize -> c = start q h0;
  pr_required :
    at_node c ≠ Initialize ->
    (FrameworkManagerAgent.determine_required_agents W q h0).1
      = Ok (required_agents (state_of c)) /\
    map (fun t => enum_member (agent_type t)) (tasks (state_of c))
      = set_order W (required_agents (state_of c));
  pr_current :
    at_node c = Finalize \/ at_node c = END -> current_agent (state_of c) = None;
  pr_trace :
    at_node c ≠ Initialize ->
    exists settled todo,
      tasks (state_of c) = (settled ++ todo)%list /\
      Forall terminal settled /\ Forall (fun t => status t = PENDING) todo /\
      calls c = (aggregation_calls W c ++ rev (map request_of settled)
                 ++ SelectorInvoke q :: h0)%list /\
      messages (state_of c)
        = (replicate (2 ^ doublings (at_node c) (length settled)) (HumanMessage q)
           ++ closing_message c)%list
}.

(** * Properties *)

Ltac unfold_bind := unfold mbind, result_bind, mret, result_ret in *.

(** ** The sample run *)

(** The calls of the sample run, most recent first: one selection, one
    request per required agent, one aggregation. *)
Example sample_run_calls :
  calls (steps_from Sample.W 7 (start "q" []))
  = [AggregatorInvoke "q" ("ELIZAOS AGENT:" ++ nl ++ "use pattern matching for q");
     HttpPost GOOSE_API_ENDPOINT "q";
     HttpPost ELIZAOS_API_ENDPOINT "q";
     SelectorInvoke "q"].
Proof. vm_compute. reflexivity. Qed.

Example sample_run_tasks :
  tasks (state_of (steps_from Sample.W 7 (start "q" [])))
  = [{| agent_type := ELIZAOS; query := "q"; status := COMPLETED;
        response := PStr "use pattern matching for q"; error := PNone |};
     {| agent_type := GOOSE; query := "q"; status := FAILED;
        response := PNone; error := PStr "Error for url" |}].
Proof. vm_compute. reflexivity. Qed.

Example sample_run_output :
  (c ← run_framework_manager Sample.W "q" []; Ok (at_node c, final_output (state_of c)))
  = Ok (END, "In short: ELIZAOS AGENT:" ++ nl ++ "use pattern matching for q").
Proof. vm_compute. reflexivity. Qed.

(** A selection that names an unknown agent makes [initialize] raise. *)
Example unknown_agent_raises :
  get_items (Sample.world Sample.post
               (fun _ => Ok (PDict [("agents", PList [Sample.verdict "ElizaOS" true])]))
               Sample.agg) "q" []
  = Raise (ValidationError (PStr "ElizaOS")).
Proof. vm_compute. reflexivity. Qed.

(** ** Dispatch to one agent *)

Section Dispatch.
Context (W : World).

Lemma raise_for_status_Ok r :
  raise_for_status r = Ok tt <-> ~ (400 <= status_code r < 600)%Z.
Proof.
  unfold raise_for_status.
  destruct (400 <=? status_code r)%Z eqn:Hlo, (status_code r <? 600)%Z eqn:Hhi;
    simpl; split; intros H; try discriminate; try reflexivity; lia.
Qed.

Lemma raise_for_status_Raise r :
  (400 <= status_code r < 600)%Z ->
  raise_for_status r = Raise (HTTPError (status_code r)).
Proof.
  intros [Hlo Hhi]. unfold raise_for_status.
  apply Z.leb_le in Hlo. apply Z.ltb_lt in Hhi. by rewrite Hlo, Hhi.
Qed.

Lemma attempt_Ok_inv h d :
  BaseAgent.attempt W h = Ok d ->
  exists resp body r,
    requests_post W h = Ok resp /\ ~ (400 <= status_code resp < 600)%Z /\
    json resp = Ok body /\ subscript body "result" = Ok r /\ d = success_dict r.
Proof.
  unfold BaseAgent.attempt. unfold_bind.
  destruct (requests_post W h) as [resp|] eqn:Hpost; [|discriminate].
  destruct (raise_for_status resp) as [[]|] eqn:Hst; [|discriminate].
  destruct (json resp) as [body|] eqn:Hjson; [|discriminate].
  destruct (subscript body "result") as [r|] eqn:Hres; [|discriminate].
  intros [= <-]. exists resp, body, r.
  by rewrite <- raise_for_status_Ok.
Qed.

Lemma attempt_success h resp body r :
  requests_post W h = Ok resp -> ~ (400 <= status_code resp < 600)%Z ->
  json resp = Ok body -> subscript body "result" = Ok r ->
  BaseAgent.attempt W h = Ok (success_dict r).
Proof.
  intros Hpost Hst Hjson Hres. unfold BaseAgent.attempt. unfold_bind.
  apply raise_for_status_Ok in Hst. by rewrite Hpost, Hst, Hjson, Hres.
Qed.

Lemma attempt_http_error h resp :
  requests_post W h = Ok resp -> (400 <= status_code resp < 600)%Z ->
  BaseAgent.attempt W h = Raise (HTTPError (status_code resp)).
Proof.
  intros Hpost Hst. unfold BaseAgent.attempt. unfold_bind.
  by rewrite Hpost, (raise_for_status_Raise _ Hst).
Qed.

Lemma process_shape self q h : reply_shape (BaseAgent.process W self q h).1.
Proof.
  unfold BaseAgent.process. simpl.
  destruct (BaseAgent.attempt W _) as [d|e] eqn:Ha.
  - apply attempt_Ok_inv in Ha as (? & ? & r & _ & _ & _ & _ & ->). constructor.
  - constructor.
Qed.

Lemma node_process_success state h a t r :
  current_agent state = Some a ->
  List.find (fun task => bool_decide (agent_type task = a)) (tasks state) = Some t ->
  (dispatched W t h).1 = success_dict r ->
  Node.process_with_agent W state h =
    (Ok (with_tasks (replace_by t (mark_completed t r) (tasks state)) (spread state)),
     (dispatched W t h).2).
Proof.
  intros Hcur Hfind Hres. unfold Node.process_with_agent. rewrite Hcur, Hfind.
  unfold dispatched in *.
  destruct (FrameworkManagerAgent.process_with_agent W _ _ h) as [res h'].
  simpl in Hres. subst res. reflexivity.
Qed.

Lemma node_process_failure state h a t msg :
  current_agent state = Some a ->
  List.find (fun task => bool_decide (agent_type task = a)) (tasks state) = Some t ->
  (dispatched W t h).1 = failure_dict msg ->
  Node.process_with_agent W state h =
    (Ok (with_tasks (replace_by t (mark_failed t (PStr msg)) (tasks state)) (spread state)),
     (dispatched W t h).2).
Proof.
  intros Hcur Hfind Hres. unfold Node.process_with_agent. rewrite Hcur, Hfind.
  unfold dispatched in *.
  destruct (FrameworkManagerAgent.process_with_agent W _ _ h) as [res h'].
  simpl in Hres. subst res. reflexivity.
Qed.

Lemma done_task_terminal t res :
  reply_shape res ->
  (exists r, res = success_dict r /\ done_task t res = mark_completed t r) \/
  (exists msg, res = failure_dict msg /\ done_task t res = mark_failed t (PStr msg)).
Proof. intros []; [left|right]; eauto. Qed.

Lemma node_process_with_agent state h a t :
  current_agent state = Some a ->
  List.find (fun task => bool_decide (agent_type task = a)) (tasks state) = Some t ->
  Node.process_with_agent W state h =
    (Ok (with_tasks (replace_by t (done_task t (dispatched W t h).1) (tasks state))
           (spread state)),
     HttpPost (api_endpoint (FrameworkManagerAgent.framework_agents (agent_type t)))
       (query t) :: h).
Proof.
  intros Hcur Hfind.
  change (HttpPost _ _ :: h) with (dispatched W t h).2.
  assert (Hs : reply_shape (dispatched W t h).1) by apply process_shape.
  destruct (done_task_terminal t _ Hs) as [(r & Hres & ->)|(msg & Hres & ->)].
  - by apply node_process_success with a.
  - by apply node_process_failure with a.
Qed.

End Dispatch.

(** C1, as the specification words it: a reply outside the 2xx range
    makes [process] return a failure dict.  False: the HTTP client raises
    for the 4xx and 5xx codes only, and a 300 reply with a JSON body
    holding [result] is returned as a success. *)
Lemma non_2xx_reply_taken_as_success :
  ~ (forall (W : World) (self : BaseAgent) (q : string) (h : history) (resp : Response),
       requests_post W (HttpPost (api_endpoint self) q :: h) = Ok resp ->
       ~ (200 <= status_code resp < 300)%Z ->
       exists msg, (BaseAgent.process W self q h).1 = failure_dict msg).
Proof.
  intros H.
  destruct (H Sample.W300 ElizaOSAgent "q" []
              {| status_code := 300;
                 json := Ok (PDict [("result", PStr "see the choices")]) |})
    as [msg Hmsg].
  - reflexivity.
  - simpl. lia.
  - vm_compute in Hmsg. discriminate.
Qed.

(** C1, amended.  [process] always returns one of the two dicts and never
    raises.  It returns [{"success": True, "result": r}] when the reply's
    status is not a 4xx or 5xx code (so for every 2xx reply) and its JSON
    body is a dict holding [r] under [result]; it returns
    [{"success": False, "error": str(e)}] on a 4xx or 5xx reply and on
    every exception [e] of the request, of the decoding or of the lookup.
    The node then puts the current task, with status COMPLETED and the
    result as response, or with status FAILED and the message as error, at
    the positions of its agent type, and returns without raising. *)
Theorem dispatch_outcome (W : World) :
  (forall (self : BaseAgent) (q : string) (h : history),
      reply_shape (BaseAgent.process W self q h).1 /\
      (forall resp body r,
          requests_post W (HttpPost (api_endpoint self) q :: h) = Ok resp ->
          ~ (400 <= status_code resp < 600)%Z ->
          json resp = Ok body -> subscript body "result" = Ok r ->
          (BaseAgent.process W self q h).1 = success_dict r) /\
      (forall resp,
          requests_post W (HttpPost (api_endpoint self) q :: h) = Ok resp ->
          (400 <= status_code resp < 600)%Z ->
          (BaseAgent.process W self q h).1 =
            failure_dict (py_str_exn W (HTTPError (status_code resp)))) /\
      (forall e,
          BaseAgent.attempt W (HttpPost (api_endpoint self) q :: h) = Raise e ->
          (BaseAgent.process W self q h).1 = failure_dict (py_str_exn W e))) /\
  (forall (state : ManagerState) (h : history) (a : AgentType) (t : AgentTask),
      current_agent state = Some a ->
      List.find (fun task => bool_decide (agent_type task = a)) (tasks state) = Some t ->
      exists u,
        Node.process_with_agent W state h = (Ok u, (dispatched W t h).2) /\
        (forall r, (dispatched W t h).1 = success_dict r ->
           status (mark_completed t r) = COMPLETED /\
           response (mark_completed t r) = r /\
           upd_tasks u = Some (replace_by t (mark_completed t r) (tasks state))) /\
        (forall msg, (dispatched W t h).1 = failure_dict msg ->
           status (mark_failed t (PStr msg)) = FAILED /\
           error (mark_failed t (PStr msg)) = PStr msg /\
           upd_tasks u = Some (replace_by t (mark_failed t (PStr msg)) (tasks state)))).
Proof.
  split.
  - intros self q h. split; [apply process_shape|]. split; [|split].
    + intros resp body r Hpost Hst Hjson Hres. unfold BaseAgent.process. simpl.
      by rewrite (attempt_success W _ resp body r).
    + intros resp Hpost Hst. unfold BaseAgent.process. simpl.
      by rewrite (attempt_http_error W _ resp).
    + intros e He. unfold BaseAgent.process. simpl. by rewrite He.
  - intros state h a t Hcur Hfind. eexists. split.
    + rewrite (node_process_with_agent W state h a t Hcur Hfind). reflexivity.
    + simpl. split.
      * intros r Hr. rewrite Hr. done.
      * intros msg Hmsg. rewrite Hmsg. done.
Qed.

Lemma dispatch_outcome_witness :
  (BaseAgent.process Sample.W ElizaOSAgent "q" []).1
    = success_dict (PStr "use pattern matching for q") /\
  (BaseAgent.process Sample.W GooseAgent "q" []).1 = failure_dict "Error for url" /\
  (BaseAgent.process Sample.Wdown TronAgent "q" []).1 = failure_dict "Connection refused" /\
  exists u,
    Node.process_with_agent Sample.W
      {| original_query := "q";
         tasks := [{| agent_type := GOOSE; query := "q"; status := PENDING;
                      response := PNone; error := PNone |}];
         required_agents := [PStr "goose"];
         current_agent := Some GOOSE;
         messages := [];
         final_output := "" |} []
    = (Ok u, [HttpPost GOOSE_API_ENDPOINT "q"]) /\
    upd_tasks u = Some [{| agent_type := GOOSE; query := "q"; status := FAILED;
                           response := PNone; error := PStr "Error for url" |}].
Proof.
  split; [|split; [|split]].
  - apply (proj1 (proj2 (proj1 (dispatch_outcome Sample.W) ElizaOSAgent "q" [])))
      with (resp := {| status_code := 200;
                       json := Ok (PDict [("result", PStr "use pattern matching for q")]) |})
           (body := PDict [("result", PStr "use pattern matching for q")]).
    + reflexivity.
    + simpl. lia.
    + reflexivity.
    + reflexivity.
  - apply (proj1 (proj2 (proj2 (proj1 (dispatch_outcome Sample.W) GooseAgent "q" []))))
      with (resp := {| status_code := 503; json := Raise (JSONDecodeError "Expecting value") |}).
    + reflexivity.
    + simpl. lia.
  - apply (proj2 (proj2 (proj2 (proj1 (dispatch_outcome Sample.Wdown) TronAgent "q" []))))
      with (e := RequestException "Connection refused").
    reflexivity.
  - destruct (proj2 (dispatch_outcome Sample.W)
                {| original_query := "q";
                   tasks := [{| agent_type := GOOSE; query := "q"; status := PENDING;
                                response := PNone; error := PNone |}];
                   required_agents := [PStr "goose"];
                   current_agent := Some GOOSE;
                   messages := [];
                   final_output := "" |} [] GOOSE
                {| agent_type := GOOSE; query := "q"; status := PENDING;
                   response := PNone; error := PNone |} eq_refl eq_refl)
      as (u & Hrun & _ & Hfail).
    exists u. split; [exact Hrun|].
    exact (proj2 (proj2 (Hfail "Error for url" eq_refl))).
Defined.

(** ** Lists of tasks *)

Section TaskLists.
Implicit Types (t : AgentTask) (ts : list AgentTask).

Lemma find_Some_elem {A} (f : A -> bool) (l : list A) x :
  List.find f l = Some x -> x ∈ l /\ f x = true.
Proof.
  induction l as [|y l IH]; simpl; [discriminate|].
  destruct (f y) eqn:Hy.
  - intros [= ->]. split; [left|done].
  - intros H. destruct (IH H). split; [by right|done].
Qed.

Lemma find_None_forallb {A} (f : A -> bool) (l : list A) :
  List.find f l = None <-> forallb (fun x => negb (f x)) l = true.
Proof.
  induction l as [|y l IH]; simpl; [done|].
  destruct (f y); simpl; [split; discriminate|done].
Qed.

Lemma find_agent_type_unique ts t :
  NoDup (map agent_type ts) -> t ∈ ts ->
  List.find (fun task => bool_decide (agent_type task = agent_type t)) ts = Some t.
Proof.
  induction ts as [|x ts IH]; simpl; intros Hnd Hin.
  - by apply elem_of_nil in Hin.
  - apply NoDup_cons in Hnd as [Hx Hnd].
    apply elem_of_cons in Hin as [->|Hin].
    + by rewrite bool_decide_eq_true_2.
    + rewrite bool_decide_eq_false_2; [by apply IH|].
      intros Heq. apply Hx. rewrite Heq. by apply (list_elem_of_fmap_2 agent_type).
Qed.

Lemma find_agent_type_of_pending ts t :
  List.find is_pending ts = Some t ->
  exists t', List.find (fun task => bool_decide (agent_type task = agent_type t)) ts = Some t'
             /\ agent_type t' = agent_type t.
Proof.
  intros [Hin _]%find_Some_elem.
  induction ts as [|x ts IH]; simpl.
  - by apply elem_of_nil in Hin.
  - destruct (bool_decide (agent_type x = agent_type t)) eqn:Hx.
    + apply bool_decide_eq_true in Hx. eauto.
    + apply elem_of_cons in Hin as [->|Hin]; [|by apply IH].
      by rewrite bool_decide_eq_true_2 in Hx.
Qed.

Lemma replace_by_agent_types t d ts :
  agent_type d = agent_type t ->
  map agent_type (replace_by t d ts) = map agent_type ts.
Proof.
  intros Hd. unfold replace_by. induction ts as [|x ts IH]; simpl; [done|].
  rewrite IH. f_equal. case_bool_decide as Hx; [done|].
  rewrite Hd. symmetry. by destruct (decide (agent_type x = agent_type t)).
Qed.

Lemma replace_by_lookup t d ts i x :
  ts !! i = Some x ->
  replace_by t d ts !! i = Some (if bool_decide (agent_type x ≠ agent_type t) then x else d).
Proof.
  intros Hx. unfold replace_by.
  change (map ?f ts) with (f <$> ts). by rewrite list_lookup_fmap, Hx.
Qed.

Lemma agent_type_unique ts t p :
  NoDup (map agent_type ts) -> t ∈ ts -> p ∈ ts ->
  agent_type t = agent_type p -> t = p.
Proof.
  intros Hnd [i Hi]%list_elem_of_lookup [j Hj]%list_elem_of_lookup Heq.
  assert (i = j) as ->; [|congruence].
  eapply NoDup_lookup; [exact Hnd| |];
    change (map agent_type ts) with (agent_type <$> ts); rewrite list_lookup_fmap.
  - by rewrite Hi.
  - by rewrite Hj, Heq.
Qed.

(** Where agent types are distinct, only the current task is replaced. *)
Lemma replace_by_lookup_other t d ts i x :
  NoDup (map agent_type ts) -> t ∈ ts -> ts !! i = Some x -> x ≠ t ->
  replace_by t d ts !! i = Some x.
Proof.
  intros Hnd Ht Hx Hne. rewrite (replace_by_lookup _ _ _ _ _ Hx).
  rewrite bool_decide_eq_true_2; [done|].
  intros Heq. apply Hne.
  apply list_elem_of_lookup in Ht as [j Hj].
  assert (i = j) as ->; [|congruence].
  eapply NoDup_lookup; [exact Hnd| |].
  - change (map agent_type ts) with (agent_type <$> ts).
    by rewrite list_lookup_fmap, Hx.
  - change (map agent_type ts) with (agent_type <$> ts).
    by rewrite list_lookup_fmap, Hj, Heq.
Qed.

(** The pending tasks left once a pending task's agent type has been
    dispatched are strictly fewer. *)
Lemma replace_by_pending_le t d ts :
  is_pending d = false ->
  length (List.filter is_pending (replace_by t d ts)) <= length (List.filter is_pending ts).
Proof.
  intros Hd. unfold replace_by. induction ts as [|x ts IH]; simpl; [done|].
  case_bool_decide.
  - destruct (is_pending x); simpl; lia.
  - rewrite Hd. destruct (is_pending x); simpl; lia.
Qed.

Lemma replace_by_pending_lt t d ts p :
  is_pending d = false -> p ∈ ts -> is_pending p = true ->
  agent_type p = agent_type t ->
  length (List.filter is_pending (replace_by t d ts)) < length (List.filter is_pending ts).
Proof.
  intros Hd Hin Hp Hty. induction ts as [|x ts IH]; simpl.
  - by apply elem_of_nil in Hin.
  - apply elem_of_cons in Hin as [<-|Hin].
    + rewrite bool_decide_eq_false_2 by (intros Hne; by apply Hne).
      rewrite Hd, Hp. simpl.
      pose proof (replace_by_pending_le t d ts Hd). unfold replace_by in *. lia.
    + specialize (IH Hin). unfold replace_by in *.
      case_bool_decide.
      * destruct (is_pending x); simpl; lia.
      * rewrite Hd. destruct (is_pending x); simpl; lia.
Qed.

Lemma filter_filter_id {A} (f : A -> bool) (l : list A) :
  List.filter f (List.filter f l) = List.filter f l.
Proof.
  induction l as [|x l IH]; simpl; [done|].
  destruct (f x) eqn:Hx; simpl; [|done]. by rewrite Hx, IH.
Qed.

Lemma filter_nil_forall {A} (f : A -> bool) (l : list A) :
  List.filter f l = [] <-> Forall (fun x => f x = false) l.
Proof.
  induction l as [|x l IH]; simpl.
  - split; [constructor|done].
  - destruct (f x) eqn:Hx.
    + split; [discriminate|]. intros [Hx' _]%Forall_cons. congruence.
    + rewrite IH. split; [by constructor|]. by intros [_ ?]%Forall_cons.
Qed.

End TaskLists.

(** ** Selection of the agents *)

Section Selection.

Lemma py_eqb_refl x : hashable x = true -> py_eqb x x = true.
Proof.
  destruct x as [|b|n|s| |]; simpl; try done.
  - intros _. by destruct b.
  - intros _. apply Z.eqb_refl.
  - intros _. apply String.eqb_refl.
Qed.

Lemma py_eqb_trans x y z :
  py_eqb x y = true -> py_eqb y z = true -> py_eqb x z = true.
Proof.
  destruct x as [|b1|n1|s1| |], y as [|b2|n2|s2| |], z as [|b3|n3|s3| |];
    simpl; try done;
    rewrite ?Z.eqb_eq, ?String.eqb_eq;
    try (destruct b1; destruct b2; simpl; (done || lia));
    try (destruct b1; destruct b3; simpl; intros; (done || lia));
    try (destruct b2; destruct b3; simpl; intros; (done || lia));
    try (destruct b1; simpl; intros; (done || lia));
    try (destruct b2; simpl; intros; (done || lia));
    try (destruct b3; simpl; intros; (done || lia));
    try congruence.
Qed.

Lemma py_eqb_PStr s x : py_eqb x (PStr s) = true <-> x = PStr s.
Proof.
  destruct x; simpl; try (split; discriminate).
  rewrite String.eqb_eq. split; congruence.
Qed.

Lemma set_mem_spec x s :
  set_mem x s = true <-> exists y, y ∈ s /\ py_eqb x y = true.
Proof.
  unfold set_mem. rewrite existsb_exists.
  split; intros (y & Hy & ?); exists y; split; try done; by apply list_elem_of_In.
Qed.

Lemma set_mem_elem x s : hashable x = true -> x ∈ s -> set_mem x s = true.
Proof. intros Hx Hin. apply set_mem_spec. exists x. eauto using py_eqb_refl. Qed.

Lemma set_add_wf x s s' : set_add x s = Ok s' -> set_wf s -> set_wf s'.
Proof.
  unfold set_add. destruct (hashable x) eqn:Hx; [|discriminate].
  destruct (set_mem x s) eqn:Hmem; intros [= <-] [Hnd Hh]; [done|].
  split.
  - apply NoDup_app. split; [done|]. split; [|apply NoDup_singleton].
    intros y Hy ->%list_elem_of_singleton.
    by rewrite (set_mem_elem _ _ Hx Hy) in Hmem.
  - apply Forall_app. split; [done|]. by constructor.
Qed.

Lemma set_add_mem x s s' y :
  set_add x s = Ok s' ->
  set_mem y s' = true <-> set_mem y s = true \/ py_eqb y x = true.
Proof.
  unfold set_add. destruct (hashable x); [|discriminate].
  destruct (set_mem x s) eqn:Hmem; intros [= <-].
  - split; [by left|]. intros [?|Hyx]; [done|].
    apply set_mem_spec in Hmem as (z & Hz & Hxz).
    apply set_mem_spec. exists z. eauto using py_eqb_trans.
  - unfold set_mem. rewrite existsb_app. simpl.
    rewrite orb_false_r, orb_true_iff. done.
Qed.

Lemma needed_agents_wf items acc out :
  FrameworkManagerAgent.needed_agents items acc = Ok out -> set_wf acc -> set_wf out.
Proof.
  revert acc. induction items as [|item items IH]; simpl; intros acc.
  - by intros [= <-].
  - unfold_bind.
    destruct (subscript item "needed") as [n|]; [|discriminate].
    destruct (truthy n); [|by apply IH].
    destruct (subscript item "agent_type") as [a|]; [|discriminate].
    destruct (set_add a acc) as [acc'|] eqn:Hadd; [|discriminate].
    intros Hout Hacc. apply (IH _ Hout). by apply (set_add_wf _ _ _ Hadd).
Qed.

Lemma needed_agents_mem items acc out x :
  FrameworkManagerAgent.needed_agents items acc = Ok out ->
  set_mem x out = true <->
  set_mem x acc = true \/
  exists item a, item ∈ items /\ selects item a /\ py_eqb x a = true.
Proof.
  revert acc. induction items as [|item items IH]; simpl; intros acc.
  - intros [= <-]. split; [by left|].
    intros [?|(item & a & Hin & _)]; [done|]. by apply elem_of_nil in Hin.
  - unfold_bind.
    destruct (subscript item "needed") as [n|] eqn:Hn; [|discriminate].
    destruct (truthy n) eqn:Ht.
    + destruct (subscript item "agent_type") as [a|] eqn:Ha; [|discriminate].
      destruct (set_add a acc) as [acc'|] eqn:Hadd; [|discriminate].
      intros Hout. rewrite (IH _ Hout), (set_add_mem _ _ _ x Hadd).
      split.
      * intros [[?|Hxa]|(item' & a' & Hin & Hsel & Hx)]; [by left| |].
        -- right. exists item, a. split; [left|]. split; [|done]. by exists n.
        -- right. exists item', a'. split; [by right|done].
      * intros [?|(item' & a' & Hin & Hsel & Hx)]; [by left; left|].
        apply elem_of_cons in Hin as [->|Hin].
        -- destruct Hsel as (n' & Hn' & _ & Ha'). left; right. congruence.
        -- right. eauto.
    + intros Hout. rewrite (IH _ Hout). split.
      * intros [?|(item' & a' & Hin & Hsel & Hx)]; [by left|].
        right. exists item', a'. split; [by right|done].
      * intros [?|(item' & a' & Hin & Hsel & Hx)]; [by left|].
        apply elem_of_cons in Hin as [->|Hin]; [|right; eauto].
        destruct Hsel as (n' & Hn' & Ht' & _). congruence.
Qed.

Lemma selection_Ok_inv W h required :
  FrameworkManagerAgent.selection W h = Ok required ->
  exists res agents items,
    selector_invoke W h = Ok res /\ subscript res "agents" = Ok agents /\
    py_iter agents = Ok items /\
    FrameworkManagerAgent.needed_agents items [] = Ok required.
Proof.
  unfold FrameworkManagerAgent.selection. unfold_bind.
  destruct (selector_invoke W h) as [res|]; [|discriminate].
  destruct (subscript res "agents") as [agents|] eqn:Hag; [|discriminate].
  destruct (py_iter agents) as [items|] eqn:Hit; [|discriminate].
  intros H. by exists res, agents, items.
Qed.

Lemma all_agents_wf : set_wf FrameworkManagerAgent.all_agents.
Proof.
  split.
  - unfold FrameworkManagerAgent.all_agents.
    assert (Hnot : forall (x : pyval) l, Forall (fun y => x ≠ y) l -> x ∉ l).
    { intros x l Hl Hx. rewrite Forall_forall in Hl. by apply (Hl x). }
    apply NoDup_cons_2; [by apply Hnot; repeat constructor|].
    apply NoDup_cons_2; [by apply Hnot; repeat constructor|].
    apply NoDup_singleton.
  - by repeat constructor.
Qed.

(** The two ways out of [determine_required_agents]. *)
Lemma determine_required_agents_built W q h :
  chat_deepseek W "deepseek-chat" h = Ok tt ->
  FrameworkManagerAgent.determine_required_agents W q h
  = (Ok match FrameworkManagerAgent.selection W (SelectorInvoke q :: h) with
        | Ok required => required
        | Raise _ => FrameworkManagerAgent.all_agents
        end, SelectorInvoke q :: h).
Proof.
  intros Hbuilt. unfold FrameworkManagerAgent.determine_required_agents.
  by rewrite Hbuilt.
Qed.

Lemma determine_required_agents_unbuilt W q h e :
  chat_deepseek W "deepseek-chat" h = Raise e ->
  FrameworkManagerAgent.determine_required_agents W q h = (Raise e, h).
Proof.
  intros Hraise. unfold FrameworkManagerAgent.determine_required_agents.
  by rewrite Hraise.
Qed.

Lemma determine_required_agents_Ok_inv W q h required :
  (FrameworkManagerAgent.determine_required_agents W q h).1 = Ok required ->
  chat_deepseek W "deepseek-chat" h = Ok tt.
Proof.
  unfold FrameworkManagerAgent.determine_required_agents.
  by destruct (chat_deepseek W "deepseek-chat" h) as [[]|].
Qed.

Lemma determine_required_agents_Raise_inv W q h e :
  (FrameworkManagerAgent.determine_required_agents W q h).1 = Raise e ->
  chat_deepseek W "deepseek-chat" h = Raise e.
Proof.
  unfold FrameworkManagerAgent.determine_required_agents.
  destruct (chat_deepseek W "deepseek-chat" h) as [[]|]; [done|]. by intros [= ->].
Qed.

Lemma determine_required_agents_wf W q h required :
  (FrameworkManagerAgent.determine_required_agents W q h).1 = Ok required ->
  set_wf required.
Proof.
  intros Hreq. pose proof (determine_required_agents_Ok_inv _ _ _ _ Hreq) as Hbuilt.
  rewrite (determine_required_agents_built W q h Hbuilt) in Hreq. simpl in Hreq.
  injection Hreq as <-.
  destruct (FrameworkManagerAgent.selection W _) as [required|] eqn:Hsel.
  - apply selection_Ok_inv in Hsel as (res & agents & items & _ & _ & _ & Hn).
    apply (needed_agents_wf _ _ _ Hn). split; [apply NoDup_nil_2|constructor].
  - apply all_agents_wf.
Qed.

Lemma selects_verdict_dict v a :
  selects (verdict_dict v) a <-> v.1.2 = true /\ a = enum_member v.1.1.
Proof.
  destruct v as [[t b] reason]. unfold selects. simpl. split.
  - intros (n & [= <-] & Hb & [= <-]). done.
  - intros [-> ->]. by exists (PBool true).
Qed.

Lemma needed_agents_verdicts verdicts acc :
  Forall (fun y => exists a, y = enum_member a) acc ->
  exists out,
    FrameworkManagerAgent.needed_agents (map verdict_dict verdicts) acc = Ok out /\
    Forall (fun y => exists a, y = enum_member a) out.
Proof.
  revert acc. induction verdicts as [|[[a b] reason] vs IH]; simpl; intros acc Hacc.
  - eauto.
  - unfold_bind. destruct b; simpl; [|by apply IH].
    apply IH. destruct (set_mem _ acc); [done|].
    apply Forall_app. split; [done|]. constructor; [by exists a|constructor].
Qed.

End Selection.

(** C5.  Once the chat model of the selection chain is built, the
    selection call is made, and when anything in the [try] raises (the
    chain call, the lookup of [agents], the iteration, the lookup of
    [needed] or [agent_type] in an item, the insertion into the set), the
    result is the set of the three agent types.  Otherwise it is the set
    of the [agent_type] entries of the items whose [needed] entry is
    true; for verdicts that follow the schema, these are exactly the
    agent types whose verdict has [needed = true].  (The chat model is
    built before the [try], ahead of the selection call: if its
    constructor raises, no call is made and the exception escapes.) *)
Theorem determine_required_agents_spec (W : World) (q : string) (h : history) :
  chat_deepseek W "deepseek-chat" h = Ok tt ->
  (FrameworkManagerAgent.determine_required_agents W q h).2 = SelectorInvoke q :: h /\
  (forall e,
      FrameworkManagerAgent.selection W (SelectorInvoke q :: h) = Raise e ->
      (FrameworkManagerAgent.determine_required_agents W q h).1
        = Ok [enum_member ELIZAOS; enum_member TRON; enum_member GOOSE]) /\
  (forall e,
      selector_invoke W (SelectorInvoke q :: h) = Raise e ->
      FrameworkManagerAgent.selection W (SelectorInvoke q :: h) = Raise e) /\
  (forall required,
      FrameworkManagerAgent.selection W (SelectorInvoke q :: h) = Ok required ->
      (FrameworkManagerAgent.determine_required_agents W q h).1 = Ok required /\
      exists res agents items,
        selector_invoke W (SelectorInvoke q :: h) = Ok res /\
        subscript res "agents" = Ok agents /\ py_iter agents = Ok items /\
        forall x, set_mem x required = true <->
                  exists item a, item ∈ items /\ selects item a /\ py_eqb x a = true) /\
  (forall verdicts,
      selector_invoke W (SelectorInvoke q :: h)
        = Ok (PDict [("agents", PList (map verdict_dict verdicts))]) ->
      returned (FrameworkManagerAgent.selection W (SelectorInvoke q :: h)) /\
      exists required,
        (FrameworkManagerAgent.determine_required_agents W q h).1 = Ok required /\
        forall x, x ∈ required <->
                  exists a reason, x = enum_member a /\ (a, true, reason) ∈ verdicts).
Proof.
  intros Hbuilt. rewrite (determine_required_agents_built W q h Hbuilt).
  split; [done|]. split; [|split; [|split]].
  - intros e He. simpl. by rewrite He.
  - intros e He. unfold FrameworkManagerAgent.selection. unfold_bind. by rewrite He.
  - intros required Hsel. split.
    + simpl. by rewrite Hsel.
    + apply selection_Ok_inv in Hsel as (res & agents & items & Hres & Hag & Hit & Hn).
      exists res, agents, items. repeat split; try done.
      * intros Hx. apply (needed_agents_mem _ _ _ x Hn) in Hx as [Hx|Hx]; done.
      * intros Hx. apply (needed_agents_mem _ _ _ x Hn). by right.
  - intros verdicts Hres.
    destruct (needed_agents_verdicts verdicts []) as (out & Hout & Hmembers);
      [constructor|].
    assert (Hsel : FrameworkManagerAgent.selection W (SelectorInvoke q :: h) = Ok out).
    { unfold FrameworkManagerAgent.selection. unfold_bind. rewrite Hres. simpl.
      exact Hout. }
    split; [by exists out|].
    simpl. rewrite Hsel. exists out. split; [done|].
    intros x. split.
    + intros Hx.
      assert (Hmem : set_mem x out = true).
      { rewrite Forall_forall in Hmembers. destruct (Hmembers x Hx) as [a ->].
        by apply set_mem_elem. }
      apply (needed_agents_mem _ _ _ x Hout) in Hmem as [Hmem|(item & a & Hin & Hs & Hxa)];
        [done|].
      apply list_elem_of_fmap in Hin as ([[t b] reason] & -> & Hin).
      apply selects_verdict_dict in Hs as [Hb ->]. simpl in *. subst b.
      apply py_eqb_PStr in Hxa. eauto.
    + intros (a & reason & -> & Hin).
      assert (Hmem : set_mem (enum_member a) out = true).
      { apply (needed_agents_mem _ _ _ _ Hout). right.
        exists (verdict_dict (a, true, reason)), (enum_member a).
        split; [by apply (list_elem_of_fmap_2 verdict_dict)|].
        split; [by apply selects_verdict_dict|]. by apply py_eqb_refl. }
      apply set_mem_spec in Hmem as (y & Hy & Heq).
      rewrite Forall_forall in Hmembers. destruct (Hmembers y Hy) as [a' ->].
      unfold enum_member in *. simpl in Heq.
      apply String.eqb_eq in Heq. by rewrite Heq.
Qed.

Lemma determine_required_agents_witness :
  (FrameworkManagerAgent.determine_required_agents Sample.Wdown "q" []).1
    = Ok [PStr "elizaos"; PStr "tron"; PStr "goose"] /\
  exists required,
    (FrameworkManagerAgent.determine_required_agents Sample.W "q" []).1 = Ok required /\
    PStr "goose" ∈ required /\ PStr "tron" ∉ required.
Proof.
  split.
  - destruct (determine_required_agents_spec Sample.Wdown "q" [] eq_refl)
      as (_ & Hfallback & _).
    apply Hfallback with (e := ChainException "Invalid json output").
    reflexivity.
  - destruct (determine_required_agents_spec Sample.W "q" [] eq_refl)
      as (_ & _ & _ & _ & Hschema).
    destruct (Hschema [(ELIZAOS, true, "because"); (TRON, false, "because");
                       (GOOSE, true, "because")] eq_refl)
      as (_ & required & Hreq & Hmem).
    exists required. split; [exact Hreq|]. split.
    + apply Hmem. exists GOOSE, "because". split; [reflexivity|].
      apply list_elem_of_further, list_elem_of_further, list_elem_of_here.
    + intros Hin. apply Hmem in Hin.
      destruct Hin as (a & reason & Ha & Hin).
      destruct a; try discriminate Ha.
      repeat (apply elem_of_cons in Hin as [Hin|Hin]; [discriminate Hin|]).
      by apply elem_of_nil in Hin.
Defined.

(** ** Executions of the graph *)

Section Executions.
Context (W : World).
Implicit Types (c : config) (s : ManagerState) (t : AgentTask).

Lemma validate_agent_type_inv v a : validate_agent_type v = Ok a -> v = enum_member a.
Proof.
  destruct v as [| | |s| |]; simpl; try discriminate.
  destruct (String.eqb_spec s "elizaos") as [->|_]; [by intros [= <-]|].
  destruct (String.eqb_spec s "tron") as [->|_]; [by intros [= <-]|].
  destruct (String.eqb_spec s "goose") as [->|_]; [by intros [= <-]|discriminate].
Qed.

Lemma new_AgentTask_inv a q t :
  new_AgentTask a q = Ok t ->
  a = enum_member (agent_type t) /\ query t = q /\ status t = PENDING /\
  response t = PNone /\ error t = PNone.
Proof.
  unfold new_AgentTask. unfold_bind.
  destruct (validate_agent_type a) as [ty|] eqn:Hty; [|discriminate].
  intros [= <-]. by apply validate_agent_type_inv in Hty.
Qed.

Lemma mapM_new_tasks q l ts :
  mapM (fun a => new_AgentTask a q) l = Ok ts ->
  map (fun t => enum_member (agent_type t)) ts = l /\
  Forall (fun t => query t = q /\ status t = PENDING /\
                   response t = PNone /\ error t = PNone) ts.
Proof.
  revert ts. induction l as [|a l IH]; simpl; intros ts.
  - intros [= <-]. split; [done|constructor].
  - unfold_bind.
    destruct (new_AgentTask a q) as [t|] eqn:Ht; [|discriminate].
    destruct (mapM _ l) as [ts'|]; [|discriminate].
    intros [= <-]. destruct (IH ts' eq_refl) as [Hmap Hall].
    apply new_AgentTask_inv in Ht as (Ha & Ht). simpl. split; [by rewrite Hmap, <- Ha|].
    by constructor.
Qed.

Lemma graph_step_initialize c :
  at_node c = Initialize ->
  graph_step W c =
    (required ← (FrameworkManagerAgent.determine_required_agents W
                   (original_query (state_of c)) (calls c)).1;
     new_tasks ← mapM (fun a => new_AgentTask a (original_query (state_of c)))
                      (set_order W required);
     Ok {| at_node := SelectNextAgent;
           state_of :=
             {| original_query := original_query (state_of c);
                tasks := new_tasks;
                required_agents := required;
                current_agent := None;
                messages := (messages (state_of c) ++ messages (state_of c))%list;
                final_output := final_output (state_of c) ++ final_output (state_of c) |};
           calls := SelectorInvoke (original_query (state_of c)) :: calls c |}).
Proof.
  intros Hn. unfold graph_step. rewrite Hn. unfold Node.initialize.
  unfold FrameworkManagerAgent.determine_required_agents.
  destruct (chat_deepseek W "deepseek-chat" (calls c)) as [[]|]; [|done].
  simpl. unfold_bind. by destruct (mapM _ _).
Qed.

Lemma graph_step_select c :
  at_node c = SelectNextAgent ->
  graph_step W c =
    Ok {| at_node := match List.find is_pending (tasks (state_of c)) with
                     | Some _ => ProcessWithAgent
                     | None => Finalize
                     end;
          state_of :=
            {| original_query := original_query (state_of c);
               tasks := tasks (state_of c);
               required_agents := required_agents (state_of c);
               current_agent := agent_type <$> List.find is_pending (tasks (state_of c));
               messages := (messages (state_of c) ++ messages (state_of c))%list;
               final_output := final_output (state_of c) ++ final_output (state_of c) |};
          calls := calls c |}.
Proof.
  intros Hn. unfold graph_step. rewrite Hn.
  unfold Node.should_continue, Node.select_next_agent.
  destruct (List.find is_pending (tasks (state_of c))) as [t|] eqn:Hfind; simpl.
  - reflexivity.
  - apply find_None_forallb in Hfind. rewrite Hfind. reflexivity.
Qed.

Lemma graph_step_process c a t :
  at_node c = ProcessWithAgent ->
  current_agent (state_of c) = Some a ->
  List.find (fun task => bool_decide (agent_type task = a)) (tasks (state_of c)) = Some t ->
  graph_step W c =
    Ok {| at_node := SelectNextAgent;
          state_of :=
            {| original_query := original_query (state_of c);
               tasks := replace_by t (done_task t (dispatched W t (calls c)).1)
                          (tasks (state_of c));
               required_agents := required_agents (state_of c);
               current_agent := current_agent (state_of c);
               messages := (messages (state_of c) ++ messages (state_of c))%list;
               final_output := final_output (state_of c) ++ final_output (state_of c) |};
          calls := request_of t :: calls c |}.
Proof.
  intros Hn Hcur Hfind. unfold graph_step. rewrite Hn.
  by rewrite (node_process_with_agent W _ _ a t Hcur Hfind).
Qed.

Lemma graph_step_finalize_fallback c :
  at_node c = Finalize ->
  List.filter FrameworkManagerAgent.is_completed (tasks (state_of c)) = [] ->
  graph_step W c =
    Ok {| at_node := END;
          state_of :=
            {| original_query := original_query (state_of c);
               tasks := tasks (state_of c);
               required_agents := required_agents (state_of c);
               current_agent := current_agent (state_of c);
               messages := (messages (state_of c) ++
                 [AIMessage ("Query processed. Here's the answer:" ++ nl ++ nl ++ NO_ANSWER)])%list;
               final_output := final_output (state_of c) ++ NO_ANSWER |};
          calls := calls c |}.
Proof.
  intros Hn Hnone. unfold graph_step. rewrite Hn. unfold Node.finalize.
  by rewrite Hnone.
Qed.

Lemma graph_step_finalize_merge c :
  at_node c = Finalize ->
  List.filter FrameworkManagerAgent.is_completed (tasks (state_of c)) ≠ [] ->
  graph_step W c =
    (output ← aggregator_invoke W
       (AggregatorInvoke (original_query (state_of c))
          (FrameworkManagerAgent.agent_responses W
             (List.filter FrameworkManagerAgent.is_completed (tasks (state_of c))))
        :: calls c);
     Ok {| at_node := END;
           state_of :=
             {| original_query := original_query (state_of c);
                tasks := tasks (state_of c);
                required_agents := required_agents (state_of c);
                current_agent := current_agent (state_of c);
                messages := (messages (state_of c) ++
                  [AIMessage ("Query processed. Here's the answer:" ++ nl ++ nl ++ output)])%list;
                final_output := final_output (state_of c) ++ output |};
           calls := AggregatorInvoke (original_query (state_of c))
                      (FrameworkManagerAgent.agent_responses W
                         (List.filter FrameworkManagerAgent.is_completed (tasks (state_of c))))
                    :: calls c |}).
Proof.
  intros Hn Hsome. unfold graph_step. rewrite Hn. unfold Node.finalize.
  destruct (List.filter _ _) as [|t ts] eqn:Hf; [done|].
  unfold FrameworkManagerAgent.aggregate_responses. unfold_bind.
  by destruct (aggregator_invoke W _).
Qed.

Lemma task_ok_mono q h x t : task_ok q h t -> task_ok q (x :: h) t.
Proof.
  unfold task_ok. destruct (status t); try done.
  - intros (? & ? & ?). repeat split; try done. by right.
  - intros (? & ? & ? & ?). repeat split; try done. by right.
Qed.

Lemma task_ok_done q h t :
  task_ok q h t -> status t = PENDING ->
  task_ok q (request_of t :: h) (done_task t (dispatched W t h).1).
Proof.
  intros [Hq Hst] Hp. rewrite Hp in Hst. destruct Hst as [Hr He].
  assert (Hs : reply_shape (dispatched W t h).1) by apply process_shape.
  destruct (done_task_terminal t _ Hs) as [(r & _ & ->)|(msg & _ & ->)];
    (split; [done|]); simpl.
  - split; [done|]. left.
  - repeat split; [done|by eexists|]. left.
Qed.

Lemma Inv_start q h0 : Inv q (start q h0).
Proof.
  split; simpl; try done.
  apply NoDup_nil_2.
Qed.

Lemma Inv_step q c c' : Inv q c -> step W c c' -> Inv q c'.
Proof.
  intros [Hq Hnd Hts Hout Hentry Hcur Hatt]. unfold step.
  destruct (at_node c) eqn:Hn.
  - (* initialize *)
    rewrite (graph_step_initialize c Hn). unfold_bind.
    destruct (FrameworkManagerAgent.determine_required_agents W _ _).1
      as [required|] eqn:Hreq; [|discriminate].
    destruct (mapM _ _) as [new_tasks|] eqn:Hnew; [|discriminate].
    intros [= <-]. apply mapM_new_tasks in Hnew as [Hmap Hall].
    split; simpl; try done.
    + apply (NoDup_fmap_1 enum_member).
      change (enum_member <$> map agent_type new_tasks)
        with (map enum_member (map agent_type new_tasks)).
      rewrite map_map, Hmap, (set_order_perm W).
      by apply (determine_required_agents_wf W _ _ _ Hreq).
    + eapply Forall_impl; [exact Hall|]. intros t (Ht & Hst & Hr & He).
      split; [congruence|]. by rewrite Hst.
    + intros _. by rewrite Hout.
    + intros [|]; discriminate.
  - (* select_next_agent *)
    rewrite (graph_step_select c Hn). intros [= <-].
    split; simpl; try done.
    + intros _. by rewrite Hout.
    + by destruct (List.find is_pending _).
    + destruct (List.find is_pending _) as [t|]; [|discriminate]. intros _. by exists t.
    + destruct (List.find is_pending _) as [t|] eqn:Hfind; [intros [|]; discriminate|].
      intros _. apply find_None_forallb in Hfind.
      rewrite forallb_forall in Hfind. apply Forall_forall. intros t Ht Hp.
      apply list_elem_of_In in Ht. specialize (Hfind t Ht).
      unfold is_pending in Hfind. by rewrite bool_decide_eq_true_2 in Hfind.
  - (* process_with_agent *)
    destruct (Hcur eq_refl) as (t & Hfind & Hcurrent).
    apply find_Some_elem in Hfind as [Hin Hp].
    apply bool_decide_eq_true in Hp.
    rewrite (graph_step_process c _ t Hn Hcurrent (find_agent_type_unique _ _ Hnd Hin)).
    intros [= <-].
    assert (Hdone := task_ok_done q (calls c) t).
    rewrite Forall_forall in Hts. specialize (Hdone (Hts t Hin) Hp).
    assert (Hty : agent_type (done_task t (dispatched W t (calls c)).1) = agent_type t).
    { assert (Hs : reply_shape (dispatched W t (calls c)).1) by apply process_shape.
      by destruct (done_task_terminal t _ Hs) as [(r & _ & ->)|(msg & _ & ->)]. }
    split; simpl; try done.
    + by rewrite replace_by_agent_types.
    + unfold replace_by. apply Forall_forall. intros x Hx.
      apply (list_elem_of_fmap_1 _ (tasks (state_of c))) in Hx as (y & -> & Hy).
      case_bool_decide; [|done]. by apply task_ok_mono, Hts.
    + intros _. by rewrite Hout.
    + intros [|]; discriminate.
  - (* finalize *)
    destruct (decide (List.filter FrameworkManagerAgent.is_completed
                        (tasks (state_of c)) = [])) as [Hnone|Hsome].
    + rewrite (graph_step_finalize_fallback c Hn Hnone). intros [= <-].
      split; simpl; try done. intros _. apply Hatt. by left.
    + rewrite (graph_step_finalize_merge c Hn Hsome). unfold_bind.
      destruct (aggregator_invoke W _) as [output|]; [|discriminate].
      intros [= <-]. split; simpl; try done.
      * eapply Forall_impl; [exact Hts|]. intros t. apply task_ok_mono.
      * intros _. apply Hatt. by left.
  - (* END *)
    unfold graph_step. rewrite Hn. intros [= <-].
    split; try done; rewrite Hn; done.
Qed.

Lemma reachable_Inv q h0 c : reachable W q h0 c -> Inv q c.
Proof.
  unfold reachable. revert c. apply rtc_ind_r.
  - apply Inv_start.
  - intros c1 c2 _ Hstep IH. by apply Inv_step with c1.
Qed.

End Executions.

(** ** Runs *)

Section Runs.
Context (W : World).
Implicit Types (c : config) (s : ManagerState) (t : AgentTask).

Lemma steps_from_rtc n c : rtc (step W) c (steps_from W n c).
Proof.
  revert c. induction n as [|n IH]; simpl; intros c; [done|].
  destruct (graph_step W c) as [c'|] eqn:Hstep; [|done].
  by apply rtc_l with c'.
Qed.

Lemma steps_from_reachable n q h0 : reachable W q h0 (steps_from W n (start q h0)).
Proof. apply steps_from_rtc. Qed.

Lemma step_END c c' : at_node c = END -> step W c c' -> c' = c.
Proof. unfold step, graph_step. intros ->. by intros [= <-]. Qed.

Lemma nsteps_END n c c' : at_node c = END -> nsteps (step W) n c c' -> c' = c.
Proof.
  intros Hn Hsteps. induction Hsteps as [|n c c1 c' Hstep _ IH]; [done|].
  apply (step_END _ _ Hn) in Hstep as ->. by apply IH.
Qed.

(** Supersteps that have not reached END only consume the budget. *)
Lemma run_nsteps n c c' fuel :
  nsteps (step W) n c c' -> at_node c' ≠ END -> run W (n + fuel) c = run W fuel c'.
Proof.
  intros Hsteps Hc'. induction Hsteps as [|n c c1 c' Hstep Hrest IH]; [done|].
  assert (Hc : at_node c ≠ END).
  { intros Hn. apply Hc'.
    rewrite (nsteps_END (S n) c c' Hn); [done|]. by apply nsteps_l with c1. }
  simpl. unfold step in Hstep.
  destruct (at_node c); try done; unfold_bind; rewrite Hstep; by apply IH.
Qed.

(** One step of a run leaves the tasks alone or settles one pending task. *)
Lemma step_tasks q c c' :
  Inv q c -> step W c c' ->
  tasks (state_of c') = tasks (state_of c) \/
  tasks (state_of c) = [] \/
  exists t, t ∈ tasks (state_of c) /\ status t = PENDING /\
            terminal (done_task t (dispatched W t (calls c)).1) /\
            tasks (state_of c') =
              replace_by t (done_task t (dispatched W t (calls c)).1) (tasks (state_of c)).
Proof.
  intros HI. pose proof HI as [Hq Hnd Hts Hout Hentry Hcur Hatt]. unfold step.
  destruct (at_node c) eqn:Hn.
  - intros _. right; left. by apply Hentry.
  - rewrite (graph_step_select W c Hn). intros [= <-]. by left.
  - destruct (Hcur eq_refl) as (t & Hfind & Hcurrent).
    apply find_Some_elem in Hfind as [Hin Hp]. apply bool_decide_eq_true in Hp.
    rewrite (graph_step_process W c _ t Hn Hcurrent (find_agent_type_unique _ _ Hnd Hin)).
    intros [= <-]. right; right. exists t. repeat split; try done.
    assert (Hs : reply_shape (dispatched W t (calls c)).1) by apply process_shape.
    destruct (done_task_terminal t _ Hs) as [(r & _ & ->)|(msg & _ & ->)];
      [by left|by right].
  - destruct (decide (List.filter FrameworkManagerAgent.is_completed
                        (tasks (state_of c)) = [])) as [Hnone|Hsome].
    + rewrite (graph_step_finalize_fallback W c Hn Hnone). intros [= <-]. by left.
    + rewrite (graph_step_finalize_merge W c Hn Hsome). unfold_bind.
      destruct (aggregator_invoke W _); [|discriminate]. intros [= <-]. by left.
  - unfold graph_step. rewrite Hn. intros [= <-]. by left.
Qed.

Lemma step_frozen q c c' i t :
  Inv q c -> step W c c' ->
  tasks (state_of c) !! i = Some t -> terminal t ->
  tasks (state_of c') !! i = Some t.
Proof.
  intros HI Hstep Hi Hterm.
  destruct (step_tasks q c c' HI Hstep) as [->|[Hnil|(p & Hin & Hp & _ & ->)]]; [done| |].
  - by rewrite Hnil in Hi.
  - apply replace_by_lookup_other; [by destruct HI|done..|].
    intros ->. destruct Hterm; congruence.
Qed.

Lemma step_changes_pending q c c' i t t' :
  Inv q c -> step W c c' ->
  tasks (state_of c) !! i = Some t -> tasks (state_of c') !! i = Some t' -> t' ≠ t ->
  status t = PENDING /\ terminal t' /\
  forall j x, j ≠ i -> tasks (state_of c) !! j = Some x -> tasks (state_of c') !! j = Some x.
Proof.
  intros HI Hstep Hi Hi' Hne.
  destruct (step_tasks q c c' HI Hstep) as [Heq|[Hnil|(p & Hin & Hp & Hterm & Heq)]].
  - rewrite Heq in Hi'. congruence.
  - by rewrite Hnil in Hi.
  - rewrite Heq in Hi'. rewrite (replace_by_lookup _ _ _ _ _ Hi) in Hi'.
    injection Hi' as Hi'. case_bool_decide as Hty; [congruence|].
    assert (t = p) as ->.
    { apply (agent_type_unique (tasks (state_of c))); [by destruct HI| |done..].
      apply list_elem_of_lookup. by exists i. }
    subst t'. repeat split; try done.
    intros j x Hj Hx. rewrite Heq.
    apply replace_by_lookup_other; [by destruct HI|done..|].
    intros ->. apply Hj. eapply NoDup_lookup; [|exact Hx|exact Hi].
    eapply NoDup_fmap_1, (inv_nodup _ _ HI).
Qed.

Lemma rtc_frozen q c c' i t :
  Inv q c -> rtc (step W) c c' ->
  tasks (state_of c) !! i = Some t -> terminal t ->
  tasks (state_of c') !! i = Some t.
Proof.
  intros HI Hsteps. induction Hsteps as [|c c1 c' Hstep _ IH]; [done|].
  intros Hi Hterm. apply IH; [by apply (Inv_step W q c)| |done].
  by apply (step_frozen q c).
Qed.

End Runs.

(** C9.  In every reachable state of the workflow every task's status is
    PENDING, COMPLETED or FAILED: IN_PROGRESS is never assigned. *)
Theorem in_progress_never_assigned (W : World) (q : string) (h0 : history) (c : config) :
  reachable W q h0 c ->
  Forall (fun t => status t = PENDING \/ status t = COMPLETED \/ status t = FAILED)
         (tasks (state_of c)).
Proof.
  intros [_ _ Hts _ _ _ _]%reachable_Inv.
  eapply Forall_impl; [exact Hts|]. intros t [_ Hst].
  destruct (status t); tauto.
Qed.

Lemma in_progress_never_assigned_witness :
  Forall (fun t => status t = PENDING \/ status t = COMPLETED \/ status t = FAILED)
         (tasks (state_of (steps_from Sample.W 5 (start "q" [])))).
Proof.
  apply (in_progress_never_assigned Sample.W "q" []).
  apply steps_from_reachable.
Defined.

(** C6.  In a run, a task whose status is COMPLETED or FAILED keeps its
    status, response and error (the whole record) through every later
    step; and a step that changes a task changes a PENDING one, leaves it
    COMPLETED or FAILED, and changes no other task.  So each task goes
    from PENDING to exactly one of COMPLETED and FAILED at most once. *)
Theorem terminal_task_frozen (W : World) (q : string) (h0 : history) (c : config) :
  reachable W q h0 c ->
  (forall c' i t,
      rtc (step W) c c' ->
      tasks (state_of c) !! i = Some t -> terminal t ->
      tasks (state_of c') !! i = Some t) /\
  (forall c' i t t',
      step W c c' ->
      tasks (state_of c) !! i = Some t -> tasks (state_of c') !! i = Some t' ->
      t' ≠ t ->
      status t = PENDING /\ terminal t' /\
      forall j x, j ≠ i -> tasks (state_of c) !! j = Some x ->
                  tasks (state_of c') !! j = Some x).
Proof.
  intros HI%reachable_Inv. split.
  - intros c' i t Hsteps. by apply (rtc_frozen W q).
  - intros c' i t t' Hstep. by apply (step_changes_pending W q).
Qed.

Lemma terminal_task_frozen_witness :
  tasks (state_of (steps_from Sample.W 4 (steps_from Sample.W 3 (start "q" [])))) !! 0%nat
  = Some {| agent_type := ELIZAOS; query := "q"; status := COMPLETED;
            response := PStr "use pattern matching for q"; error := PNone |}.
Proof.
  apply (proj1 (terminal_task_frozen Sample.W "q" []
                  (steps_from Sample.W 3 (start "q" []))
                  (steps_from_reachable Sample.W 3 "q" []))).
  - apply steps_from_rtc.
  - reflexivity.
  - left. reflexivity.
Defined.

(** ** The end of a run *)

Section Finalize.
Context (W : World).
Implicit Types (c : config) (s : ManagerState) (t : AgentTask).

Lemma step_next_node c c' :
  step W c c' ->
  match at_node c with
  | Initialize | ProcessWithAgent => at_node c' = SelectNextAgent
  | SelectNextAgent => at_node c' = ProcessWithAgent \/ at_node c' = Finalize
  | Finalize | END => at_node c' = END
  end.
Proof.
  unfold step. destruct (at_node c) eqn:Hn.
  - rewrite (graph_step_initialize W c Hn). unfold_bind.
    destruct (FrameworkManagerAgent.determine_required_agents W _ _).1; [|discriminate].
    destruct (mapM _ _); [|discriminate]. by intros [= <-].
  - rewrite (graph_step_select W c Hn). intros [= <-]. simpl.
    destruct (List.find _ _); eauto.
  - unfold graph_step. rewrite Hn.
    destruct (Node.process_with_agent W _ _) as [[u|] h]; [|discriminate].
    by intros [= <-].
  - unfold graph_step. rewrite Hn.
    destruct (Node.finalize W _ _) as [[u|] h]; [|discriminate].
    by intros [= <-].
  - unfold graph_step. rewrite Hn. by intros [= <-].
Qed.

Lemma finalize_fallback s h :
  Forall (fun t => status t ≠ COMPLETED) (tasks s) ->
  Node.finalize W s h =
    (Ok {| upd_original_query := None;
           upd_tasks := None;
           upd_required_agents := None;
           upd_current_agent := None;
           upd_messages :=
             Some [AIMessage ("Query processed. Here's the answer:" ++ nl ++ nl ++ NO_ANSWER)];
           upd_final_output := Some NO_ANSWER |}, h).
Proof.
  intros Hnone. unfold Node.finalize.
  assert (List.filter FrameworkManagerAgent.is_completed (tasks s) = []) as ->; [|done].
  apply filter_nil_forall. eapply Forall_impl; [exact Hnone|].
  intros t Ht. unfold FrameworkManagerAgent.is_completed. by apply bool_decide_eq_false_2.
Qed.

Lemma join_concat sep parts : join sep parts = String.concat sep parts.
Proof.
  induction parts as [|p parts IH]; simpl; [done|].
  destruct parts; [done|]. by rewrite IH.
Qed.

Lemma finalize_calls s h :
  List.filter FrameworkManagerAgent.is_completed (tasks s) ≠ [] ->
  (Node.finalize W s h).2 =
    AggregatorInvoke (original_query s)
      (join (nl ++ nl)
         (map (FrameworkManagerAgent.response_entry W)
              (List.filter FrameworkManagerAgent.is_completed (tasks s)))) :: h.
Proof.
  intros Hsome. unfold Node.finalize.
  pose proof (filter_filter_id FrameworkManagerAgent.is_completed (tasks s)) as Hcs.
  destruct (List.filter _ (tasks s)) as [|t ts]; [done|].
  unfold FrameworkManagerAgent.aggregate_responses, FrameworkManagerAgent.agent_responses.
  by rewrite Hcs.
Qed.

Lemma agent_responses_same_completed ts ts' :
  Forall2 same_completed ts ts' ->
  FrameworkManagerAgent.agent_responses W ts = FrameworkManagerAgent.agent_responses W ts'.
Proof.
  unfold FrameworkManagerAgent.agent_responses. intros H. f_equal.
  induction H as [|t t' ts ts' (Hty & Hst & Hr) _ IH]; simpl; [done|].
  assert (FrameworkManagerAgent.is_completed t' = FrameworkManagerAgent.is_completed t)
    as -> by (unfold FrameworkManagerAgent.is_completed; by rewrite Hst).
  destruct (FrameworkManagerAgent.is_completed t) eqn:Hc; [|done].
  apply bool_decide_eq_true in Hc. simpl. rewrite IH. f_equal.
  unfold FrameworkManagerAgent.response_entry. by rewrite Hty, (Hr Hc).
Qed.

Lemma same_completed_filter_nil ts ts' :
  Forall2 same_completed ts ts' ->
  List.filter FrameworkManagerAgent.is_completed ts' = [] ->
  List.filter FrameworkManagerAgent.is_completed ts = [].
Proof.
  induction 1 as [|t t' ts ts' (Hty & Hst & Hr) _ IH]; simpl; [done|].
  assert (FrameworkManagerAgent.is_completed t' = FrameworkManagerAgent.is_completed t)
    as -> by (unfold FrameworkManagerAgent.is_completed; by rewrite Hst).
  by destruct (FrameworkManagerAgent.is_completed t).
Qed.

(** What the [finalize] step of a run yields. *)
Lemma finalize_step_outcome q c :
  Inv q c -> at_node c = Finalize ->
  match graph_step W c with
  | Ok c'' =>
      at_node c'' = END /\
      ((Forall (fun t => status t ≠ COMPLETED) (tasks (state_of c)) /\
        calls c'' = calls c /\ final_output (state_of c'') = NO_ANSWER) \/
       (exists text,
           calls c'' = AggregatorInvoke q text :: calls c /\
           aggregator_invoke W (calls c'') = Ok (final_output (state_of c''))))
  | Raise e =>
      exists text, aggregator_invoke W (AggregatorInvoke q text :: calls c) = Raise e
  end.
Proof.
  intros [Hq _ _ Hout _ _ _] Hn.
  assert (Hempty : final_output (state_of c) = "") by (apply Hout; congruence).
  destruct (decide (List.filter FrameworkManagerAgent.is_completed
                      (tasks (state_of c)) = [])) as [Hnone|Hsome].
  - rewrite (graph_step_finalize_fallback W c Hn Hnone). split; [done|]. left.
    simpl. rewrite Hempty. split; [|done].
    apply filter_nil_forall in Hnone. eapply Forall_impl; [exact Hnone|].
    intros t Ht. by apply bool_decide_eq_false in Ht.
  - rewrite (graph_step_finalize_merge W c Hn Hsome). unfold_bind. rewrite Hq.
    destruct (aggregator_invoke W _) as [output|e] eqn:Hagg; [|by eexists].
    split; [done|]. right. eexists. simpl. rewrite Hempty. split; [done|].
    exact Hagg.
Qed.

End Finalize.

(** C2.  In a run, a step that hands control to [finalize] is a step of
    [select_next_agent] on which [should_continue] answered "finish";
    then no task is PENDING: every task is COMPLETED or FAILED and its
    request has been sent.  [finalize] then produces the final output:
    the fixed fallback without any call when no task is COMPLETED,
    otherwise the content returned by the aggregation call (whose
    exception, if it raises, is what the step raises). *)
Theorem finalize_after_all_attempted (W : World) (q : string) (h0 : history)
    (c c' : config) :
  reachable W q h0 c -> step W c c' -> at_node c' = Finalize ->
  at_node c = SelectNextAgent /\
  Node.should_continue (state_of c') = "finish" /\
  Forall (fun t => status t ≠ PENDING /\ terminal t /\ request_of t ∈ calls c')
         (tasks (state_of c')) /\
  match graph_step W c' with
  | Ok c'' =>
      at_node c'' = END /\
      ((Forall (fun t => status t ≠ COMPLETED) (tasks (state_of c')) /\
        calls c'' = calls c' /\ final_output (state_of c'') = NO_ANSWER) \/
       (exists text,
           calls c'' = AggregatorInvoke q text :: calls c' /\
           aggregator_invoke W (calls c'') = Ok (final_output (state_of c''))))
  | Raise e =>
      exists text, aggregator_invoke W (AggregatorInvoke q text :: calls c') = Raise e
  end.
Proof.
  intros HI%reachable_Inv Hstep Hn'.
  pose proof (Inv_step W q c c' HI Hstep) as [Hq' _ Hts' Hout' _ _ Hatt'].
  assert (Hn : at_node c = SelectNextAgent).
  { pose proof (step_next_node W c c' Hstep) as Hnext.
    destruct (at_node c); try done; congruence. }
  split; [done|]. split; [|split].
  - unfold step in Hstep. rewrite (graph_step_select W c Hn) in Hstep.
    injection Hstep as <-. simpl in *.
    destruct (List.find is_pending (tasks (state_of c))) eqn:Hfind; [discriminate|].
    apply find_None_forallb in Hfind. unfold Node.should_continue. simpl.
    by rewrite Hfind.
  - specialize (Hatt' (or_introl Hn')).
    rewrite Forall_forall in Hts', Hatt'. apply Forall_forall. intros t Ht.
    specialize (Hatt' t Ht). destruct (Hts' t Ht) as [_ Hst]. unfold terminal.
    destruct (status t); try done.
    + destruct Hst as [_ Hreq]. repeat split; [done|by left|done].
    + destruct Hst as (_ & _ & Hreq). repeat split; [done|by right|done].
  - by apply finalize_step_outcome; [apply (Inv_step W q c c')|].
Qed.

Lemma finalize_after_all_attempted_witness :
  Forall (fun t => status t ≠ PENDING /\ terminal t /\
                   request_of t ∈ calls (steps_from Sample.W 6 (start "q" [])))
         (tasks (state_of (steps_from Sample.W 6 (start "q" [])))).
Proof.
  assert (Hstep : step Sample.W (steps_from Sample.W 5 (start "q" []))
                                (steps_from Sample.W 6 (start "q" []))).
  { unfold step. vm_compute. reflexivity. }
  assert (Hnode : at_node (steps_from Sample.W 6 (start "q" [])) = Finalize).
  { vm_compute. reflexivity. }
  pose proof (finalize_after_all_attempted Sample.W "q" [] _ _
                (steps_from_reachable Sample.W 5 "q" []) Hstep Hnode) as H.
  destruct H as (_ & _ & H & _). exact H.
Defined.

(** C8.  When no task is COMPLETED, [finalize] makes no call at all (the
    history is returned as it was) and gives the fixed sentence as
    [final_output]; at the end of a run this sentence is the state's final
    output.  Both an empty task list and a list of failed tasks are such
    states. *)
Theorem no_completed_task_fallback (W : World) :
  (forall (state : ManagerState) (h : history),
      Forall (fun t => status t ≠ COMPLETED) (tasks state) ->
      exists u,
        Node.finalize W state h = (Ok u, h) /\
        upd_final_output u =
          Some "Unable to provide a response as all specialized agents encountered errors.") /\
  (forall (q : string) (h0 : history) (c : config),
      reachable W q h0 c -> at_node c = Finalize ->
      Forall (fun t => status t ≠ COMPLETED) (tasks (state_of c)) ->
      exists c',
        graph_step W c = Ok c' /\ at_node c' = END /\ calls c' = calls c /\
        final_output (state_of c') =
          "Unable to provide a response as all specialized agents encountered errors.").
Proof.
  split.
  - intros state h Hnone. eexists. split; [by apply finalize_fallback|done].
  - intros q h0 c HI%reachable_Inv Hn Hnone.
    assert (Hf : List.filter FrameworkManagerAgent.is_completed (tasks (state_of c)) = []).
    { apply filter_nil_forall. eapply Forall_impl; [exact Hnone|].
      intros t Ht. by apply bool_decide_eq_false_2. }
    eexists. split; [by apply graph_step_finalize_fallback|]. simpl.
    repeat split. rewrite (inv_output _ _ HI); [done|congruence].
Qed.

Lemma no_completed_task_fallback_witness :
  (exists c',
      graph_step Sample.Wdown (steps_from Sample.Wdown 8 (start "q" [])) = Ok c' /\
      at_node c' = END /\
      calls c' = calls (steps_from Sample.Wdown 8 (start "q" [])) /\
      final_output (state_of c') = NO_ANSWER) /\
  (exists c',
      graph_step Sample.Wnone (steps_from Sample.Wnone 2 (start "q" [])) = Ok c' /\
      at_node c' = END /\
      calls c' = calls (steps_from Sample.Wnone 2 (start "q" [])) /\
      final_output (state_of c') = NO_ANSWER).
Proof.
  assert (Hfailed : Forall (fun t => status t ≠ COMPLETED)
                      (tasks (state_of (steps_from Sample.Wdown 8 (start "q" []))))).
  { vm_compute. repeat constructor; discriminate. }
  assert (Hnode : at_node (steps_from Sample.Wdown 8 (start "q" [])) = Finalize).
  { vm_compute. reflexivity. }
  assert (Hempty : Forall (fun t => status t ≠ COMPLETED)
                     (tasks (state_of (steps_from Sample.Wnone 2 (start "q" []))))).
  { vm_compute. constructor. }
  assert (Hnode' : at_node (steps_from Sample.Wnone 2 (start "q" [])) = Finalize).
  { vm_compute. reflexivity. }
  destruct (no_completed_task_fallback Sample.Wdown) as [_ Hdown].
  destruct (no_completed_task_fallback Sample.Wnone) as [_ Hnone].
  split.
  - exact (Hdown "q" [] _ (steps_from_reachable Sample.Wdown 8 "q" []) Hnode Hfailed).
  - exact (Hnone "q" [] _ (steps_from_reachable Sample.Wnone 2 "q" []) Hnode' Hempty).
Defined.

(** C7.  When some task is COMPLETED, the text [finalize] hands to the
    aggregation call is the concatenation of the entries of the COMPLETED
    tasks, in task order, with an empty line (two line breaks) between
    one entry and the next; an entry is the upper-cased agent type,
    [" AGENT:"], a line break and the response.  Tasks that are not
    COMPLETED contribute nothing: the text is the same whatever they hold
    and whatever the error fields hold. *)
Theorem aggregation_prompt_text (W : World) (state : ManagerState) (h : history) :
  List.filter (fun t => bool_decide (status t = COMPLETED)) (tasks state) ≠ [] ->
  (Node.finalize W state h).2 =
    AggregatorInvoke (original_query state)
      (String.concat (nl ++ nl)
         (map (fun t => upper (AgentType_value (agent_type t)) ++ " AGENT:" ++ nl
                        ++ py_format W (response t))
              (List.filter (fun t => bool_decide (status t = COMPLETED)) (tasks state))))
    :: h /\
  (forall text,
      (Node.finalize W state h).2 = AggregatorInvoke (original_query state) text :: h ->
      text = FrameworkManagerAgent.agent_responses W (tasks state)) /\
  (FrameworkManagerAgent.agent_responses W [] = "" /\
   (forall t ts,
       status t = COMPLETED ->
       FrameworkManagerAgent.agent_responses W (t :: ts)
       = match List.filter (fun t => bool_decide (status t = COMPLETED)) ts with
         | [] => upper (AgentType_value (agent_type t)) ++ " AGENT:" ++ nl
                 ++ py_format W (response t)
         | _ :: _ =>
             (upper (AgentType_value (agent_type t)) ++ " AGENT:" ++ nl
              ++ py_format W (response t))
             ++ nl ++ nl ++ FrameworkManagerAgent.agent_responses W ts
         end) /\
   (forall t ts,
       status t ≠ COMPLETED ->
       FrameworkManagerAgent.agent_responses W (t :: ts)
       = FrameworkManagerAgent.agent_responses W ts)) /\
  (upper (AgentType_value ELIZAOS) = "ELIZAOS" /\
   upper (AgentType_value TRON) = "TRON" /\
   upper (AgentType_value GOOSE) = "GOOSE" /\
   forall s, py_format W (PStr s) = s) /\
  (forall state',
      original_query state' = original_query state ->
      Forall2 same_completed (tasks state) (tasks state') ->
      (Node.finalize W state' h).2 = (Node.finalize W state h).2).
Proof.
  intros Hsome. split; [|split; [|split; [|split]]].
  - rewrite (finalize_calls W state h Hsome). by rewrite join_concat.
  - intros text. rewrite (finalize_calls W state h Hsome). by intros [= <-].
  - split; [done|]. split.
    + intros t ts Ht. unfold FrameworkManagerAgent.agent_responses. simpl.
      unfold FrameworkManagerAgent.is_completed at 1.
      rewrite bool_decide_eq_true_2 by done. simpl.
      by destruct (List.filter _ ts).
    + intros t ts Ht. unfold FrameworkManagerAgent.agent_responses. simpl.
      unfold FrameworkManagerAgent.is_completed at 1.
      by rewrite bool_decide_eq_false_2.
  - done.
  - intros state' Hq Hsame.
    pose proof (agent_responses_same_completed W _ _ Hsame) as Htext.
    unfold FrameworkManagerAgent.agent_responses in Htext.
    rewrite (finalize_calls W state h Hsome), finalize_calls.
    + by rewrite Hq, Htext.
    + intros Hnone. apply Hsome. by apply (same_completed_filter_nil _ _ Hsame).
Qed.

Lemma aggregation_prompt_text_witness :
  (Node.finalize Sample.W Sample.answered []).2
  = [AggregatorInvoke "q"
       ("ELIZAOS AGENT:" ++ nl ++ "match patterns" ++ nl ++ nl
        ++ "GOOSE AGENT:" ++ nl ++ "shard the work")].
Proof.
  assert (Hsome : List.filter (fun t => bool_decide (status t = COMPLETED))
                    (tasks Sample.answered) ≠ []).
  { vm_compute. discriminate. }
  destruct (aggregation_prompt_text Sample.W Sample.answered [] Hsome) as [Htext _].
  rewrite Htext. vm_compute. reflexivity.
Defined.

(** C10.  No node changes [original_query].  The dicts returned by
    [initialize], [select_next_agent] and [process_with_agent] carry the
    input's [original_query]; the dict returned by [finalize] has no such
    key; in all four cases the state that results from merging the dict
    holds the input's [original_query].  Every task created by
    [initialize] has it as its [query]. *)
Theorem original_query_unchanged (W : World) (state : ManagerState) (h : history) :
  (forall u,
      (Node.initialize W state h).1 = Ok u ->
      upd_original_query u = Some (original_query state) /\
      original_query (apply_update state u) = original_query state /\
      Forall (fun t => query t = original_query state) (tasks (apply_update state u))) /\
  (upd_original_query (Node.select_next_agent state) = Some (original_query state) /\
   original_query (apply_update state (Node.select_next_agent state))
     = original_query state) /\
  (forall u,
      (Node.process_with_agent W state h).1 = Ok u ->
      upd_original_query u = Some (original_query state) /\
      original_query (apply_update state u) = original_query state) /\
  (forall u,
      (Node.finalize W state h).1 = Ok u ->
      upd_original_query u = None /\
      original_query (apply_update state u) = original_query state).
Proof.
  split; [|split; [|split]].
  - intros u. unfold Node.initialize.
    destruct (FrameworkManagerAgent.determine_required_agents W _ h) as [[required|] h'];
      simpl; unfold_bind; [|discriminate].
    destruct (mapM _ _) as [new_tasks|] eqn:Hnew; [|discriminate].
    intros [= <-]. simpl. repeat split.
    apply mapM_new_tasks in Hnew as [_ Hall].
    eapply Forall_impl; [exact Hall|]. by intros t [? _].
  - unfold Node.select_next_agent. by destruct (List.find _ _).
  - intros u. unfold Node.process_with_agent.
    destruct (current_agent state) as [a|]; [|by intros [= <-]].
    destruct (List.find _ _) as [t|]; [|discriminate].
    destruct (FrameworkManagerAgent.process_with_agent W _ _ h) as [res h'].
    simpl. unfold_bind.
    destruct (subscript res "success") as [ok|]; [|discriminate].
    destruct (truthy ok).
    + destruct (subscript res "result"); [|discriminate]. by intros [= <-].
    + destruct (subscript res "error"); [|discriminate]. by intros [= <-].
  - intros u. unfold Node.finalize.
    destruct (match List.filter _ _ with [] => _ | _ => _ end) as [[output|] h'];
      simpl; [|discriminate].
    by intros [= <-].
Qed.

Lemma original_query_unchanged_witness :
  match (Node.initialize Sample.W (initial_state "q") []).1 with
  | Ok u =>
      original_query (apply_update (initial_state "q") u) = "q" /\
      Forall (fun t => query t = "q") (tasks (apply_update (initial_state "q") u))
  | Raise _ => False
  end /\
  match (Node.finalize Sample.W Sample.settled []).1 with
  | Ok u => original_query (apply_update Sample.settled u) = "q"
  | Raise _ => False
  end.
Proof.
  split.
  - destruct (Node.initialize Sample.W (initial_state "q") []).1 as [u|e] eqn:Hu.
    + destruct (proj1 (original_query_unchanged Sample.W (initial_state "q") []) u Hu)
        as (_ & Hq & Hts).
      split; [exact Hq|exact Hts].
    + vm_compute in Hu. discriminate Hu.
  - destruct (Node.finalize Sample.W Sample.settled []).1 as [u|e] eqn:Hu.
    + exact (proj2 (proj2 (proj2 (proj2
               (original_query_unchanged Sample.W Sample.settled []))) u Hu)).
    + vm_compute in Hu. discriminate Hu.
Defined.

(** ** The selection loop *)

Section Loop.
Context (W : World).
Implicit Types (c : config) (s : ManagerState) (t : AgentTask).

Lemma replace_by_same_type t t0 d ts :
  agent_type t0 = agent_type t -> replace_by t0 d ts = replace_by t d ts.
Proof. intros Hty. unfold replace_by. by rewrite Hty. Qed.

Lemma done_task_facts t res :
  reply_shape res ->
  terminal (done_task t res) /\ agent_type (done_task t res) = agent_type t /\
  is_pending (done_task t res) = false.
Proof.
  intros Hs. destruct (done_task_terminal t _ Hs) as [(r & _ & ->)|(msg & _ & ->)].
  - split; [by left|done].
  - split; [by right|done].
Qed.

(** One turn of the loop: [select_next_agent] picks the first pending
    task, [process_with_agent] sends one request and settles it. *)
Lemma loop_iteration c t :
  at_node c = SelectNextAgent ->
  List.find is_pending (tasks (state_of c)) = Some t ->
  exists c1 c2 d q',
    step W c c1 /\ at_node c1 = ProcessWithAgent /\
    current_agent (state_of c1) = Some (agent_type t) /\
    step W c1 c2 /\ at_node c2 = SelectNextAgent /\
    calls c2 = HttpPost (api_endpoint (FrameworkManagerAgent.framework_agents (agent_type t))) q'
               :: calls c /\
    terminal d /\ agent_type d = agent_type t /\
    tasks (state_of c2) = replace_by t d (tasks (state_of c)) /\
    (pending_count (state_of c2) < pending_count (state_of c))%nat.
Proof.
  intros Hn Hfind.
  destruct (find_agent_type_of_pending _ _ Hfind) as (t0 & Hfind0 & Hty).
  pose proof (process_shape W (FrameworkManagerAgent.framework_agents (agent_type t0))
                (query t0) (calls c)) as Hs.
  destruct (done_task_facts t0 _ Hs) as (Hterm & Hdty & Hdp).
  pose (c1 := {| at_node := ProcessWithAgent;
                 state_of :=
                   {| original_query := original_query (state_of c);
                      tasks := tasks (state_of c);
                      required_agents := required_agents (state_of c);
                      current_agent := Some (agent_type t);
                      messages := (messages (state_of c) ++ messages (state_of c))%list;
                      final_output := final_output (state_of c) ++ final_output (state_of c) |};
                 calls := calls c |}).
  assert (Hstep1 : graph_step W c = Ok c1).
  { rewrite (graph_step_select W c Hn), Hfind. reflexivity. }
  assert (Hstep2 := graph_step_process W c1 (agent_type t) t0 eq_refl eq_refl Hfind0).
  exists c1. eexists. exists (done_task t0 (dispatched W t0 (calls c)).1), (query t0).
  split; [exact Hstep1|]. split; [done|]. split; [done|].
  split; [exact Hstep2|]. simpl.
  split; [done|]. split; [unfold request_of; by rewrite Hty|].
  split; [done|]. split; [rewrite <- Hty; exact Hdty|].
  split; [by apply replace_by_same_type|].
  unfold pending_count. simpl.
  apply find_Some_elem in Hfind as [Hin Hp].
  apply (replace_by_pending_lt t0 _ _ t); done.
Qed.

Lemma pending_count_pos s t :
  List.find is_pending (tasks s) = Some t -> (0 < pending_count s)%nat.
Proof.
  unfold pending_count. induction (tasks s) as [|x ts IH]; simpl; [discriminate|].
  destruct (is_pending x); simpl; [lia|done].
Qed.

Lemma loop_reaches_finalize n c :
  at_node c = SelectNextAgent -> (pending_count (state_of c) <= n)%nat ->
  exists k c',
    (k <= pending_count (state_of c))%nat /\ nsteps (step W) (2 * k + 1) c c' /\
    at_node c' = Finalize /\ Node.should_continue (state_of c') = "finish" /\
    pending_count (state_of c') = 0%nat.
Proof.
  revert c. induction n as [|n IH]; intros c Hn Hle;
    destruct (List.find is_pending (tasks (state_of c))) as [t|] eqn:Hfind.
  - apply pending_count_pos in Hfind. lia.
  - exists 0%nat. eexists. split; [lia|]. split; [|split; [|split]].
    + apply nsteps_once. unfold step. by rewrite (graph_step_select W c Hn).
    + simpl. by rewrite Hfind.
    + unfold Node.should_continue. simpl. rewrite Hfind. simpl.
      apply find_None_forallb in Hfind. by rewrite Hfind.
    + unfold pending_count. simpl. apply find_None_forallb in Hfind.
      induction (tasks (state_of c)) as [|x ts IHts]; simpl in *; [done|].
      apply andb_true_iff in Hfind as [Hx Hts]. apply negb_true_iff in Hx.
      rewrite Hx. by apply IHts.
  - destruct (loop_iteration c t Hn Hfind)
      as (c1 & c2 & d & q' & Hs1 & _ & _ & Hs2 & Hn2 & _ & _ & _ & _ & Hlt).
    destruct (IH c2 Hn2) as (k & c' & Hk & Hsteps & Hrest); [lia|].
    exists (S k), c'. split; [lia|]. split; [|done].
    replace (2 * S k + 1)%nat with (S (S (2 * k + 1))) by lia.
    apply nsteps_l with c1; [done|]. by apply nsteps_l with c2.
  - exists 0%nat. eexists. split; [lia|]. split; [|split; [|split]].
    + apply nsteps_once. unfold step. by rewrite (graph_step_select W c Hn).
    + simpl. by rewrite Hfind.
    + unfold Node.should_continue. simpl. rewrite Hfind. simpl.
      apply find_None_forallb in Hfind. by rewrite Hfind.
    + unfold pending_count. simpl. apply find_None_forallb in Hfind.
      induction (tasks (state_of c)) as [|x ts IHts]; simpl in *; [done|].
      apply andb_true_iff in Hfind as [Hx Hts]. apply negb_true_iff in Hx.
      rewrite Hx. by apply IHts.
Qed.

(** In a run the agent types of the tasks are distinct, so a turn of the
    loop settles exactly the selected task. *)
Lemma replace_by_absent t d ts :
  agent_type t ∉ map agent_type ts -> replace_by t d ts = ts.
Proof.
  unfold replace_by. induction ts as [|x ts IH]; simpl; [done|].
  intros Hnot. rewrite not_elem_of_cons in Hnot. destruct Hnot as [Hx Hts].
  rewrite bool_decide_eq_true_2 by done. by rewrite IH.
Qed.

Lemma replace_by_pending_exact t d ts :
  NoDup (map agent_type ts) -> t ∈ ts -> is_pending t = true -> is_pending d = false ->
  (length (List.filter is_pending (replace_by t d ts)) + 1
   = length (List.filter is_pending ts))%nat.
Proof.
  intros Hnd Hin Hp Hd. induction ts as [|x ts IH]; simpl.
  - by apply elem_of_nil in Hin.
  - simpl in Hnd. apply NoDup_cons in Hnd as [Hx Hnd].
    apply elem_of_cons in Hin as [<-|Hin].
    + rewrite bool_decide_eq_false_2 by (intros Hne; by apply Hne).
      rewrite Hd, Hp. simpl. fold (replace_by t d ts).
      rewrite replace_by_absent by done. lia.
    + rewrite bool_decide_eq_true_2.
      * fold (replace_by t d ts). specialize (IH Hnd Hin).
        destruct (is_pending x); simpl; lia.
      * intros Heq. apply Hx. rewrite Heq. by apply (list_elem_of_fmap_2 agent_type).
Qed.

Lemma agent_types_bound (l : list AgentType) : NoDup l -> (length l <= 3)%nat.
Proof.
  intros Hnd. apply (submseteq_length l [ELIZAOS; TRON; GOOSE]).
  apply NoDup_submseteq; [done|]. intros [] _; repeat constructor.
Qed.

Lemma pending_count_bound q c : Inv q c -> (pending_count (state_of c) <= 3)%nat.
Proof.
  intros [_ Hnd _ _ _ _ _]. apply agent_types_bound in Hnd.
  rewrite length_map in Hnd. unfold pending_count.
  pose proof (List.filter_length_le is_pending (tasks (state_of c))). lia.
Qed.

Lemma run_S fuel c :
  at_node c ≠ END -> run W (S fuel) c = (c' ← graph_step W c; run W fuel c').
Proof. intros Hn. simpl. by destruct (at_node c). Qed.

Lemma run_END fuel c : at_node c = END -> run W fuel c = Ok c.
Proof. intros Hn. destruct fuel; simpl; by rewrite Hn. Qed.

(** A run stays within the budget of supersteps: after [initialize], at
    most three turns of the loop lead to [finalize], whose outcome is the
    outcome of the run. *)
Lemma run_framework_manager_steps q h c1 :
  step W (start q h) c1 ->
  exists k c',
    (k <= 3)%nat /\ nsteps (step W) (2 * k + 1) c1 c' /\ at_node c' = Finalize /\
    reachable W q h c' /\
    run_framework_manager W q h = (c'' ← graph_step W c'; Ok c'').
Proof.
  intros Hstep1.
  assert (HI1 : Inv q c1) by (apply (Inv_step W q (start q h)); [apply Inv_start|done]).
  assert (Hn1 : at_node c1 = SelectNextAgent) by apply (step_next_node W _ _ Hstep1).
  destruct (loop_reaches_finalize _ c1 Hn1 (Nat.le_refl _))
    as (k & c' & Hk & Hsteps & Hn' & _ & _).
  pose proof (pending_count_bound q c1 HI1) as Hb.
  assert (Hreach : reachable W q h c').
  { unfold reachable. apply rtc_l with c1; [done|]. by apply rtc_nsteps_2 in Hsteps. }
  exists k, c'. split; [lia|]. split; [done|]. split; [done|]. split; [done|].
  unfold run_framework_manager.
  replace recursion_limit with (S (2 * k + 1) + S (22 - 2 * k))%nat
    by (unfold recursion_limit; lia).
  rewrite (run_nsteps W (S (2 * k + 1)) (start q h) c');
    [|by apply nsteps_l with c1|congruence].
  simpl. rewrite Hn'. unfold_bind.
  destruct (graph_step W c') as [c''|] eqn:Hfin; [|done].
  apply run_END. pose proof (step_next_node W c' c'' Hfin) as Hnext.
  by rewrite Hn' in Hnext.
Qed.

Lemma run_framework_manager_raise q h e :
  graph_step W (start q h) = Raise e -> run_framework_manager W q h = Raise e.
Proof.
  intros Hstep. unfold run_framework_manager. change recursion_limit with (S 24).
  rewrite run_S by done. unfold_bind. by rewrite Hstep.
Qed.

Lemma query_manager_agent_built q model h :
  chat_deepseek W model h = Ok tt ->
  query_manager_agent W q model h = run_framework_manager W q h.
Proof. intros Hbuilt. unfold query_manager_agent. by rewrite Hbuilt. Qed.

Lemma query_manager_agent_Ok q model h c :
  query_manager_agent W q model h = Ok c ->
  chat_deepseek W model h = Ok tt /\ run_framework_manager W q h = Ok c.
Proof.
  unfold query_manager_agent. unfold_bind.
  by destruct (chat_deepseek W model h) as [[]|].
Qed.

End Loop.

(** C4.  The loop of [select_next_agent] and [process_with_agent]
    terminates.  A turn that continues selects the first PENDING task,
    sends one request, and puts a COMPLETED or FAILED task in its place,
    so strictly fewer tasks are PENDING afterwards (in a run, exactly one
    fewer); from any state, at most as many turns as there are PENDING
    tasks lead to the state on which [should_continue] answers "finish";
    and a whole run needs at most three turns, so it ends within the
    budget of supersteps with the outcome of [finalize]. *)
Theorem agent_loop_terminates (W : World) :
  (forall (c : config) (t : AgentTask),
      at_node c = SelectNextAgent ->
      List.find is_pending (tasks (state_of c)) = Some t ->
      exists c1 c2 d q',
        step W c c1 /\ at_node c1 = ProcessWithAgent /\
        current_agent (state_of c1) = Some (agent_type t) /\
        step W c1 c2 /\ at_node c2 = SelectNextAgent /\
        calls c2 =
          HttpPost (api_endpoint (FrameworkManagerAgent.framework_agents (agent_type t))) q'
          :: calls c /\
        terminal d /\ agent_type d = agent_type t /\
        tasks (state_of c2) = replace_by t d (tasks (state_of c)) /\
        (pending_count (state_of c2) < pending_count (state_of c))%nat /\
        (forall q h0, reachable W q h0 c ->
           (pending_count (state_of c2) + 1 = pending_count (state_of c))%nat)) /\
  (forall (c : config),
      at_node c = SelectNextAgent ->
      exists k c',
        (k <= pending_count (state_of c))%nat /\ nsteps (step W) (2 * k + 1) c c' /\
        at_node c' = Finalize /\ Node.should_continue (state_of c') = "finish" /\
        pending_count (state_of c') = 0%nat) /\
  (forall (q : string) (h : history) (c1 : config),
      step W (start q h) c1 ->
      exists k c',
        (k <= 3)%nat /\ nsteps (step W) (2 * k + 1) c1 c' /\ at_node c' = Finalize /\
        run_framework_manager W q h = (c'' ← graph_step W c'; Ok c'')).
Proof.
  split; [|split].
  - intros c t Hn Hfind.
    destruct (loop_iteration W c t Hn Hfind)
      as (c1 & c2 & d & q' & H1 & H2 & H3 & H4 & H5 & H6 & Hterm & Hty & Hts & Hlt).
    exists c1, c2, d, q'. repeat (split; [done|]).
    intros q h0 [_ Hnd _ _ _ _ _]%reachable_Inv.
    apply find_Some_elem in Hfind as [Hin Hp].
    unfold pending_count. rewrite Hts. apply replace_by_pending_exact; try done.
    unfold is_pending. destruct Hterm as [-> | ->]; done.
  - intros c Hn. by apply (loop_reaches_finalize W (pending_count (state_of c))).
  - intros q h c1 Hstep.
    destruct (run_framework_manager_steps W q h c1 Hstep)
      as (k & c' & Hk & Hsteps & Hn' & _ & Hrun).
    by exists k, c'.
Qed.

Lemma agent_loop_terminates_witness :
  exists k c',
    (k <= pending_count (state_of (steps_from Sample.W 1 (start "q" []))))%nat /\
    nsteps (step Sample.W) (2 * k + 1) (steps_from Sample.W 1 (start "q" [])) c' /\
    at_node c' = Finalize /\ Node.should_continue (state_of c') = "finish" /\
    pending_count (state_of c') = 0%nat.
Proof.
  assert (Hn : at_node (steps_from Sample.W 1 (start "q" [])) = SelectNextAgent).
  { vm_compute. reflexivity. }
  destruct (agent_loop_terminates Sample.W) as (_ & Hloop & _).
  exact (Hloop _ Hn).
Defined.

(** C3, as the specification words it: the body answered by [/query]
    holds a string under [result].  False: the handler puts there the
    whole dict returned by the graph. *)
Lemma query_result_is_not_a_string :
  ~ (forall (W : World) (q : string) (h : history),
       exists body text,
         get_items W q h = Ok body /\ subscript body "result" = Ok (PStr text)).
Proof.
  intros H. destruct (H Sample.W "q" []) as (body & text & Hbody & Hres).
  vm_compute in Hbody. injection Hbody as <-.
  vm_compute in Hres. discriminate Hres.
Qed.

(** C3, amended.  When the workflow returns, the body answered by
    [/query] is a JSON object whose [result] field is the final state of
    the workflow, an object whose [final_output] field is a string: the
    fixed fallback or the content returned by the aggregation call.  An
    exception of the workflow escapes the handler; the workflow returns
    whenever its chat model is built, [initialize] returns and the
    aggregation call does. *)
Theorem query_endpoint_response (W : World) (q : string) (h : history) :
  (forall c,
      query_manager_agent W q "deepseek-reasoner" h = Ok c ->
      get_items W q h = Ok (PDict [("result", encode_state W (state_of c))]) /\
      (exists kv, encode_state W (state_of c) = PDict kv) /\
      subscript (encode_state W (state_of c)) "final_output"
        = Ok (PStr (final_output (state_of c))) /\
      (final_output (state_of c) = NO_ANSWER \/
       exists h', aggregator_invoke W h' = Ok (final_output (state_of c)))) /\
  (forall e,
      query_manager_agent W q "deepseek-reasoner" h = Raise e ->
      get_items W q h = Raise e) /\
  (returned (chat_deepseek W "deepseek-reasoner" h) ->
   returned (Node.initialize W (initial_state q) h).1 ->
   (forall text h', returned (aggregator_invoke W (AggregatorInvoke q text :: h'))) ->
   returned (get_items W q h)).
Proof.
  split; [|split].
  - intros c Hquery. unfold get_items. unfold_bind. rewrite Hquery.
    apply query_manager_agent_Ok in Hquery as [_ Hrun].
    split; [done|]. split; [by eexists|]. split; [done|].
    destruct (graph_step W (start q h)) as [c1|e] eqn:Hstep1.
    + destruct (run_framework_manager_steps W q h c1 Hstep1)
        as (k & c' & _ & _ & Hn' & Hreach & Hrun').
      rewrite Hrun in Hrun'. unfold_bind.
      pose proof (finalize_step_outcome W q c' (reachable_Inv W q h c' Hreach) Hn') as Hfin.
      destruct (graph_step W c') as [c''|]; [|discriminate].
      injection Hrun' as ->. destruct Hfin as [_ [(_ & _ & Hout)|(text & _ & Hagg)]].
      * by left.
      * right. by eexists.
    + rewrite (run_framework_manager_raise W q h e Hstep1) in Hrun. discriminate.
  - intros e Hrun. unfold get_items. unfold_bind. by rewrite Hrun.
  - intros [[] Hbuilt] [u Hu] Hagg.
    assert (Hstep1 : exists c1, graph_step W (start q h) = Ok c1).
    { unfold graph_step. cbn [start at_node state_of calls].
      destruct (Node.initialize W (initial_state q) h) as [r h1]. cbn [fst] in Hu.
      subst r. unfold_bind. by eexists. }
    destruct Hstep1 as [c1 Hstep1].
    destruct (run_framework_manager_steps W q h c1 Hstep1)
      as (k & c' & _ & _ & Hn' & Hreach & Hrun').
    pose proof (finalize_step_outcome W q c' (reachable_Inv W q h c' Hreach) Hn') as Hfin.
    unfold get_items. rewrite (query_manager_agent_built W q _ h Hbuilt).
    unfold_bind. rewrite Hrun'.
    destruct (graph_step W c') as [c''|e]; [by eexists|].
    destruct Hfin as [text Hraise]. destruct (Hagg text (calls c')) as [out Hout].
    congruence.
Qed.

Lemma query_endpoint_response_witness :
  returned (get_items Sample.W "q" []) /\
  match query_manager_agent Sample.Wdown "q" "deepseek-reasoner" [] with
  | Ok c =>
      get_items Sample.Wdown "q" []
        = Ok (PDict [("result", encode_state Sample.Wdown (state_of c))]) /\
      subscript (encode_state Sample.Wdown (state_of c)) "final_output"
        = Ok (PStr (final_output (state_of c)))
  | Raise _ => False
  end.
Proof.
  split.
  - destruct (query_endpoint_response Sample.W "q" []) as (_ & _ & Hret).
    apply Hret.
    + eexists. reflexivity.
    + eexists. vm_compute. reflexivity.
    + intros text h'. eexists. reflexivity.
  - destruct (query_manager_agent Sample.Wdown "q" "deepseek-reasoner" []) as [c|e] eqn:Hrun.
    + destruct (query_endpoint_response Sample.Wdown "q" []) as (Hok & _ & _).
      destruct (Hok c Hrun) as (Hbody & _ & Hout & _). split; [exact Hbody|exact Hout].
    + vm_compute in Hrun. discriminate Hrun.
Defined.

(** * Further properties of the workflow *)

(** ** Edge cases of the nodes *)

Section NodeEdges.
Context (W : World).

Lemma find_none_forall {A} (f : A -> bool) (l : list A) :
  Forall (fun x => f x = false) l -> List.find f l = None.
Proof.
  induction 1 as [|x l Hx _ IH]; simpl; [done|]. by rewrite Hx.
Qed.

Lemma needed_agents_raises items acc item e :
  item ∈ items -> subscript item "needed" = Raise e ->
  exists e', FrameworkManagerAgent.needed_agents items acc = Raise e'.
Proof.
  intros Hin He. revert acc. induction items as [|x items IH]; intros acc.
  - by apply elem_of_nil in Hin.
  - simpl. unfold_bind. apply elem_of_cons in Hin as [<-|Hin].
    + rewrite He. by eexists.
    + destruct (subscript x "needed") as [n|]; [|by eexists].
      destruct (truthy n); [|by apply IH].
      destruct (subscript x "agent_type") as [a|]; [|by eexists].
      destruct (set_add a acc) as [acc'|]; [|by eexists]. by apply IH.
Qed.

Lemma needed_agents_filter items acc :
  Forall (fun item => returned (subscript item "needed")) items ->
  FrameworkManagerAgent.needed_agents items acc
  = FrameworkManagerAgent.needed_agents (List.filter is_needed items) acc.
Proof.
  intros Hall. revert acc. induction Hall as [|item items [n Hn] _ IH]; intros acc; [done|].
  simpl. unfold is_needed at 1. unfold_bind. rewrite Hn.
  destruct (truthy n) eqn:Ht; [|by apply IH].
  simpl. unfold_bind. rewrite Hn, Ht.
  destruct (subscript item "agent_type") as [a|]; [|done].
  destruct (set_add a acc) as [acc'|]; [|done]. by apply IH.
Qed.

Lemma mapM_new_tasks_Ok q l :
  Forall agent_name l ->
  exists ts, mapM (fun a => new_AgentTask a q) l = Ok ts.
Proof.
  induction 1 as [|v l [a ->] _ [ts Hts]]; simpl; [by eexists|].
  unfold_bind. unfold new_AgentTask at 1. unfold_bind.
  destruct a; simpl; rewrite Hts; by eexists.
Qed.

Lemma mapM_new_tasks_Raise q l e :
  mapM (fun a => new_AgentTask a q) l = Raise e ->
  exists v, e = ValidationError v /\ v ∈ l /\ ~ agent_name v.
Proof.
  induction l as [|x l IH]; simpl; [discriminate|]. unfold_bind.
  destruct (new_AgentTask x q) as [t|e'] eqn:Hx.
  - destruct (mapM _ l) as [ts|e'']; [discriminate|].
    intros [= ->]. destruct (IH eq_refl) as (v & -> & Hv & Hbad).
    exists v. split; [done|]. split; [by right|done].
  - intros [= ->]. unfold new_AgentTask in Hx. unfold_bind.
    destruct (validate_agent_type x) as [a|e'] eqn:Hval; [discriminate|].
    injection Hx as ->. exists x. split.
    + destruct x as [| | |s| |]; simpl in Hval; try (by injection Hval as <-).
      destruct (String.eqb s "elizaos"); [discriminate|].
      destruct (String.eqb s "tron"); [discriminate|].
      destruct (String.eqb s "goose"); [discriminate|]. by injection Hval as <-.
    + split; [left|]. intros [a ->]. by destruct a.
Qed.

(** [initialize] once the selection has returned. *)
Lemma initialize_built state h required :
  (FrameworkManagerAgent.determine_required_agents W (original_query state) h).1
    = Ok required ->
  Node.initialize W state h
  = (new_tasks ← mapM (fun a => new_AgentTask a (original_query state))
                      (set_order W required);
     Ok (with_current_agent None
           (with_required_agents required (with_tasks new_tasks (spread state)))),
     SelectorInvoke (original_query state) :: h).
Proof.
  intros Hreq.
  pose proof (determine_required_agents_Ok_inv _ _ _ _ Hreq) as Hchat.
  rewrite (determine_required_agents_built W _ h Hchat) in Hreq.
  cbn [fst] in Hreq. injection Hreq as <-.
  unfold Node.initialize.
  by rewrite (determine_required_agents_built W _ h Hchat).
Qed.

Lemma initialize_unbuilt state h e :
  chat_deepseek W "deepseek-chat" h = Raise e ->
  Node.initialize W state h = (Raise e, h).
Proof.
  intros Hchat. unfold Node.initialize.
  by rewrite (determine_required_agents_unbuilt W _ h e Hchat).
Qed.

Lemma initialize_raises state h e :
  (Node.initialize W state h).1 = Raise e ->
  chat_deepseek W "deepseek-chat" h = Raise e \/
  exists required v,
    (FrameworkManagerAgent.determine_required_agents W (original_query state) h).1
      = Ok required /\
    e = ValidationError v /\ ~ agent_name v /\ v ∈ required.
Proof.
  intros He.
  destruct (FrameworkManagerAgent.determine_required_agents W (original_query state) h).1
    as [required|e'] eqn:Hreq.
  - right. rewrite (initialize_built state h required Hreq) in He.
    cbn [fst] in He. unfold_bind.
    destruct (mapM _ _) as [ts|e''] eqn:Hts; [discriminate|].
    injection He as ->. apply mapM_new_tasks_Raise in Hts as (v & -> & Hv & Hbad).
    exists required, v. split; [done|]. split; [done|]. split; [done|].
    by rewrite (set_order_perm W) in Hv.
  - left. pose proof (determine_required_agents_Raise_inv _ _ _ _ Hreq) as Hchat.
    rewrite (initialize_unbuilt state h e' Hchat) in He. by injection He as <-.
Qed.

End NodeEdges.

(** X1.  [process_with_agent] outside a run: with no current agent it
    sends nothing and returns the state as it is; with a current agent
    that no task bears it raises [StopIteration], again without sending
    anything. *)
Theorem process_with_agent_edges (W : World) (state : ManagerState) (h : history) :
  (current_agent state = None ->
   Node.process_with_agent W state h = (Ok (spread state), h)) /\
  (forall a,
      current_agent state = Some a ->
      Forall (fun t => agent_type t ≠ a) (tasks state) ->
      Node.process_with_agent W state h = (Raise StopIteration, h)).
Proof.
  split.
  - intros Hcur. unfold Node.process_with_agent. by rewrite Hcur.
  - intros a Hcur Hnone. unfold Node.process_with_agent. rewrite Hcur.
    rewrite find_none_forall; [done|].
    eapply Forall_impl; [exact Hnone|]. intros t Ht. by apply bool_decide_eq_false_2.
Qed.

Lemma process_with_agent_edges_witness :
  Node.process_with_agent Sample.W Sample.settled []
    = (Ok (spread Sample.settled), []) /\
  Node.process_with_agent Sample.W
    {| original_query := "q"; tasks := tasks Sample.settled;
       required_agents := []; current_agent := Some ELIZAOS;
       messages := []; final_output := "" |} []
    = (Raise StopIteration, []).
Proof.
  split.
  - apply (proj1 (process_with_agent_edges Sample.W Sample.settled [])). reflexivity.
  - apply (proj2 (process_with_agent_edges Sample.W _ []) ELIZAOS); [reflexivity|].
    repeat constructor; discriminate.
Defined.

(** X2.  What [process] sends depends on the agent through its endpoint
    only: the API key is never used, and since the Tron agent is built on
    the ElizaOS endpoint, a query is dispatched to Tron exactly as to
    ElizaOS (same call, same reply). *)
Theorem tron_dispatched_as_elizaos (W : World) (q : string) (h : history) :
  (forall self key,
      BaseAgent.process W {| api_endpoint := api_endpoint self; api_key := key |} q h
      = BaseAgent.process W self q h) /\
  FrameworkManagerAgent.process_with_agent W TRON q h
  = FrameworkManagerAgent.process_with_agent W ELIZAOS q h /\
  (forall t t',
      agent_type t = TRON -> agent_type t' = ELIZAOS -> query t = query t' ->
      request_of t = request_of t').
Proof.
  split; [done|]. split; [done|].
  intros t t' Ht Ht' Hq. unfold request_of. by rewrite Ht, Ht', Hq.
Qed.

Lemma tron_dispatched_as_elizaos_witness :
  request_of {| agent_type := TRON; query := "q"; status := PENDING;
                response := PNone; error := PNone |}
  = request_of {| agent_type := ELIZAOS; query := "q"; status := COMPLETED;
                  response := PStr "done"; error := PNone |}.
Proof.
  apply (proj2 (proj2 (tron_dispatched_as_elizaos Sample.W "q" []))); reflexivity.
Defined.



(** X4.  One malformed verdict discards the whole selection: when the
    chain has answered and any item of the verdict list is not a dict
    with a [needed] entry, all three agents are selected, whatever the
    other items say. *)
Theorem malformed_verdict_discards_selection (W : World) (q : string) (h : history)
    (res agents : pyval) (items : list pyval) (item : pyval) (e : exn) :
  chat_deepseek W "deepseek-chat" h = Ok tt ->
  selector_invoke W (SelectorInvoke q :: h) = Ok res ->
  subscript res "agents" = Ok agents ->
  py_iter agents = Ok items ->
  item ∈ items -> subscript item "needed" = Raise e ->
  (FrameworkManagerAgent.determine_required_agents W q h).1
  = Ok [enum_member ELIZAOS; enum_member TRON; enum_member GOOSE].
Proof.
  intros Hbuilt Hres Hagents Hiter Hin He.
  rewrite (determine_required_agents_built W q h Hbuilt).
  unfold FrameworkManagerAgent.selection. simpl. unfold_bind.
  rewrite Hres, Hagents, Hiter.
  by destruct (needed_agents_raises items [] item e Hin He) as [e' ->].
Qed.

Lemma malformed_verdict_discards_selection_witness :
  (FrameworkManagerAgent.determine_required_agents
     (Sample.selecting Sample.malformed) "q" []).1
  = Ok [PStr "elizaos"; PStr "tron"; PStr "goose"].
Proof.
  apply (malformed_verdict_discards_selection (Sample.selecting Sample.malformed) "q" []
           (PDict [("agents", PList Sample.malformed)]) (PList Sample.malformed)
           Sample.malformed (PDict [("agent_type", PStr "tron")]) (KeyError "needed")).
  - reflexivity.
  - reflexivity.
  - reflexivity.
  - reflexivity.
  - apply list_elem_of_further, list_elem_of_here.
  - reflexivity.
Defined.

(** X5.  The [agent_type] entry is read for needed verdicts only: when
    every item has a [needed] entry, the selection is the one computed
    from the needed items alone, so items that are not needed may lack an
    [agent_type] or hold anything there; and when no item is needed the
    selected set is empty (no fallback to all agents). *)
Theorem unneeded_verdicts_ignored (W : World) (q : string) (h : history)
    (res agents : pyval) (items : list pyval) :
  chat_deepseek W "deepseek-chat" h = Ok tt ->
  selector_invoke W (SelectorInvoke q :: h) = Ok res ->
  subscript res "agents" = Ok agents ->
  py_iter agents = Ok items ->
  Forall (fun item => returned (subscript item "needed")) items ->
  FrameworkManagerAgent.selection W (SelectorInvoke q :: h)
    = FrameworkManagerAgent.needed_agents (List.filter is_needed items) [] /\
  (List.filter is_needed items = [] ->
   (FrameworkManagerAgent.determine_required_agents W q h).1 = Ok []).
Proof.
  intros Hbuilt Hres Hagents Hiter Hall.
  assert (Hsel : FrameworkManagerAgent.selection W (SelectorInvoke q :: h)
                 = FrameworkManagerAgent.needed_agents (List.filter is_needed items) []).
  { unfold FrameworkManagerAgent.selection. unfold_bind.
    rewrite Hres, Hagents, Hiter. by apply needed_agents_filter. }
  split; [done|]. intros Hnone.
  rewrite (determine_required_agents_built W q h Hbuilt). simpl.
  by rewrite Hsel, Hnone.
Qed.

Lemma unneeded_verdicts_ignored_witness :
  (FrameworkManagerAgent.determine_required_agents
     (Sample.selecting Sample.unneeded) "q" []).1 = Ok [].
Proof.
  assert (Hneeded : Forall (fun item => returned (subscript item "needed"))
                           Sample.unneeded).
  { repeat constructor; eexists; reflexivity. }
  apply (proj2 (unneeded_verdicts_ignored (Sample.selecting Sample.unneeded) "q" []
                  (PDict [("agents", PList Sample.unneeded)]) (PList Sample.unneeded)
                  Sample.unneeded eq_refl eq_refl eq_refl eq_refl Hneeded)).
  reflexivity.
Defined.

(** X6.  [select_next_agent] followed by [should_continue], on any
    state: the answer is "finish" exactly when no task is PENDING, and
    otherwise "continue" with the first PENDING task's agent as current
    agent; the tasks and the required agents are left as they were.  The
    answer is always one of the two labels of the conditional edge. *)
Theorem select_then_should_continue (state : ManagerState) :
  (Node.should_continue (apply_update state (Node.select_next_agent state)) = "finish"
   <-> Forall (fun t => status t ≠ PENDING) (tasks state)) /\
  (Node.should_continue (apply_update state (Node.select_next_agent state)) = "continue"
   <-> exists t,
         List.find is_pending (tasks state) = Some t /\
         current_agent (apply_update state (Node.select_next_agent state))
           = Some (agent_type t)) /\
  tasks (apply_update state (Node.select_next_agent state)) = tasks state /\
  required_agents (apply_update state (Node.select_next_agent state))
    = required_agents state.
Proof.
  unfold Node.should_continue, Node.select_next_agent.
  destruct (List.find is_pending (tasks state)) as [t|] eqn:Hfind; simpl.
  - split; [|split; [|done]].
    + split; [discriminate|]. intros Hnone.
      apply find_Some_elem in Hfind as [Hin Hp]. apply bool_decide_eq_true in Hp.
      rewrite Forall_forall in Hnone. by destruct (Hnone t Hin).
    + split; [by exists t|done].
  - pose proof Hfind as Hall. apply find_None_forallb in Hall. rewrite Hall.
    split; [|split; [|done]].
    + split; [|done]. intros _. rewrite forallb_forall in Hall.
      apply Forall_forall. intros t Ht Hp. apply list_elem_of_In in Ht.
      specialize (Hall t Ht). unfold is_pending in Hall.
      by rewrite bool_decide_eq_true_2 in Hall.
    + split; [discriminate|]. by intros (t & Ht & _).
Qed.

(** X7.  The only exceptions that escape a run are the exception of
    the chat model's constructor and the validation error, both raised by
    [initialize], and the exception raised by the aggregation call: the
    lookup of the current task, the reading of the agent's reply and the
    superstep budget never make a run fail.  The handler of [/query]
    lets these escape, and that of the constructor of its own chat
    model. *)
Theorem run_exceptions (W : World) (q : string) (h : history) (e : exn) :
  (run_framework_manager W q h = Raise e ->
   chat_deepseek W "deepseek-chat" h = Raise e \/
   (exists v, e = ValidationError v /\ ~ agent_name v /\
              (Node.initialize W (initial_state q) h).1 = Raise e) \/
   (exists text h', aggregator_invoke W (AggregatorInvoke q text :: h') = Raise e)) /\
  (get_items W q h = Raise e ->
   chat_deepseek W "deepseek-reasoner" h = Raise e \/
   run_framework_manager W q h = Raise e).
Proof.
  split.
  - intros Hrun.
    destruct (graph_step W (start q h)) as [c1|e1] eqn:Hstep1.
    + right. right.
      destruct (run_framework_manager_steps W q h c1 Hstep1)
        as (k & c' & _ & _ & Hn' & Hreach & Hrun').
      pose proof (finalize_step_outcome W q c' (reachable_Inv W q h c' Hreach) Hn') as Hfin.
      rewrite Hrun in Hrun'. unfold_bind.
      destruct (graph_step W c') as [c''|e']; [discriminate|].
      injection Hrun' as ->. destruct Hfin as [text Hraise]. by exists text, (calls c').
    + rewrite (run_framework_manager_raise W q h e1 Hstep1) in Hrun.
      injection Hrun as ->.
      assert (He : (Node.initialize W (initial_state q) h).1 = Raise e).
      { unfold graph_step in Hstep1. cbn [start at_node state_of calls] in Hstep1.
        destruct (Node.initialize W (initial_state q) h) as [[u|e'] h1];
          unfold_bind; [discriminate|].
        by injection Hstep1 as ->. }
      destruct (initialize_raises W _ h e He) as [Hchat|(required & v & _ & -> & Hbad & _)].
      * by left.
      * right. left. by exists v.
  - unfold get_items, query_manager_agent. unfold_bind.
    destruct (chat_deepseek W "deepseek-reasoner" h) as [[]|e']; [|intros [= ->]; by left].
    destruct (run_framework_manager W q h) as [c|e']; [discriminate|].
    intros [= ->]. by right.
Qed.

Lemma run_exceptions_witness :
  (chat_deepseek Sample.Wnokey "deepseek-chat" []
     = Raise (ModelError "DEEPSEEK_API_KEY must be set") \/
   (exists v, ModelError "DEEPSEEK_API_KEY must be set" = ValidationError v /\
              ~ agent_name v /\
              (Node.initialize Sample.Wnokey (initial_state "q") []).1
              = Raise (ModelError "DEEPSEEK_API_KEY must be set")) \/
   (exists text h',
       aggregator_invoke Sample.Wnokey (AggregatorInvoke "q" text :: h')
       = Raise (ModelError "DEEPSEEK_API_KEY must be set"))) /\
  (chat_deepseek (Sample.selecting Sample.miscased) "deepseek-reasoner" []
     = Raise (ValidationError (PStr "ElizaOS")) \/
   run_framework_manager (Sample.selecting Sample.miscased) "q" []
     = Raise (ValidationError (PStr "ElizaOS"))).
Proof.
  split.
  - apply (proj1 (run_exceptions Sample.Wnokey "q" []
                    (ModelError "DEEPSEEK_API_KEY must be set"))).
    vm_compute. reflexivity.
  - apply (proj2 (run_exceptions (Sample.selecting Sample.miscased) "q" []
                    (ValidationError (PStr "ElizaOS")))).
    vm_compute. reflexivity.
Defined.

(** ** The trace of a run *)

Ltac proj_simpl :=
  cbn [at_node state_of calls tasks required_agents current_agent messages
       final_output original_query start initial_state fst snd].
Tactic Notation "proj_simpl" "in" hyp(H) :=
  cbn [at_node state_of calls tasks required_agents current_agent messages
       final_output original_query start initial_state fst snd] in H.

Section Trace.
Context (W : World).
Implicit Types (c : config) (s : ManagerState) (t : AgentTask).

Lemma find_pending_split settled todo :
  Forall terminal settled -> Forall (fun t => status t = PENDING) todo ->
  List.find is_pending (settled ++ todo) = head todo.
Proof.
  intros Hs Ht. induction Hs as [|x settled Hx _ IH]; simpl.
  - destruct Ht as [|t todo Hp _]; simpl; [done|].
    unfold is_pending. by rewrite bool_decide_eq_true_2.
  - unfold is_pending at 1. rewrite bool_decide_eq_false_2; [done|].
    destruct Hx as [-> | ->]; done.
Qed.

Lemma replace_by_split settled t todo d :
  NoDup (map agent_type (settled ++ t :: todo)) ->
  replace_by t d (settled ++ t :: todo) = (settled ++ d :: todo)%list.
Proof.
  intros Hnd. change (map agent_type ?l) with (agent_type <$> l) in Hnd.
  rewrite fmap_app, fmap_cons in Hnd.
  apply NoDup_app in Hnd as (_ & Hdisj & Hnd). apply NoDup_cons in Hnd as [Ht _].
  unfold replace_by. rewrite map_app. simpl.
  rewrite bool_decide_eq_false_2 by (intros Hne; by apply Hne).
  fold (replace_by t d settled). fold (replace_by t d todo).
  rewrite !replace_by_absent; [done|done|].
  intros Hin. apply (Hdisj _ Hin). left.
Qed.

Lemma done_task_keeps t res :
  reply_shape res ->
  agent_type (done_task t res) = agent_type t /\ query (done_task t res) = query t.
Proof.
  intros Hs. by destruct (done_task_terminal t _ Hs) as [(r & _ & ->)|(msg & _ & ->)].
Qed.

Lemma replicate_twice {A} n (x : A) :
  (replicate (2 ^ n) x ++ replicate (2 ^ n) x)%list = replicate (2 ^ S n) x.
Proof.
  rewrite <- replicate_add. f_equal. rewrite Nat.pow_succ_r'. lia.
Qed.

Lemma Progress_start q h0 : Progress W q h0 (start q h0).
Proof. split; simpl; done. Qed.

Lemma Progress_step q h0 c c' :
  Inv q c -> Progress W q h0 c -> step W c c' -> Progress W q h0 c'.
Proof.
  intros HI [Hentry Hreq Hcur Htrace]. pose proof HI as [Hq Hnd Hts Hout _ Hsel Hatt].
  unfold step. destruct (at_node c) eqn:Hn.
  - (* initialize *)
    rewrite (graph_step_initialize W c Hn). unfold_bind.
    destruct (FrameworkManagerAgent.determine_required_agents W
                (original_query (state_of c)) (calls c)).1
      as [required|] eqn:Hrequired; [|discriminate].
    destruct (mapM _ _) as [new_tasks|] eqn:Hnew; [|discriminate].
    intros [= <-]. rewrite (Hentry eq_refl) in Hnew, Hrequired |- *.
    proj_simpl. proj_simpl in Hnew. proj_simpl in Hrequired.
    apply mapM_new_tasks in Hnew as [Hmap Hfresh].
    split; proj_simpl; try done.
    intros _. exists [], new_tasks. repeat split; try done.
    eapply Forall_impl; [exact Hfresh|]. by intros t (_ & ? & _).
  - (* select_next_agent *)
    rewrite (graph_step_select W c Hn). intros [= <-].
    destruct (Htrace ltac:(done)) as (settled & todo & Hsplit & Hs & Ht & Hcalls & Hmsgs).
    unfold aggregation_calls, closing_message in Hcalls, Hmsgs. rewrite Hn in Hcalls, Hmsgs.
    split; proj_simpl.
    + by destruct (List.find _ _).
    + intros _. by apply Hreq.
    + destruct (List.find _ _); [intros [|]; discriminate|done].
    + intros _. exists settled, todo. repeat split; try done.
      * unfold aggregation_calls. proj_simpl. by destruct (List.find _ _).
      * unfold closing_message. proj_simpl. rewrite Hmsgs, !app_nil_r, replicate_twice.
        by destruct (List.find _ _); rewrite app_nil_r.
  - (* process_with_agent *)
    destruct (Hsel eq_refl) as (t & Hfind & Hcurrent).
    destruct (Htrace ltac:(done)) as (settled & todo & Hsplit & Hs & Ht & Hcalls & Hmsgs).
    unfold aggregation_calls, closing_message in Hcalls, Hmsgs. rewrite Hn in Hcalls, Hmsgs.
    rewrite Hsplit, (find_pending_split _ _ Hs Ht) in Hfind.
    destruct todo as [|t' todo]; [discriminate|]. injection Hfind as ->.
    assert (Hin : t ∈ tasks (state_of c)).
    { rewrite Hsplit. apply elem_of_app. right. left. }
    rewrite (graph_step_process W c _ t Hn Hcurrent (find_agent_type_unique _ _ Hnd Hin)).
    intros [= <-].
    assert (Hshape : reply_shape (dispatched W t (calls c)).1) by apply process_shape.
    destruct (done_task_facts t _ Hshape) as (Hterm & _ & _).
    destruct (done_task_keeps t _ Hshape) as (Hty & Hqy).
    split; proj_simpl.
    + done.
    + intros _. destruct (Hreq ltac:(done)) as [Hr Hm]. split; [done|].
      rewrite <- Hm, <- !(map_map agent_type enum_member). f_equal.
      by apply replace_by_agent_types.
    + intros [|]; discriminate.
    + intros _. exists (settled ++ [done_task t (dispatched W t (calls c)).1])%list, todo.
      rewrite Hsplit in Hnd |- *. rewrite (replace_by_split _ _ _ _ Hnd).
      split; [by rewrite <- app_assoc|].
      split; [by apply Forall_app; split; [|constructor]|].
      split; [by apply Forall_cons in Ht as [_ ?]|].
      split.
      * assert (request_of (done_task t (dispatched W t (calls c)).1) = request_of t)
          as Hsame by (unfold request_of; by rewrite Hty, Hqy).
        unfold aggregation_calls. proj_simpl.
        rewrite map_app, rev_app_distr. cbn [map rev app]. rewrite Hsame.
        f_equal. exact Hcalls.
      * unfold closing_message. proj_simpl.
        rewrite Hmsgs, !app_nil_r, replicate_twice, length_app. cbn [length doublings].
        do 2 f_equal. lia.
  - (* finalize *)
    destruct (Htrace ltac:(done)) as (settled & todo & Hsplit & Hs & Ht & Hcalls & Hmsgs).
    assert (Hempty : final_output (state_of c) = "") by (by apply Hout).
    unfold aggregation_calls, closing_message in Hcalls, Hmsgs. rewrite Hn in Hcalls, Hmsgs.
    rewrite app_nil_r in Hmsgs.
    destruct (decide (List.filter FrameworkManagerAgent.is_completed
                        (tasks (state_of c)) = [])) as [Hnone|Hsome].
    + rewrite (graph_step_finalize_fallback W c Hn Hnone). intros [= <-].
      split; proj_simpl; try done.
      * intros _. by apply Hreq.
      * intros _. by apply Hcur; left.
      * intros _. exists settled, todo. repeat split; try done.
        -- unfold aggregation_calls. proj_simpl. by rewrite Hnone.
        -- unfold closing_message. proj_simpl. by rewrite Hmsgs, Hempty.
    + rewrite (graph_step_finalize_merge W c Hn Hsome). unfold_bind.
      destruct (aggregator_invoke W _) as [output|]; [|discriminate]. intros [= <-].
      split; proj_simpl; try done.
      * intros _. by apply Hreq.
      * intros _. by apply Hcur; left.
      * intros _. exists settled, todo. repeat split; try done.
        -- unfold aggregation_calls. proj_simpl. rewrite Hcalls.
           by destruct (List.filter _ _) as [|x cs] eqn:Hf.
        -- unfold closing_message. proj_simpl. by rewrite Hmsgs, Hempty.
  - (* END *)
    unfold graph_step. rewrite Hn. intros [= <-].
    split; try done; rewrite Hn; done.
Qed.

Lemma reachable_Progress q h0 c : reachable W q h0 c -> Progress W q h0 c.
Proof.
  unfold reachable. revert c. apply rtc_ind_r.
  - apply Progress_start.
  - intros c1 c2 Hreach Hstep IH.
    by apply (Progress_step q h0 c1); [apply (reachable_Inv W q h0)| |].
Qed.

End Trace.

Section WholeRun.
Context (W : World).
Implicit Types (c : config) (s : ManagerState) (t : AgentTask).

Lemma run_Ok_END fuel c c' :
  run W fuel c = Ok c' -> rtc (step W) c c' /\ at_node c' = END.
Proof.
  revert c. induction fuel as [|fuel IH]; intros c.
  - simpl. destruct (at_node c) eqn:Hn; try discriminate. by intros [= <-].
  - assert (Hcases : at_node c = END \/ at_node c ≠ END)
      by (destruct (at_node c); (by left) || (by right)).
    destruct Hcases as [Hn|Hn].
    + rewrite run_END by done. by intros [= <-].
    + rewrite run_S by done. unfold_bind.
      destruct (graph_step W c) as [c1|] eqn:Hstep; [|discriminate].
      intros [Hrtc Hend]%IH. split; [by apply rtc_l with c1|done].
Qed.

Lemma run_framework_manager_Ok q h c :
  run_framework_manager W q h = Ok c -> reachable W q h c /\ at_node c = END.
Proof. apply run_Ok_END. Qed.

(** At the end of a run every task is settled. *)
Lemma Progress_END q h0 c :
  Inv q c -> Progress W q h0 c -> at_node c = END ->
  Forall terminal (tasks (state_of c)) /\
  calls c = (aggregation_calls W c ++ rev (map request_of (tasks (state_of c)))
             ++ SelectorInvoke q :: h0)%list /\
  messages (state_of c)
    = (replicate (2 ^ (2 + 2 * length (tasks (state_of c)))) (HumanMessage q)
       ++ [AIMessage ("Query processed. Here's the answer:" ++ nl ++ nl
                      ++ final_output (state_of c))])%list.
Proof.
  intros HI HP Hn.
  destruct (pr_trace _ _ _ _ HP) as (settled & todo & Hsplit & Hs & Ht & Hcalls & Hmsgs);
    [congruence|].
  pose proof (inv_attempted _ _ HI (or_intror Hn)) as Hatt.
  assert (todo = []) as ->.
  { destruct todo as [|t todo]; [done|]. exfalso.
    apply Forall_cons in Ht as [Hp _]. rewrite Forall_forall in Hatt.
    apply (Hatt t); [|done]. rewrite Hsplit. apply elem_of_app. right. left. }
  rewrite app_nil_r in Hsplit. subst settled.
  unfold closing_message in Hmsgs. rewrite Hn in Hmsgs. done.
Qed.

Lemma tasks_bound q c : Inv q c -> (length (tasks (state_of c)) <= 3)%nat.
Proof.
  intros [_ Hnd _ _ _ _ _]. apply agent_types_bound in Hnd. by rewrite length_map in Hnd.
Qed.

End WholeRun.

(** X8.  Requests follow the task order.  At every point of a run after
    [initialize], the settled tasks are the first tasks of the list, the
    calls made so far are the selection call followed by exactly one
    request per settled task, in task order, each to the task agent's
    endpoint with the original query (and then the aggregation call, once
    the run has ended with a COMPLETED task): no task is retried or
    skipped. *)
Theorem requests_follow_task_order (W : World) (q : string) (h0 : history) (c : config) :
  reachable W q h0 c -> at_node c ≠ Initialize ->
  exists settled todo,
    tasks (state_of c) = (settled ++ todo)%list /\
    Forall terminal settled /\ Forall (fun t => status t = PENDING) todo /\
    Forall (fun t => query t = q) (tasks (state_of c)) /\
    calls c = (aggregation_calls W c ++ rev (map request_of settled)
               ++ SelectorInvoke q :: h0)%list.
Proof.
  intros Hreach Hn.
  pose proof (reachable_Inv W q h0 c Hreach) as HI.
  destruct (pr_trace _ _ _ _ (reachable_Progress W q h0 c Hreach) Hn)
    as (settled & todo & Hsplit & Hs & Ht & Hcalls & _).
  exists settled, todo. repeat split; try done.
  eapply Forall_impl; [exact (inv_tasks _ _ HI)|]. by intros t [? _].
Qed.

Lemma requests_follow_task_order_witness :
  exists settled todo,
    tasks (state_of (steps_from Sample.Wdown 5 (start "q" []))) = (settled ++ todo)%list /\
    Forall terminal settled /\ Forall (fun t => status t = PENDING) todo /\
    Forall (fun t => query t = "q")
           (tasks (state_of (steps_from Sample.Wdown 5 (start "q" [])))) /\
    calls (steps_from Sample.Wdown 5 (start "q" []))
    = (aggregation_calls Sample.Wdown (steps_from Sample.Wdown 5 (start "q" []))
       ++ rev (map request_of settled) ++ [SelectorInvoke "q"])%list.
Proof.
  assert (Hn : at_node (steps_from Sample.Wdown 5 (start "q" [])) ≠ Initialize).
  { vm_compute. discriminate. }
  exact (requests_follow_task_order Sample.Wdown "q" [] _
           (steps_from_reachable Sample.Wdown 5 "q" []) Hn).
Defined.

(** X9.  The calls of a whole run.  When [run_framework_manager]
    returns, the run has made the selection call, then one request per
    task in task order, then the aggregation call if some task is
    COMPLETED, and no other call; there is one task per required agent,
    at most three, with distinct agent types, each COMPLETED or FAILED. *)
Theorem run_calls (W : World) (q : string) (h : history) (c : config) :
  run_framework_manager W q h = Ok c ->
  calls c = (aggregation_calls W c ++ rev (map request_of (tasks (state_of c)))
             ++ SelectorInvoke q :: h)%list /\
  Forall terminal (tasks (state_of c)) /\
  NoDup (map agent_type (tasks (state_of c))) /\
  (length (tasks (state_of c)) <= 3)%nat /\
  (FrameworkManagerAgent.determine_required_agents W q h).1
    = Ok (required_agents (state_of c)) /\
  map (fun t => enum_member (agent_type t)) (tasks (state_of c))
    = set_order W (required_agents (state_of c)).
Proof.
  intros [Hreach Hn]%run_framework_manager_Ok.
  pose proof (reachable_Inv W q h c Hreach) as HI.
  pose proof (reachable_Progress W q h c Hreach) as HP.
  destruct (Progress_END W q h c HI HP Hn) as (Hterm & Hcalls & _).
  destruct (pr_required _ _ _ _ HP) as [Hreq Hmap]; [congruence|].
  repeat split; try done.
  - by destruct HI.
  - by apply (tasks_bound q).
Qed.

Lemma run_calls_witness :
  match run_framework_manager Sample.W "q" [] with
  | Ok c =>
      calls c = (aggregation_calls Sample.W c ++ rev (map request_of (tasks (state_of c)))
                 ++ [SelectorInvoke "q"])%list /\
      Forall terminal (tasks (state_of c)) /\ (length (tasks (state_of c)) <= 3)%nat
  | Raise _ => False
  end.
Proof.
  destruct (run_framework_manager Sample.W "q" []) as [c|e] eqn:Hrun.
  - destruct (run_calls Sample.W "q" [] c Hrun) as (Hcalls & Hterm & _ & Hlen & _).
    split; [exact Hcalls|]. split; [exact Hterm|exact Hlen].
  - vm_compute in Hrun. discriminate Hrun.
Defined.

(** X10.  The messages of a finished run.  Every node but [finalize]
    returns the messages it received, and the graph adds what a node
    returns to what the state holds; so with [n] tasks the final state
    holds [2 ^ (2 + 2 * n)] copies of the human message, followed by the
    one message of [finalize], whose content is the fixed preamble and the
    final output. *)
Theorem run_messages (W : World) (q : string) (h : history) (c : config) :
  run_framework_manager W q h = Ok c ->
  messages (state_of c)
  = (replicate (2 ^ (2 + 2 * length (tasks (state_of c)))) (HumanMessage q)
     ++ [AIMessage ("Query processed. Here's the answer:" ++ nl ++ nl
                    ++ final_output (state_of c))])%list.
Proof.
  intros [Hreach Hn]%run_framework_manager_Ok.
  by apply (Progress_END W q h c
              (reachable_Inv W q h c Hreach) (reachable_Progress W q h c Hreach)).
Qed.

Lemma run_messages_witness :
  match run_framework_manager Sample.W "q" [] with
  | Ok c =>
      messages (state_of c)
      = (replicate 64 (HumanMessage "q")
         ++ [AIMessage ("Query processed. Here's the answer:" ++ nl ++ nl
                        ++ final_output (state_of c))])%list
  | Raise _ => False
  end.
Proof.
  destruct (run_framework_manager Sample.W "q" []) as [c|e] eqn:Hrun.
  - pose proof (run_messages Sample.W "q" [] c Hrun) as Hm.
    assert (Hlen : length (tasks (state_of c)) = 2%nat).
    { vm_compute in Hrun. injection Hrun as <-. reflexivity. }
    rewrite Hlen in Hm. exact Hm.
  - vm_compute in Hrun. discriminate Hrun.
Defined.

(** X11.  What a client of [/query] reads.  In every body the endpoint
    returns, [result] holds the query as [original_query], [null] as
    [current_agent], and at most three tasks, each for that query and
    either ["completed"] with no error or ["failed"] with no response and
    an error string: never ["pending"] or ["in_progress"]. *)
Theorem query_response_tasks (W : World) (q : string) (h : history) (body : pyval) :
  get_items W q h = Ok body ->
  exists st items,
    subscript body "result" = Ok st /\
    subscript st "original_query" = Ok (PStr q) /\
    subscript st "current_agent" = Ok PNone /\
    subscript st "tasks" = Ok (PList items) /\
    (length items <= 3)%nat /\
    Forall (fun item =>
              subscript item "query" = Ok (PStr q) /\
              ((subscript item "status" = Ok (PStr "completed") /\
                subscript item "error" = Ok PNone) \/
               (subscript item "status" = Ok (PStr "failed") /\
                subscript item "response" = Ok PNone /\
                exists msg, subscript item "error" = Ok (PStr msg)))) items.
Proof.
  unfold get_items. unfold_bind.
  destruct (query_manager_agent W q "deepseek-reasoner" h) as [c|] eqn:Hquery;
    [|discriminate].
  intros [= <-]. apply query_manager_agent_Ok in Hquery as [_ Hrun].
  apply run_framework_manager_Ok in Hrun as [Hreach Hn].
  pose proof (reachable_Inv W q h c Hreach) as HI.
  pose proof (reachable_Progress W q h c Hreach) as HP.
  exists (encode_state W (state_of c)), (map encode_task (tasks (state_of c))).
  split; [done|]. split; [by rewrite <- (inv_query _ _ HI)|].
  split.
  { unfold encode_state, subscript. simpl.
    by rewrite (pr_current _ _ _ _ HP (or_intror Hn)). }
  split; [done|]. split; [rewrite length_map; by apply (tasks_bound q)|].
  pose proof (inv_tasks _ _ HI) as Hts.
  pose proof (inv_attempted _ _ HI (or_intror Hn)) as Hatt.
  rewrite Forall_forall in Hts, Hatt.
  apply Forall_fmap, Forall_forall. intros t Ht.
  destruct (Hts t Ht) as [Hq Hst]. specialize (Hatt t Ht).
  unfold compose, encode_task, subscript. simpl.
  rewrite Hq. split; [done|].
  destruct (status t); simpl; try done.
  - left. by destruct Hst as [-> _].
  - right. destruct Hst as (-> & [msg ->] & _). eauto.
Qed.

Lemma query_response_tasks_witness :
  match get_items Sample.W "q" [] with
  | Ok body =>
      exists st items,
        subscript body "result" = Ok st /\
        subscript st "current_agent" = Ok PNone /\
        subscript st "tasks" = Ok (PList items) /\ (length items <= 3)%nat
  | Raise _ => False
  end.
Proof.
  destruct (get_items Sample.W "q" []) as [body|e] eqn:Hbody.
  - destruct (query_response_tasks Sample.W "q" [] body Hbody)
      as (st & items & Hst & _ & Hcur & Htasks & Hlen & _).
    exists st, items. split; [exact Hst|]. split; [exact Hcur|].
    split; [exact Htasks|exact Hlen].
  - vm_compute in Hbody. discriminate Hbody.
Defined.

(** X12.  An empty selection.  When the selection chain returns and no
    verdict is needed, the run creates no task, sends no request, makes
    no aggregation call, and returns the sentence about agents that
    "encountered errors" as its final output. *)
Theorem empty_selection_run (W : World) (q : string) (h : history) :
  (FrameworkManagerAgent.determine_required_agents W q h).1 = Ok [] ->
  exists c,
    run_framework_manager W q h = Ok c /\
    tasks (state_of c) = [] /\
    calls c = SelectorInvoke q :: h /\
    final_output (state_of c)
      = "Unable to provide a response as all specialized agents encountered errors.".
Proof.
  intros Hnone.
  assert (Horder : set_order W [] = []).
  { apply Permutation_nil_r. apply (set_order_perm W). }
  assert (Hstep1 : exists c1, graph_step W (start q h) = Ok c1).
  { rewrite (graph_step_initialize W (start q h) eq_refl). proj_simpl.
    rewrite Hnone. unfold_bind. rewrite Horder. by eexists. }
  destruct Hstep1 as [c1 Hstep1].
  destruct (run_framework_manager_steps W q h c1 Hstep1)
    as (k & c' & _ & _ & Hn' & Hreach & Hrun).
  pose proof (reachable_Inv W q h c' Hreach) as HI.
  pose proof (reachable_Progress W q h c' Hreach) as HP.
  destruct (pr_required _ _ _ _ HP) as [Hreq Hmap]; [congruence|].
  rewrite Hnone in Hreq. injection Hreq as Hreq.
  rewrite <- Hreq, Horder in Hmap. apply map_eq_nil in Hmap.
  destruct (pr_trace _ _ _ _ HP) as (settled & todo & Hsplit & _ & _ & Hcalls & _);
    [congruence|].
  rewrite Hmap in Hsplit. symmetry in Hsplit. apply app_eq_nil in Hsplit as [-> ->].
  unfold aggregation_calls in Hcalls. rewrite Hn' in Hcalls. simpl in Hcalls.
  assert (Hf : List.filter FrameworkManagerAgent.is_completed (tasks (state_of c')) = [])
    by (by rewrite Hmap).
  rewrite (graph_step_finalize_fallback W c' Hn' Hf) in Hrun. unfold_bind.
  eexists. split; [exact Hrun|]. proj_simpl.
  split; [done|]. split; [done|].
  rewrite (inv_output _ _ HI); [done|congruence].
Qed.

Lemma empty_selection_run_witness :
  exists c,
    run_framework_manager (Sample.selecting Sample.unneeded) "q" [] = Ok c /\
    tasks (state_of c) = [] /\
    calls c = [SelectorInvoke "q"] /\
    final_output (state_of c) = NO_ANSWER.
Proof.
  apply (empty_selection_run (Sample.selecting Sample.unneeded) "q" []).
  reflexivity.
Defined.

(** X13.  A failed selection.  When the chat model is built and the
    selection raises, [initialize] does not: it creates three tasks, one
    per agent type, and every later state of the run holds exactly these
    three agent types, in the order in which the set of agent types is
    iterated. *)
Theorem failed_selection_run (W : World) (q : string) (h : history) (e : exn) :
  chat_deepseek W "deepseek-chat" h = Ok tt ->
  FrameworkManagerAgent.selection W (SelectorInvoke q :: h) = Raise e ->
  (exists c1, step W (start q h) c1) /\
  (forall c,
      reachable W q h c -> at_node c ≠ Initialize ->
      map agent_type (tasks (state_of c)) ≡ₚ [ELIZAOS; TRON; GOOSE] /\
      length (tasks (state_of c)) = 3%nat).
Proof.
  intros Hbuilt Hsel.
  assert (Hall : (FrameworkManagerAgent.determine_required_agents W q h).1
                 = Ok FrameworkManagerAgent.all_agents).
  { rewrite (determine_required_agents_built W q h Hbuilt). simpl. by rewrite Hsel. }
  split.
  - unfold step. rewrite (graph_step_initialize W (start q h) eq_refl). proj_simpl.
    rewrite Hall. unfold_bind.
    destruct (mapM_new_tasks_Ok q (set_order W FrameworkManagerAgent.all_agents))
      as [ts Hts].
    { rewrite (set_order_perm W). repeat constructor;
        [by exists ELIZAOS|by exists TRON|by exists GOOSE]. }
    unfold_bind. rewrite Hts. by eexists.
  - intros c Hreach Hn.
    pose proof (reachable_Inv W q h c Hreach) as HI.
    destruct (pr_required _ _ _ _ (reachable_Progress W q h c Hreach) Hn) as [Hreq Hmap].
    rewrite Hall in Hreq. injection Hreq as Hreq. rewrite <- Hreq in Hmap.
    assert (Hperm : map agent_type (tasks (state_of c)) ≡ₚ [ELIZAOS; TRON; GOOSE]).
    { apply NoDup_Permutation.
      - by destruct HI.
      - apply NoDup_cons_2; [|apply NoDup_cons_2; [|apply NoDup_singleton]];
          rewrite ?elem_of_cons, ?elem_of_nil; intros H;
          repeat (destruct H as [H|H]; try discriminate); done.
      - intros a. split; [intros _; destruct a; repeat constructor|]. intros _.
        assert (Hin : enum_member a ∈ set_order W FrameworkManagerAgent.all_agents).
        { rewrite (set_order_perm W). destruct a; repeat constructor. }
        rewrite <- Hmap in Hin.
        apply list_elem_of_fmap in Hin as (t & Heq & Ht).
        assert (a = agent_type t) as -> by (by destruct a, (agent_type t)).
        by apply (list_elem_of_fmap_2 agent_type). }
    split; [done|].
    apply Permutation_length in Hperm. by rewrite length_map in Hperm.
Qed.

Lemma failed_selection_run_witness :
  map agent_type (tasks (state_of (steps_from Sample.Wdown 4 (start "q" []))))
    ≡ₚ [ELIZAOS; TRON; GOOSE] /\
  length (tasks (state_of (steps_from Sample.Wdown 4 (start "q" [])))) = 3%nat.
Proof.
  assert (Hn : at_node (steps_from Sample.Wdown 4 (start "q" [])) ≠ Initialize).
  { vm_compute. discriminate. }
  destruct (failed_selection_run Sample.Wdown "q" []
              (ChainException "Invalid json output") eq_refl eq_refl) as [_ Hrun].
  exact (Hrun _ (steps_from_reachable Sample.Wdown 4 "q" []) Hn).
Defined.

(** * Properties of the other modules *)

(** X14.  The simulated replies never fail: for every agent and query
    the reply is a success dict whose text quotes the query, the node
    would mark the task COMPLETED with it, and the text tells the agents
    apart whatever the queries. *)
Theorem simulated_reply_completes (a : AgentType) (q : string) (t : AgentTask) :
  exists text before after,
    simulate_api_response a q = success_dict (PStr text) /\
    text = before ++ "'" ++ q ++ "'" ++ after /\
    done_task t (simulate_api_response a q) = mark_completed t (PStr text) /\
    forall a' q', simulate_api_response a' q' = simulate_api_response a q -> a' = a.
Proof.
  destruct a.
  - eexists. exists "ElizaOS analysis: Based on the query ". eexists.
    split; [reflexivity|]. split; [reflexivity|]. split; [reflexivity|].
    intros [] q'; try done; discriminate.
  - eexists. exists "Tron framework response: For ". eexists.
    split; [reflexivity|]. split; [reflexivity|]. split; [reflexivity|].
    intros [] q'; try done; discriminate.
  - eexists. exists "Goose framework solution: ". eexists.
    split; [reflexivity|]. split; [reflexivity|]. split; [reflexivity|].
    intros [] q'; try done; discriminate.
Qed.

Lemma append_nil_r (a : string) : a ++ "" = a.
Proof.
  induction a as [|x a IH]; [done|].
  change (String x (a ++ "") = String x a). by rewrite IH.
Qed.

Lemma substring_zero (n : nat) (s : string) : String.substring n 0 s = "".
Proof.
  revert n. induction s as [|x s IH]; intros n; destruct n; try done.
  simpl. apply IH.
Qed.

Lemma append_assoc (a b c : string) : (a ++ b) ++ c = a ++ (b ++ c).
Proof.
  induction a as [|x a IH]; [done|].
  change (String x ((a ++ b) ++ c) = String x (a ++ (b ++ c))). by rewrite IH.
Qed.

(** ** documentation.py *)

Section DocumentationFacts.
Import Documentation.
Context (W : World) (D : Env).

Lemma write_subheadings_effects self title subs h :
  exists added,
    (write_subheadings W D self title subs h).2 = (added ++ h)%list /\
    length (List.filter is_write added) = length (List.filter is_get added) /\
    List.filter is_makedirs added = [] /\
    ((write_subheadings W D self title subs h).1 = Returned ->
     length (List.filter is_get added) = length subs).
Proof.
  revert h. induction subs as [|sub subs IH]; intros h; simpl.
  - by exists [].
  - destruct (write_file D _) as [e|].
    + eexists [_; _]. simpl. repeat split; done.
    + destruct (IH (WriteFile (page_path W title sub)
                      (page W title sub (_fetch_content D self title sub h).1)
                    :: (_fetch_content D self title sub h).2))
        as (added & Heq & Hcount & Hdirs & Hret).
      exists (added ++ [WriteFile (page_path W title sub)
                          (page W title sub (_fetch_content D self title sub h).1);
                        Get (endpoint self ++ "/docs-content")
                          (Some (PDict [("heading", title); ("subheading", sub)]))])%list.
      rewrite !List.filter_app, !length_app. simpl.
      split; [by rewrite <- app_assoc|]. split; [lia|]. split; [by rewrite Hdirs|].
      intros Hr. rewrite (Hret Hr). lia.
Qed.

Lemma write_headings_effects self headings h :
  exists added,
    (write_headings W D self headings h).2 = (added ++ h)%list /\
    length (List.filter is_write added) = length (List.filter is_get added) /\
    ((write_headings W D self headings h).1 = Returned ->
     length (List.filter is_makedirs added) = length headings).
Proof.
  revert h. induction headings as [|heading headings IH]; intros h; simpl.
  - by exists [].
  - destruct (subscript heading "title") as [title|]; [|by exists []].
    destruct (os_makedirs D _) as [e|]; [by exists [MakeDirs ("docs/" ++ py_format W title)]|].
    destruct (subscript heading "subheadings" ≫= py_iter) as [subs|];
      [|by exists [MakeDirs ("docs/" ++ py_format W title)]].
    destruct (write_subheadings_effects self title subs
                (MakeDirs ("docs/" ++ py_format W title) :: h))
      as (added1 & Heq1 & Hcount1 & Hdirs1 & _).
    destruct (write_subheadings W D self title subs _) as [[|e] h2]; simpl in Heq1; subst h2.
    + destruct (IH (added1 ++ MakeDirs ("docs/" ++ py_format W title) :: h)%list)
        as (added2 & Heq2 & Hcount2 & Hret2).
      exists (added2 ++ added1 ++ [MakeDirs ("docs/" ++ py_format W title)])%list.
      rewrite !List.filter_app, !length_app, Hdirs1. simpl.
      split; [by rewrite Heq2, <- !app_assoc|]. split; [lia|].
      intros Hr. rewrite (Hret2 Hr). lia.
    + exists (added1 ++ [MakeDirs ("docs/" ++ py_format W title)])%list.
      rewrite !List.filter_app, !length_app. simpl.
      split; [by rewrite <- app_assoc|]. split; [lia|done].
Qed.

End DocumentationFacts.

(** X15.  When the request for the structure fails in any way (the
    request raises, the reply is a 4xx or 5xx, the body is no JSON or
    lacks [result] or [headings]), the agent is built with [None] as
    structure and [get_content] then does nothing: no request, no
    directory, no file, no exception. *)
Theorem failed_structure_request_is_silent (W : World) (D : Documentation.Env)
    (repo endpoint : string) (h : list Documentation.effect) (e : exn) :
  Documentation.structure_attempt D
    (Documentation.Get (endpoint ++ "/docs-structure") None :: h) = Raise e ->
  Documentation.structure (Documentation.init D repo endpoint h).1 = PNone /\
  Documentation.get_content W D (Documentation.init D repo endpoint h).1
    (Documentation.init D repo endpoint h).2
  = (Documentation.Returned, Documentation.Get (endpoint ++ "/docs-structure") None :: h).
Proof.
  intros He. unfold Documentation.init, Documentation.get_structure.
  rewrite He. simpl. done.
Qed.

Lemma failed_structure_request_is_silent_witness :
  Documentation.get_content Sample.W Documentation.sample_env_down
    (Documentation.init Documentation.sample_env_down "repo" "http://localhost:8000/repo" []).1
    (Documentation.init Documentation.sample_env_down "repo" "http://localhost:8000/repo" []).2
  = (Documentation.Returned,
     [Documentation.Get "http://localhost:8000/repo/docs-structure" None]).
Proof.
  apply (proj2 (failed_structure_request_is_silent Sample.W Documentation.sample_env_down
                  "repo" "http://localhost:8000/repo" []
                  (RequestException "Connection refused") eq_refl)).
Defined.

(** X16.  A page is written even when its content could not be fetched:
    when the content request fails, [_fetch_content] returns [None] and
    the file of the subheading is written with the front matter, the
    heading line and the line ["None"]. *)
Theorem failed_fetch_writes_None (W : World) (D : Documentation.Env)
    (self : Documentation.DocumentationAgent) (title sub : pyval) (rest : list pyval)
    (h : list Documentation.effect) (e : exn) :
  Documentation.content_attempt D
    (Documentation.Get (Documentation.endpoint self ++ "/docs-content")
       (Some (PDict [("heading", title); ("subheading", sub)])) :: h) = Raise e ->
  (Documentation._fetch_content D self title sub h).1 = PNone /\
  exists h2,
    h2 = Documentation.WriteFile
           ("docs/" ++ py_format W title ++ "/" ++ py_format W sub ++ ".md")
           ("---" ++ nl ++ "id: " ++ py_format W title ++ "." ++ py_format W sub ++ nl
            ++ "title: " ++ py_format W sub ++ nl ++ "---" ++ nl
            ++ "# " ++ py_format W sub ++ nl ++ "None" ++ nl)
         :: Documentation.Get (Documentation.endpoint self ++ "/docs-content")
              (Some (PDict [("heading", title); ("subheading", sub)])) :: h /\
    Documentation.write_subheadings W D self title (sub :: rest) h
    = match Documentation.write_file D h2 with
      | Some err => (Documentation.Raised (Documentation.OsError err), h2)
      | None => Documentation.write_subheadings W D self title rest h2
      end.
Proof.
  intros He. split.
  - unfold Documentation._fetch_content. simpl. by rewrite He.
  - eexists. split; [reflexivity|]. simpl. rewrite He.
    unfold Documentation.page, Documentation.page_path.
    by rewrite !append_assoc.
Qed.

Lemma failed_fetch_writes_None_witness :
  (Documentation._fetch_content Documentation.sample_env
     {| Documentation.repo_name := "repo";
        Documentation.endpoint := "http://localhost:8000/repo";
        Documentation.structure := Documentation.sample_structure |}
     (PStr "Guide") (PStr "Usage") []).1 = PNone.
Proof.
  apply (proj1 (failed_fetch_writes_None Sample.W Documentation.sample_env
                  {| Documentation.repo_name := "repo";
                     Documentation.endpoint := "http://localhost:8000/repo";
                     Documentation.structure := Documentation.sample_structure |}
                  (PStr "Guide") (PStr "Usage") [] [] (HTTPError 404) eq_refl)).
Defined.

(** X17.  A directory that cannot be created stops [get_content]: when
    [os.makedirs] raises for the first heading (the directory exists
    already, since [exist_ok] is false), the exception escapes before any
    content is requested or written. *)
Theorem makedirs_failure_aborts (W : World) (D : Documentation.Env)
    (self : Documentation.DocumentationAgent) (heading : pyval) (rest : list pyval)
    (title : pyval) (h : list Documentation.effect) (e : Documentation.os_error) :
  Documentation.structure self = PList (heading :: rest) ->
  subscript heading "title" = Ok title ->
  Documentation.os_makedirs D
    (Documentation.MakeDirs ("docs/" ++ py_format W title) :: h) = Some e ->
  Documentation.get_content W D self h
  = (Documentation.Raised (Documentation.OsError e),
     Documentation.MakeDirs ("docs/" ++ py_format W title) :: h).
Proof.
  intros Hs Ht He. unfold Documentation.get_content. rewrite Hs. simpl.
  by rewrite Ht, He.
Qed.

Lemma makedirs_failure_aborts_witness :
  Documentation.get_content Sample.W Documentation.sample_env_existing
    {| Documentation.repo_name := "repo";
       Documentation.endpoint := "http://localhost:8000/repo";
       Documentation.structure := Documentation.sample_structure |} []
  = (Documentation.Raised (Documentation.OsError (Documentation.FileExistsError "docs/Guide")),
     [Documentation.MakeDirs "docs/Guide"]).
Proof.
  apply (makedirs_failure_aborts Sample.W Documentation.sample_env_existing
           {| Documentation.repo_name := "repo";
              Documentation.endpoint := "http://localhost:8000/repo";
              Documentation.structure := Documentation.sample_structure |}
           (PDict [("title", PStr "Guide");
                   ("subheadings", PList [PStr "Install"; PStr "Usage"])])
           [] (PStr "Guide") [] (Documentation.FileExistsError "docs/Guide")).
  - reflexivity.
  - reflexivity.
  - reflexivity.
Defined.

(** X18.  The effects of [get_content], whatever the structure and
    whether or not it raises: it only adds effects to those already made;
    among the added ones there are as many attempts to write a file as
    requests; and when it returns from a structure that is a list, it has
    called [os.makedirs] exactly once per heading. *)
Theorem get_content_effects (W : World) (D : Documentation.Env)
    (self : Documentation.DocumentationAgent) (h : list Documentation.effect) :
  exists added,
    (Documentation.get_content W D self h).2 = (added ++ h)%list /\
    length (List.filter Documentation.is_write added)
      = length (List.filter Documentation.is_get added) /\
    (forall headings,
        Documentation.structure self = PList headings ->
        (Documentation.get_content W D self h).1 = Documentation.Returned ->
        length (List.filter Documentation.is_makedirs added) = length headings).
Proof.
  unfold Documentation.get_content.
  destruct (truthy (Documentation.structure self)) eqn:Htruthy.
  - destruct (py_iter (Documentation.structure self)) as [headings|e] eqn:Hiter.
    + destruct (write_headings_effects W D self headings h) as (added & Heq & Hcount & Hret).
      exists added. split; [done|]. split; [done|].
      intros headings' Hs. rewrite Hs in Hiter. injection Hiter as ->. exact Hret.
    + exists []. split; [done|]. split; [done|]. intros headings' Hs.
      rewrite Hs in Hiter. discriminate.
  - exists []. split; [done|]. split; [done|]. intros headings Hs _.
    rewrite Hs in Htruthy. by destruct headings.
Qed.

Lemma get_content_effects_witness :
  exists added,
    (Documentation.get_content Sample.W Documentation.sample_env
       {| Documentation.repo_name := "repo";
          Documentation.endpoint := "http://localhost:8000/repo";
          Documentation.structure := Documentation.sample_structure |} []).2
    = (added ++ [])%list /\
    length (List.filter Documentation.is_write added)
      = length (List.filter Documentation.is_get added) /\
    length (List.filter Documentation.is_makedirs added) = 1%nat.
Proof.
  destruct (get_content_effects Sample.W Documentation.sample_env
              {| Documentation.repo_name := "repo";
                 Documentation.endpoint := "http://localhost:8000/repo";
                 Documentation.structure := Documentation.sample_structure |} [])
    as (added & Heq & Hcount & Hdirs).
  exists added. split; [exact Heq|]. split; [exact Hcount|].
  apply (Hdirs _ eq_refl). vm_compute. reflexivity.
Defined.

(** ** process_files.py and setup_docs.py *)

Section DocsFacts.
Import Docs.
Context (L : PyLib).

Lemma startswith_front_matter file content :
  startswith "---" (front_matter L file ++ content) = true.
Proof. reflexivity. Qed.

Lemma dict_lookup_set_eq key v d : dict_lookup key (dict_set key v d) = Some v.
Proof.
  induction d as [|[k w] d IH]; simpl.
  - by rewrite String.eqb_refl.
  - destruct (String.eqb k key) eqn:Hk; simpl; by rewrite Hk.
Qed.

Lemma dict_lookup_set_ne key key' v d :
  key' ≠ key -> dict_lookup key (dict_set key' v d) = dict_lookup key d.
Proof.
  intros Hne. induction d as [|[k w] d IH]; simpl.
  - destruct (String.eqb_spec key' key); done.
  - destruct (String.eqb_spec k key') as [->|Hk]; simpl.
    + destruct (String.eqb_spec key' key); done.
    + destruct (String.eqb_spec k key); done.
Qed.

Lemma dict_set_keys key v d :
  NoDup (map fst d) -> NoDup (map fst (dict_set key v d)).
Proof.
  induction d as [|[k w] d IH]; simpl; intros Hnd.
  - apply NoDup_singleton.
  - apply NoDup_cons in Hnd as [Hk Hnd].
    destruct (String.eqb_spec k key) as [->|Hne]; simpl.
    + by apply NoDup_cons.
    + apply NoDup_cons. split; [|by apply IH].
      intros Hin. apply Hk. clear -Hin Hne.
      induction d as [|[k' w'] d IH]; simpl in *.
      * apply list_elem_of_singleton in Hin. done.
      * destruct (String.eqb_spec k' key) as [->|Hne']; simpl in *.
        -- done.
        -- apply elem_of_cons in Hin as [->|Hin]; [left|right; by apply IH].
Qed.

Lemma collect_app docs_dir walk1 walk2 sidebar :
  collect L docs_dir (walk1 ++ walk2) sidebar
  = collect L docs_dir walk2 (collect L docs_dir walk1 sidebar).
Proof.
  revert sidebar. induction walk1 as [|w walk1 IH]; intros sidebar; simpl; [done|].
  by destruct (items L docs_dir w).
Qed.

Lemma collect_keys docs_dir walk sidebar :
  NoDup (map fst sidebar) -> NoDup (map fst (collect L docs_dir walk sidebar)).
Proof.
  revert sidebar. induction walk as [|w walk IH]; intros sidebar Hnd; simpl; [done|].
  destruct (items L docs_dir w); [by apply IH|]. by apply IH, dict_set_keys.
Qed.

Lemma collect_lookup_other docs_dir walk sidebar key :
  Forall (fun w => items L docs_dir w = [] \/ category L docs_dir w.1.1 ≠ key) walk ->
  dict_lookup key (collect L docs_dir walk sidebar) = dict_lookup key sidebar.
Proof.
  intros Hall. revert sidebar. induction Hall as [|w walk Hw _ IH]; intros sidebar; simpl;
    [done|].
  destruct (items L docs_dir w) as [|it its] eqn:Hits; [by apply IH|].
  rewrite IH. destruct Hw as [?|Hne]; [done|]. by apply dict_lookup_set_ne.
Qed.

Lemma setup_collect_raises docs_dir walk kv :
  dict_get "tutorialSideBar" kv = None ->
  (exists w file, w ∈ walk /\ file ∈ w.2 /\ listed file = true) ->
  setup_collect L docs_dir walk kv = inr (PyExn (KeyError "tutorialSideBar")).
Proof.
  intros Hkey (w & file & Hw & Hfile & Hlisted).
  induction walk as [|w' walk IH]; [by apply elem_of_nil in Hw|].
  simpl. destruct (setup_items L docs_dir w') as [|it its] eqn:Hits.
  - apply IH. apply elem_of_cons in Hw as [->|Hw]; [|done]. exfalso.
    unfold setup_items in Hits. apply map_eq_nil in Hits.
    assert (Hin : file ∈ List.filter listed (sorted L w'.2)).
    { apply list_elem_of_In, filter_In. split; [|done].
      apply list_elem_of_In. by rewrite (sorted_perm L). }
    rewrite Hits in Hin. by apply elem_of_nil in Hin.
  - unfold append_entry, subscript. by rewrite Hkey.
Qed.

Lemma setup_collect_nothing docs_dir walk kv :
  Forall (fun w : walked => Forall (fun file => listed file = false) w.2) walk ->
  setup_collect L docs_dir walk kv = inl kv.
Proof.
  induction 1 as [|w walk Hw _ IH]; simpl; [done|].
  assert (setup_items L docs_dir w = []) as ->; [|done].
  unfold setup_items.
  assert (List.filter listed (sorted L w.2) = []) as ->; [|done].
  destruct (List.filter listed (sorted L w.2)) as [|file rest] eqn:Hfilter; [done|].
  assert (Hin : In file (List.filter listed (sorted L w.2)))
    by (rewrite Hfilter; by left).
  apply filter_In in Hin as [Hin Hlisted].
  rewrite Forall_forall in Hw.
  rewrite (Hw file) in Hlisted; [done|].
  rewrite <- (sorted_perm L). by apply list_elem_of_In.
Qed.

End DocsFacts.

(** X19.  Front matter is added once.  Take a file that is read as the
    text [content], whose text with front matter is written as the bytes
    [out], which are read back as that text.  The text with front matter
    starts with [---] and ends with [content], and nothing is put in front
    exactly when [content] starts with [---].  process_files.py leaves
    [out] in the destination, and processing [out] again gives [out].
    setup_docs.py leaves the file as it is when [content] starts with
    [---]; otherwise it writes [out] over the start of the file without
    truncating it, so the old bytes beyond the length of [out] stay; when
    [out] is at least as long as the old file, the file holds exactly
    [out], and processing it again changes nothing. *)
Theorem front_matter_added_once (L : Docs.PyLib) (file file' src content out : string) :
  Docs.read_text L src = Some content ->
  Docs.write_text L (Docs.with_front_matter L file content) = Some out ->
  Docs.read_text L out = Some (Docs.with_front_matter L file content) ->
  (Docs.startswith "---" (Docs.with_front_matter L file content) = true /\
   exists front,
     Docs.with_front_matter L file content = front ++ content /\
     (front = "" <-> Docs.startswith "---" content = true)) /\
  (Docs.process_file L file src = Some out /\
   Docs.process_file L file' out = Some out) /\
  (Docs.startswith "---" content = true ->
   Docs.setup_process_file L file src = Some src) /\
  (Docs.startswith "---" content = false ->
   Docs.setup_process_file L file src
   = Some (out ++ String.substring (String.length out)
                    (String.length src - String.length out) src) /\
   ((String.length src <= String.length out)%nat ->
    Docs.setup_process_file L file src = Some out /\
    Docs.setup_process_file L file' out = Some out)).
Proof.
  intros Hread Hwrite Hback.
  assert (Hstart : Docs.startswith "---" (Docs.with_front_matter L file content) = true).
  { unfold Docs.with_front_matter.
    destruct (Docs.startswith "---" content) eqn:Hc; [done|].
    apply startswith_front_matter. }
  assert (Hagain : Docs.with_front_matter L file' (Docs.with_front_matter L file content)
                   = Docs.with_front_matter L file content).
  { unfold Docs.with_front_matter at 1. by rewrite Hstart. }
  split; [|split; [|split]].
  - split; [done|]. unfold Docs.with_front_matter.
    destruct (Docs.startswith "---" content) eqn:Hc.
    + by exists "".
    + exists (Docs.front_matter L file). split; [done|]. split; discriminate.
  - unfold Docs.process_file. rewrite Hread, Hback, Hagain. done.
  - intros Hc. unfold Docs.setup_process_file. by rewrite Hread, Hc.
  - intros Hc.
    assert (Hout : Docs.write_text L (Docs.front_matter L file ++ content) = Some out).
    { unfold Docs.with_front_matter in Hwrite. by rewrite Hc in Hwrite. }
    assert (Hsetup : Docs.setup_process_file L file src = Some (Docs.overwrite out src)).
    { unfold Docs.setup_process_file. by rewrite Hread, Hc, Hout. }
    split; [done|]. intros Hlen.
    assert (Hover : Docs.overwrite out src = out).
    { unfold Docs.overwrite.
      replace (String.length src - String.length out)%nat with 0%nat by lia.
      rewrite substring_zero. apply append_nil_r. }
    split; [by rewrite Hsetup, Hover|].
    unfold Docs.setup_process_file. by rewrite Hback, Hstart.
Qed.

Lemma front_matter_added_once_witness :
  Docs.process_file Docs.sample_lib "getting-started.md" "# Hello"
    = Some ("---" ++ nl ++ "id: getting-started" ++ nl ++ "title: Getting Started" ++ nl
            ++ "---" ++ nl ++ nl ++ "# Hello") /\
  Docs.setup_process_file Docs.sample_lib "a.md"
    (Docs.repeat_string 25 ("x" ++ String (Ascii.ascii_of_nat 13) nl))
    = Some ("---" ++ nl ++ "id: a" ++ nl ++ "title: A" ++ nl ++ "---" ++ nl ++ nl
            ++ Docs.repeat_string 25 ("x" ++ nl) ++ nl).
Proof.
  pose (src := Docs.repeat_string 25 ("x" ++ String (Ascii.ascii_of_nat 13) nl)).
  pose (content := Docs.repeat_string 25 ("x" ++ nl)).
  pose (out := Docs.front_matter Docs.sample_lib "a.md" ++ content).
  assert (Hread : Docs.read_text Docs.sample_lib src = Some content).
  { vm_compute. reflexivity. }
  assert (Hwrite : Docs.write_text Docs.sample_lib
                     (Docs.with_front_matter Docs.sample_lib "a.md" content) = Some out).
  { vm_compute. reflexivity. }
  assert (Hback : Docs.read_text Docs.sample_lib out
                  = Some (Docs.with_front_matter Docs.sample_lib "a.md" content)).
  { vm_compute. reflexivity. }
  assert (Hplain : Docs.startswith "---" content = false).
  { vm_compute. reflexivity. }
  split.
  - destruct (front_matter_added_once Docs.sample_lib "getting-started.md"
                "getting-started.md" "# Hello" "# Hello"
                (Docs.front_matter Docs.sample_lib "getting-started.md" ++ "# Hello")
                eq_refl eq_refl eq_refl) as (_ & [Hfile _] & _).
    rewrite Hfile. vm_compute. reflexivity.
  - destruct (front_matter_added_once Docs.sample_lib "a.md" "a.md" src content out
                Hread Hwrite Hback) as (_ & _ & _ & Hsetup).
    destruct (Hsetup Hplain) as [Hfile _].
    fold src. rewrite Hfile. vm_compute. reflexivity.
Defined.

(** X20.  [generate_sidebar] of setup_docs.py cannot list a document.
    As soon as some walked directory holds a Markdown file whose name
    does not start with an underscore, the lookup of ["tutorialSideBar"]
    in the dict built with the key ["docsSidebar"] raises, and the
    function returns [False] without writing the sidebar file.  It
    returns [True] only for a tree without such a file, and then writes a
    sidebar with an empty ["docsSidebar"] list. *)
Theorem setup_sidebar_fails_on_documents (L : Docs.PyLib) (docs_dir : string)
    (walk : list Docs.walked) (write : string -> option string) :
  ((exists w file, w ∈ walk /\ file ∈ w.2 /\ Docs.listed file = true) ->
   Docs.setup_generate_sidebar L docs_dir walk write = (false, None)) /\
  (Forall (fun w : Docs.walked => Forall (fun file => Docs.listed file = false) w.2) walk ->
   Docs.setup_generate_sidebar L docs_dir walk write
   = match write ("module.exports = "
                  ++ Docs.json_dump L (PDict [("docsSidebar", PList [])]) ++ ";" ++ nl) with
     | Some _ => (false, None)
     | None => (true, Some ("module.exports = "
                            ++ Docs.json_dump L (PDict [("docsSidebar", PList [])])
                            ++ ";" ++ nl))
     end).
Proof.
  split.
  - intros Hdoc. unfold Docs.setup_generate_sidebar.
    by rewrite (setup_collect_raises L docs_dir walk [("docsSidebar", PList [])]
                  eq_refl Hdoc).
  - intros Hnone. unfold Docs.setup_generate_sidebar.
    by rewrite (setup_collect_nothing L docs_dir walk _ Hnone).
Qed.

Lemma setup_sidebar_fails_on_documents_witness :
  Docs.setup_generate_sidebar Docs.sample_lib "docs"
    [("docs", ["api"], ["notes.txt"]); ("docs/api", [], ["_draft.md"; "intro.md"])]
    (fun _ => None)
  = (false, None) /\
  Docs.setup_generate_sidebar Docs.sample_lib "docs"
    [("docs", [], ["notes.txt"; "_draft.md"])] (fun _ => None)
  = (true, Some ("module.exports = {};" ++ nl)).
Proof.
  split.
  - apply (proj1 (setup_sidebar_fails_on_documents Docs.sample_lib "docs" _ _)).
    exists ("docs/api", [], ["_draft.md"; "intro.md"]), "intro.md".
    split; [apply list_elem_of_further, list_elem_of_here|].
    split; [apply list_elem_of_further, list_elem_of_here|reflexivity].
  - apply (proj2 (setup_sidebar_fails_on_documents Docs.sample_lib "docs"
                    [("docs", [], ["notes.txt"; "_draft.md"])] (fun _ => None))).
    repeat constructor.
Defined.

(** X21.  [generate_sidebar] of process_files.py keeps one entry per
    category, and the last directory wins: when two walked directories
    with listed files get the same category, the sidebar holds the items
    of the later one under that category and those of the earlier one
    are dropped.  Directories without a listed file add no entry. *)
Theorem sidebar_last_directory_wins (L : Docs.PyLib) (docs_dir : string)
    (before after : list Docs.walked) (w : Docs.walked) :
  Docs.items L docs_dir w ≠ [] ->
  Forall (fun w' => Docs.items L docs_dir w' = [] \/
                    Docs.category L docs_dir w'.1.1 ≠ Docs.category L docs_dir w.1.1)
         after ->
  Docs.dict_lookup (Docs.category L docs_dir w.1.1)
    (Docs.collect L docs_dir (before ++ w :: after) [])
    = Some (Docs.items L docs_dir w) /\
  NoDup (map fst (Docs.collect L docs_dir (before ++ w :: after) [])) /\
  (forall key,
      Forall (fun w' => Docs.items L docs_dir w' = [] \/
                        Docs.category L docs_dir w'.1.1 ≠ key) (before ++ w :: after) ->
      Docs.dict_lookup key (Docs.collect L docs_dir (before ++ w :: after) []) = None).
Proof.
  intros Hits Hafter. split; [|split].
  - rewrite collect_app. simpl.
    destruct (Docs.items L docs_dir w) as [|it its] eqn:Hw; [done|].
    rewrite (collect_lookup_other L docs_dir after _ _ Hafter).
    apply dict_lookup_set_eq.
  - apply collect_keys. apply NoDup_nil_2.
  - intros key Hall. by rewrite (collect_lookup_other L docs_dir _ _ _ Hall).
Qed.

Lemma sidebar_last_directory_wins_witness :
  Docs.dict_lookup "Api"
    (Docs.collect Docs.sample_lib "docs"
       ([("docs/api", [], ["first.md"])] ++ ("docs/API", [], ["second.md"]) :: []) [])
  = Some ["second"].
Proof.
  apply (proj1 (sidebar_last_directory_wins Docs.sample_lib "docs"
                  [("docs/api", [], ["first.md"])] [] ("docs/API", [], ["second.md"])
                  ltac:(discriminate) ltac:(constructor))).
Defined.
